(** * NorMITs-Demand: pool wrapper, matrix masks and the demand-vector algebra

    A shallow embedding of

    - [old_tms/multiprocessing_wrapper.py]: the process-pool wrapper
      ([_check_args_kwargs], [create_kill_pool_fn], [wait_for_pool_results],
      [process_pool_wrapper] and its two sister functions);
    - [normits_demand/matrices/utils.py]: the wide-matrix masks
      ([get_wide_mask], [get_wide_mask_np], [get_internal_mask],
      [get_external_mask]);
    - [run_helper_scripts/Apply_MND.py]: the factoring loop [loop];
    - the demand-vector engine of [normits_demand/core], whose operations
      are described by the specification only.

    Python exceptions are values of [exn]; a call that may raise returns a
    [result].  The scheduling of the worker processes and the wall clock are
    an explicit oracle: one [poll] record per iteration of the waiting loop. *)

From Stdlib Require Import List Bool Arith ZArith QArith Qabs Lia Lqa.
From Stdlib Require Import Permutation String.
From Stdlib Require SpecFloat.
Import ListNotations.

Set Implicit Arguments.

(** ** Python values shared by the modules *)

Module Py.

Inductive exn : Type :=
  | ValueError (msg : string)
  | TypeError
  | AssertionError
  | AttributeError
  | TimeoutError
  | MultiprocessingError (msg : string)
  | SystemExit (code : Z)
  | UserError (tag : string).

Inductive result (A : Type) : Type :=
  | Ok (a : A)
  | Raise (e : exn).

Arguments Ok {A} a.
Arguments Raise {A} e.

Definition bind {A B : Type} (r : result A) (k : A -> result B) : result B :=
  match r with
  | Ok a => k a
  | Raise e => Raise e
  end.

Definition is_ok {A : Type} (r : result A) : bool :=
  match r with
  | Ok _ => true
  | Raise _ => false
  end.

(** [range(n)]: empty when [n] is not positive. *)
Definition range (n : Z) : list nat := seq 0 (Z.to_nat n).

End Py.

Import Py.

Notation "x <- r ;; k" := (bind r (fun x => k))
  (at level 61, r at next level, right associativity).

(** ** old_tms/multiprocessing_wrapper.py *)

Module MultiprocessingWrapper.

(** *** The pool, its terminate event and the scheduling oracle *)

(** What [kill_pool] acts on: the [Pool] (closed, terminated) and the
    [terminate_process_event]. *)
Record PoolState : Type := mkPool
  { closed : bool; terminated : bool; event : bool }.

Definition fresh_pool : PoolState := mkPool false false false.

Definition pool_close (st : PoolState) : PoolState :=
  mkPool true (terminated st) (event st).

Definition pool_terminate (st : PoolState) : PoolState :=
  mkPool (closed st) true (event st).

Definition event_do_set (st : PoolState) : PoolState :=
  mkPool (closed st) (terminated st) true.

(** The closure returned by [create_kill_pool_fn].  The traceback is printed
    from [process_error.__traceback__]: when [process_error] is left at its
    default [None] the attribute access raises before the pool is touched. *)
Definition kill_pool (process_error : option exn) (process_callback : bool)
           (st : PoolState) : result unit * PoolState :=
  match process_error with
  | None => (Raise AttributeError, st)
  | Some _ => (Ok tt, event_do_set (pool_terminate (pool_close st)))
  end.

(** One iteration of the waiting loop, as the main process observes it:
    the answer of [terminate_process_event.is_set()], of [time.time()], and
    of [res.ready()] for the result of each job. *)
Record poll : Type := mkPoll
  { event_is_set : bool; now : Q; ready : nat -> bool }.

(** [start_time] is the clock when [wait_for_pool_results] is entered;
    [polls] has one entry per iteration the run is observed for. *)
Record world : Type := mkWorld
  { start_time : Q; polls : list poll }.

(** A [multiprocessing.pool.AsyncResult]: the job it belongs to and what the
    worker's call returns or raises ([res.successful()], [res.get()]). *)
Record AsyncResult (V : Type) : Type := mkAsync
  { job : nat; value : result V }.

Arguments mkAsync {V} job value.

Definition successful {V : Type} (res : AsyncResult V) : bool :=
  is_ok (value res).

Inductive outcome (V : Type) : Type :=
| Returned (v : V)
| Raised (e : exn)
| Waiting.

Arguments Returned {V} v.
Arguments Raised {V} e.
Arguments Waiting {V}.

Definition Qlt_bool (a b : Q) : bool := negb (Qle_bool b a).

(** *** [wait_for_pool_results] *)

(** [del results[i]] *)
Definition del_nth {X : Type} (i : nat) (l : list X) : list X :=
  firstn i l ++ skipn (S i) l.

Fixpoint insert_desc (i : nat) (l : list nat) : list nat :=
  match l with
  | [] => [i]
  | j :: l' => if j <=? i then i :: l else j :: insert_desc i l'
  end.

(** [sorted(res_to_remove, reverse=True)] *)
Definition sorted_reverse (l : list nat) : list nat :=
  fold_right insert_desc [] l.

Definition error_in_process : exn :=
  MultiprocessingError "An error occurred in one of the processes.".

Definition event_was_set : exn :=
  MultiprocessingError "While getting results terminate_process_event was set.".

(** The message also reports the two counts. *)
Definition lost_results : exn :=
  MultiprocessingError "While getting the multiprocessing results an error occurred.Lost one or more results.".

(** The [for i, res in enumerate(results)] loop of one iteration, from
    index [i]: the values appended to [return_results] and the indices
    appended to [res_to_remove]. *)
Fixpoint scan {V : Type} (p : poll) (i : nat) (results : list (AsyncResult V))
  : result (list V * list nat) :=
  match results with
  | [] => Ok ([], [])
  | res :: rest =>
      if negb (ready p (job res)) then scan p (S i) rest
      else
        match value res with
        | Raise _ => Raise error_in_process
        | Ok v =>
            vi <- scan p (S i) rest ;; Ok (v :: fst vi, i :: snd vi)
        end
  end.

Definition remove_indices {X : Type} (res_to_remove : list nat) (results : list X)
  : list X :=
  fold_left (fun l i => del_nth i l) (sorted_reverse res_to_remove) results.

Fixpoint wait_loop {V : Type} (trace : list poll) (start_time result_timeout : Q)
         (n_start_results : nat)
         (results : list (AsyncResult V)) (return_results : list V)
  : outcome (list V) :=
  match trace with
  | [] => Waiting
  | p :: trace' =>
      if event_is_set p then Raised event_was_set
      else if Qlt_bool result_timeout (now p - start_time) then
        Raised TimeoutError
      else
        match scan p 0 results with
        | Raise e => Raised e
        | Ok (got, res_to_remove) =>
            let return_results := return_results ++ got in
            let results := remove_indices res_to_remove results in
            if negb (List.length results + List.length return_results =? n_start_results)
            then Raised lost_results
            else if List.length return_results =? n_start_results
            then Returned return_results
            else wait_loop trace' start_time result_timeout n_start_results
                           results return_results
        end
  end.

Definition wait_for_pool_results {V : Type} (results : list (AsyncResult V))
           (w : world) (result_timeout : Q) : outcome (list V) :=
  wait_loop (polls w) (start_time w) result_timeout (List.length results) results [].

(** What one iteration does to the two lists, stated without indices: the
    results that are not ready stay, the positions of the ready ones are
    removed. *)
Definition pending {V : Type} (p : poll) (results : list (AsyncResult V))
  : list (AsyncResult V) :=
  filter (fun res => negb (ready p (job res))) results.

Definition arrived {V : Type} (p : poll) (results : list (AsyncResult V))
  : list (AsyncResult V) :=
  filter (fun res => ready p (job res)) results.

Fixpoint ready_positions {V : Type} (p : poll) (i : nat)
         (results : list (AsyncResult V)) : list nat :=
  match results with
  | [] => []
  | res :: rest =>
      if ready p (job res) then i :: ready_positions p (S i) rest
      else ready_positions p (S i) rest
  end.

(** An iteration that passes the two checks at its top: the event is not
    set and the timeout has not elapsed. *)
Definition quiet (start_time result_timeout : Q) (p : poll) : Prop :=
  event_is_set p = false /\ now p - start_time <= result_timeout.

(** At iteration [m] of the run every result is ready. *)
Definition all_ready_at (trace : list poll) (m : nat) : Prop :=
  exists p, nth_error trace m = Some p /\ forall j, ready p j = true.

(** The clock has advanced by at least the 0.05 s sleep at every iteration. *)
Definition clock_advances (start_time : Q) (trace : list poll) : Prop :=
  forall k p, nth_error trace k = Some p ->
              start_time + inject_Z (Z.of_nat (S k)) * (5 # 100) <= now p.

(** *** [_check_args_kwargs] *)

Section CheckArgsKwargs.

(** [A]: one full set of positional arguments; [K]: one keyword dict. *)
Variables A K : Type.

Definition _check_args_kwargs
           (args : option (list A)) (kwargs : option (list K))
           (args_default : A) (kwargs_default : K)
           (length : option Z) : result (list A * list K) :=
  match args, kwargs with
  | Some a, None =>
      Ok (a, map (fun _ => kwargs_default) (range (Z.of_nat (List.length a))))
  | None, Some k =>
      Ok (map (fun _ => args_default) (range (Z.of_nat (List.length k))), k)
  | None, None =>
      match length with
      | Some n =>
          Ok (map (fun _ => args_default) (range n),
              map (fun _ => kwargs_default) (range n))
      | None =>
          Raise (ValueError "Both args and kwargs are None and length has not been set. Don't know how to proceed!")
      end
  | Some a, Some k => Ok (a, k)
  end.

End CheckArgsKwargs.

(** *** The wrappers *)

(** [enumerate(l)] *)
Definition enumerate {X : Type} (l : list X) : list (nat * X) :=
  combine (seq 0 (List.length l)) l.

Fixpoint insert_by_index {X : Type} (x : nat * X) (l : list (nat * X))
  : list (nat * X) :=
  match l with
  | [] => [x]
  | y :: l' => if fst x <=? fst y then x :: l else y :: insert_by_index x l'
  end.

(** [sorted(results, key=lambda x: x[0])]: a stable sort on the index. *)
Definition sorted_by_index {X : Type} (l : list (nat * X)) : list (nat * X) :=
  fold_right insert_by_index [] l.

(** A keyword dict: its names and their values, in the order of the dict. *)
Definition kwargs_dict (KV : Type) : Type := list (string * KV).

(** [dict()], the default of [kwargs_default] in [_check_args_kwargs]. *)
Definition empty_kwargs {KV : Type} : kwargs_dict KV := [].

(** Whether a dict, unpacked as keywords in a call of [_call_order_wrapper],
    names one of the two parameters [index] and [func] that the call fills
    by position. *)
Definition names_wrapper_parameter {KV : Type} (kwargs : kwargs_dict KV) : bool :=
  existsb (fun kv => String.eqb (fst kv) "index" || String.eqb (fst kv) "func") kwargs.

(** [ProcessPool(processes=..., maxtasksperchild=...)]: the two checks of
    [multiprocessing.Pool] (CPython 3.11) on its arguments, in their order;
    a missing number of processes is the number of CPUs, or 1. *)
Definition ProcessPool (processes maxtasksperchild : option Z) : result PoolState :=
  if match processes with Some n => (n <? 1)%Z | None => false end
  then Raise (ValueError "Number of processes must be at least 1")
  else if match maxtasksperchild with Some m => (m <=? 0)%Z | None => false end
  then Raise (ValueError "maxtasksperchild must be a positive int or None")
  else Ok fresh_pool.

Section Wrappers.

(** [A]: a tuple of positional arguments, [KV]: the values of a keyword
    dict, [R]: what [fn] returns.  [fn] runs in a worker process on pickled
    arguments: a function of its arguments that returns or raises.
    [empty_args] is the default [list()] of [_check_args_kwargs].  Once the
    pool is created, its size and [maxtasksperchild] only shape the
    schedule, which is the oracle's. *)
Variables A KV R : Type.
Variable empty_args : A.

(** The call [_call_order_wrapper(index, func, *args, **kwargs)] a worker
    makes: a keyword named [index] or [func] gives the parameter a second
    value, which is a TypeError before the body runs. *)
Definition _call_order_wrapper (index : nat) (func : A -> kwargs_dict KV -> result R)
           (args : A) (kwargs : kwargs_dict KV) : result (nat * R) :=
  if names_wrapper_parameter kwargs then Raise TypeError
  else r <- func args kwargs ;; Ok (index, r).

(** The [except BaseException] branch of both sister functions:
    [kill_pool(process_callback=False)], then [sys.exit(1)]. *)
Definition clean_up_and_exit {V : Type} (st : PoolState) : outcome V :=
  match fst (kill_pool None false st) with
  | Raise e => Raised e
  | Ok _ => Raised (SystemExit 1)
  end.

(** The timeout handed to [wait_for_pool_results]:
    [result_timeout *= max(len(results), 1)]. *)
Definition batch_timeout (result_timeout : Q) (n_results : nat) : Q :=
  result_timeout * inject_Z (Z.of_nat (Nat.max n_results 1)).

Definition submit_in_order (fn : A -> kwargs_dict KV -> result R)
           (args : list A) (kwargs : list (kwargs_dict KV))
  : list (AsyncResult (nat * R)) :=
  map (fun iak => mkAsync (fst iak)
                          (_call_order_wrapper (fst iak) fn (fst (snd iak)) (snd (snd iak))))
      (enumerate (combine args kwargs)).

Definition submit_out_order (fn : A -> kwargs_dict KV -> result R)
           (args : list A) (kwargs : list (kwargs_dict KV)) : list (AsyncResult R) :=
  map (fun iak => mkAsync (fst iak) (fn (fst (snd iak)) (snd (snd iak))))
      (enumerate (combine args kwargs)).

Definition _process_pool_wrapper_kwargs_in_order
           (fn : A -> kwargs_dict KV -> result R)
           (args : option (list A)) (kwargs : option (list (kwargs_dict KV)))
           (process_count pool_maxtasksperchild : option Z)
           (result_timeout : Q) (w : world) : outcome (list R) :=
  match _check_args_kwargs args kwargs empty_args empty_kwargs None with
  | Raise e => Raised e
  | Ok (args, kwargs) =>
      match ProcessPool process_count pool_maxtasksperchild with
      | Raise e => Raised e
      | Ok pool =>
          let results := submit_in_order fn args kwargs in
          let result_timeout := batch_timeout result_timeout (List.length results) in
          match wait_for_pool_results results w result_timeout with
          | Waiting => Waiting
          | Raised _ => clean_up_and_exit pool
          | Returned results =>
              (* the sorted pairs are unzipped and unpacked into two names *)
              match sorted_by_index results with
              | [] => Raised (ValueError "not enough values to unpack (expected 2, got 0)")
              | sorted => Returned (map snd sorted)
              end
          end
      end
  end.

Definition _process_pool_wrapper_kwargs_out_order
           (fn : A -> kwargs_dict KV -> result R)
           (args : option (list A)) (kwargs : option (list (kwargs_dict KV)))
           (process_count pool_maxtasksperchild : option Z)
           (result_timeout : Q) (w : world) : outcome (list R) :=
  match _check_args_kwargs args kwargs empty_args empty_kwargs None with
  | Raise e => Raised e
  | Ok (args, kwargs) =>
      match ProcessPool process_count pool_maxtasksperchild with
      | Raise e => Raised e
      | Ok pool =>
          let results := submit_out_order fn args kwargs in
          let result_timeout := batch_timeout result_timeout (List.length results) in
          match wait_for_pool_results results w result_timeout with
          | Waiting => Waiting
          | Raised _ => clean_up_and_exit pool
          | Returned results => Returned results
          end
      end
  end.

Definition is_none {X : Type} (o : option X) : bool :=
  match o with None => true | Some _ => false end.

Definition process_pool_wrapper
           (fn : A -> kwargs_dict KV -> result R)
           (args : option (list A)) (kwargs : option (list (kwargs_dict KV)))
           (process_count pool_maxtasksperchild : option Z)
           (in_order : bool) (result_timeout : Q) (w : world)
  : outcome (list R) :=
  if is_none args && is_none kwargs then Raised AssertionError
  else if in_order
       then _process_pool_wrapper_kwargs_in_order
              fn args kwargs process_count pool_maxtasksperchild result_timeout w
       else _process_pool_wrapper_kwargs_out_order
              fn args kwargs process_count pool_maxtasksperchild result_timeout w.

End Wrappers.

(** *** An example batch *)

(** The keyword dicts of the example: none, [negate=True], and a dict with
    a keyword called [index]. *)
Definition no_keywords : kwargs_dict bool := [].

Definition negate : kwargs_dict bool := [("negate"%string, true)].

Definition index_keyword : kwargs_dict bool := [("index"%string, true)].

(** A function of one positional argument that accepts any keyword; the
    call on 4 raises, and [negate=True] changes the sign of the result. *)
Definition example_fn (a : Z) (k : kwargs_dict bool) : result Z :=
  if Z.eqb a 4 then Raise (ValueError "Throwing a test error!")
  else Ok (if existsb (fun kv => String.eqb (fst kv) "negate" && snd kv) k
           then (- a)%Z else a).

(** The third job is ready at the first iteration, the other two at the
    second; the clock starts at 0 and nobody sets the event. *)
Definition example_world : world :=
  mkWorld 0 [ mkPoll false (5 # 100) (fun j => j =? 2);
              mkPoll false (10 # 100) (fun _ => true) ].

(** The same run when a job has failed by the second iteration and the
    error callback has set the event. *)
Definition example_failed_world : world :=
  mkWorld 0 [ mkPoll false (5 # 100) (fun j => j =? 2);
              mkPoll true (10 # 100) (fun _ => true) ].

(** A run in which no job ever gets ready, observed for [n] iterations that
    are 0.05 s apart. *)
Definition stalled_world (n : nat) : world :=
  mkWorld 0 (map (fun k => mkPoll false (inject_Z (Z.of_nat (S k)) * (5 # 100))
                                  (fun _ => false))
                 (seq 0 n)).

(** A run in which every job is ready at the first iteration, 0.05 s after
    the start. *)
Definition prompt_world : world :=
  mkWorld 0 [mkPoll false (5 # 100) (fun _ => true)].

(** *** The order of arrival *)

(** The results in the order in which the waiting loop collects them over
    the iterations of [trace]: at each iteration the ready ones, in the order
    of the list, then those of the later iterations among the rest. *)
Fixpoint arrival_list {V : Type} (trace : list poll) (results : list (AsyncResult V))
  : list (AsyncResult V) :=
  match trace with
  | [] => []
  | p :: trace' => arrived p results ++ arrival_list trace' (pending p results)
  end.

(** The result of a job without the index [_call_order_wrapper] adds. *)
Definition untag {R : Type} (res : AsyncResult (nat * R)) : AsyncResult R :=
  mkAsync (job res)
          (match value res with
           | Ok ir => Ok (snd ir)
           | Raise e => Raise e
           end).

Definition outcome_map {X Y : Type} (f : X -> Y) (o : outcome X) : outcome Y :=
  match o with
  | Returned x => Returned (f x)
  | Raised e => Raised e
  | Waiting => Waiting
  end.

(** *** [FailCounter] *)

(** A [multiprocessing.Value('i', ...)]: a C [int], which ctypes stores
    without overflow checking, so a value wraps around to 32 bits. *)
Definition wrap_int (z : Z) : Z := ((z + 2 ^ 31) mod 2 ^ 32 - 2 ^ 31)%Z.

Record FailCounter : Type := mkFailCounter { fail_counter : Z }.

(** [FailCounter(i)] *)
Definition new_fail_counter (i : Z) : FailCounter := mkFailCounter (wrap_int i).

(** [increment(i)]: [self.fail_counter.value += i], under the lock. *)
Definition increment (i : Z) (c : FailCounter) : FailCounter :=
  mkFailCounter (wrap_int (fail_counter c + i)).

(** [value()] *)
Definition counter_value (c : FailCounter) : Z := fail_counter c.

End MultiprocessingWrapper.

(** ** normits_demand/matrices/utils.py *)

Module MatrixUtils.

(** *** pandas and numpy, as far as the masks need them *)

(** A zone label: an integer or a string. *)
Inductive pyval : Type :=
| PInt (z : Z)
| PStr (s : string).

Definition pyval_eqb (a b : pyval) : bool :=
  match a, b with
  | PInt x, PInt y => Z.eqb x y
  | PStr x, PStr y => String.eqb x y
  | _, _ => false
  end.

(** The dtype of an index; [str_] is the builtin [str] handed to [np.array]
    for an [object] index. *)
Inductive Dtype : Type := int64 | object | str_.

Record Index : Type := mkIndex { dtype : Dtype; labels : list pyval }.

(** A [pd.DataFrame]: only its two axes matter to a mask. *)
Record DataFrame : Type := mkFrame { index : Index; columns : Index }.

Definition df_shape (df : DataFrame) : nat * nat :=
  (List.length (labels (index df)), List.length (labels (columns df))).

(** A two-dimensional boolean [np.ndarray]. *)
Record ndarray : Type := mkArray { shape : nat * nat; rows : list (list bool) }.

Definition item (a : ndarray) (i j : nat) : bool :=
  nth j (nth i (rows a) []) false.

(** [np.broadcast_to(v, shape)] for a one-dimensional [v]: the trailing
    dimension has to equal [len(v)], unless [len(v)] is 1. *)
Definition broadcast_to (v : list bool) (shape : nat * nat) : result ndarray :=
  if List.length v =? snd shape then
    Ok (mkArray shape (repeat v (fst shape)))
  else if List.length v =? 1 then
    Ok (mkArray shape (repeat (repeat (hd false v) (snd shape)) (fst shape)))
  else
    Raise (ValueError "operands could not be broadcast together with remapped shapes").

(** [a.T] *)
Definition transpose (a : ndarray) : ndarray :=
  mkArray (snd (shape a), fst (shape a))
          (map (fun j => map (fun i => item a i j) (seq 0 (fst (shape a))))
               (seq 0 (snd (shape a)))).

Definition broadcast_dim (a b : nat) : option nat :=
  if a =? b then Some a
  else if a =? 1 then Some b
  else if b =? 1 then Some a
  else None.

(** The element of [a] that numpy pairs with position [(i, j)] of the
    broadcast result: an axis of length 1 is repeated. *)
Definition item_bc (a : ndarray) (i j : nat) : bool :=
  item a (if fst (shape a) =? 1 then 0 else i) (if snd (shape a) =? 1 then 0 else j).

(** An elementwise binary operator on two arrays, with numpy broadcasting. *)
Definition elementwise (f : bool -> bool -> bool) (a b : ndarray) : result ndarray :=
  match broadcast_dim (fst (shape a)) (fst (shape b)),
        broadcast_dim (snd (shape a)) (snd (shape b)) with
  | Some m, Some n =>
      Ok (mkArray (m, n)
                  (map (fun i => map (fun j => f (item_bc a i j) (item_bc b i j)) (seq 0 n))
                       (seq 0 m)))
  | _, _ => Raise (ValueError "operands could not be broadcast together with shapes")
  end.

(** [operator.and_] and [operator.or_] on masks *)
Definition and_ : ndarray -> ndarray -> result ndarray := elementwise andb.
Definition or_ : ndarray -> ndarray -> result ndarray := elementwise orb.

(** What a caller can pass where a zone list is expected: a list of labels,
    or (as the two mask helpers do) a function object. *)
Inductive pyobj : Type :=
| PyList (l : list pyval)
| PyCallable (f : ndarray -> ndarray -> result ndarray).

(** [index.isin(zones)] *)
Definition isin (labels zones : list pyval) : list bool :=
  map (fun x => existsb (pyval_eqb x) zones) labels.

(** What is passed as [df]: a DataFrame, or a two-dimensional [np.ndarray]
    of the given shape. *)
Inductive matrix : Type :=
| Frame (df : DataFrame)
| Array (shape : nat * nat).

Definition range_index (n : nat) : Index :=
  mkIndex int64 (map (fun i => PInt (Z.of_nat i)) (seq 0 n)).

(** The "Validate input args" block of [get_wide_mask]: the column zones
    and the index zones that are used. *)
Definition validate_zones (zones col_zones index_zones : option pyobj)
  : result (pyobj * pyobj) :=
  match zones with
  | None =>
      match col_zones, index_zones with
      | Some c, Some i => Ok (c, i)
      | _, _ =>
          Raise (ValueError "If zones is not set, both col_zones and row_zones need to be set.")
      end
  | Some z => Ok (z, z)
  end.

(** The dtype the column zones are cast to: columns of dtype [object] are
    assumed to be strings. *)
Definition col_dtype (df : DataFrame) : Dtype :=
  match dtype (columns df) with
  | object => str_
  | d => d
  end.

Section Masks.

(** [np.array(zones, dtype)]: numpy's conversion of the zones to the dtype
    of an axis; it returns the converted labels or raises. *)
Variable np_array : pyobj -> Dtype -> result (list pyval).

Definition get_wide_mask (df : DataFrame)
           (zones col_zones index_zones : option pyobj)
           (join_fn : ndarray -> ndarray -> result ndarray) : result ndarray :=
  cz_iz <- validate_zones zones col_zones index_zones ;;
  col_zones <-
    match np_array (fst cz_iz) (col_dtype df) with
    | Raise (ValueError _) =>
        Raise (ValueError "Cannot cast the col_zones to the required dtype to match the dtype of the given df columns.")
    | r => r
    end ;;
  index_zones <-
    match np_array (snd cz_iz) (dtype (index df)) with
    | Raise (ValueError _) =>
        Raise (ValueError "Cannot cast the index_zones to the required dtype to match the dtype of the given df index.")
    | r => r
    end ;;
  col_mask <- broadcast_to (isin (labels (columns df)) col_zones) (df_shape df) ;;
  index_mask <- broadcast_to (isin (labels (index df)) index_zones) (df_shape df) ;;
  join_fn col_mask (transpose index_mask).

Definition get_wide_mask_np (a_shape : nat * nat)
           (zones col_zones index_zones : option pyobj)
           (join_fn : ndarray -> ndarray -> result ndarray) : result ndarray :=
  get_wide_mask (mkFrame (range_index (fst a_shape)) (range_index (snd a_shape)))
                zones col_zones index_zones join_fn.

(** [fn(df, zones, operator.and_)]: the third positional parameter of both
    [get_wide_mask] and [get_wide_mask_np] is [col_zones]; [index_zones] and
    [join_fn] keep their defaults. *)
Definition get_internal_mask (df : matrix) (zones : option pyobj) : result ndarray :=
  match df with
  | Array sh => get_wide_mask_np sh zones (Some (PyCallable and_)) None and_
  | Frame d => get_wide_mask d zones (Some (PyCallable and_)) None and_
  end.

Definition get_external_mask (df : matrix) (zones : option pyobj) : result ndarray :=
  match df with
  | Array sh => get_wide_mask_np sh zones (Some (PyCallable or_)) None and_
  | Frame d => get_wide_mask d zones (Some (PyCallable or_)) None and_
  end.

End Masks.

(** A stand-in for [np.array] on the inputs of the examples below: a list
    of integers converted to [int64] is that list, as in numpy; every other
    conversion is refused. *)
Definition np_array_int (o : pyobj) (d : Dtype) : result (list pyval) :=
  match o, d with
  | PyList l, int64 =>
      if forallb (fun x => match x with PInt _ => true | PStr _ => false end) l
      then Ok l else Raise (ValueError "invalid literal for int()")
  | _, _ => Raise TypeError
  end.

(** Integer-labelled frames with the given numbers of rows and columns. *)
Definition int_frame (n_rows n_cols : nat) : DataFrame :=
  mkFrame (range_index n_rows) (range_index n_cols).

End MatrixUtils.

(** ** normits_demand/core: the demand-vector engine *)

Module DVectors.

(** Modelled from the spec: the error kinds of section 7, and the failure
    of a division that section 4.4 allows. *)
Inductive error : Type :=
| NotFoundError
| ValidationError
| IncompatibleZoningError
| IncompatibleSegmentationError
| DivisionError.

Inductive dres (X : Type) : Type :=
| Done (x : X)
| Fail (e : error).

Arguments Done {X} x.
Arguments Fail {X} e.

Definition dbind {X Y : Type} (r : dres X) (k : X -> dres Y) : dres Y :=
  match r with
  | Done x => k x
  | Fail e => Fail e
  end.

Fixpoint mapM {X Y : Type} (f : X -> dres Y) (l : list X) : dres (list Y) :=
  match l with
  | [] => Done []
  | x :: l' => dbind (f x) (fun y => dbind (mapM f l') (fun ys => Done (y :: ys)))
  end.

(** The sum of [f] over a list, in list order. *)
Definition Qsum {X : Type} (f : X -> Q) (l : list X) : Q :=
  fold_right (fun x acc => f x + acc) 0 l.

(** Modelled from the spec: ZoningSystem (normits_demand/core/zoning.py is
    not among the sources): a name and the ordered zone identifiers. *)
Record ZoningSystem : Type := mkZoning
  { zoning_name : string; zone_ids : list string }.

(** Modelled from the spec: SegmentationLevel (normits_demand/core/segments.py
    is not among the sources): a name, the ordered defining columns and the
    enumerated valid value-tuples over those columns. *)
Record SegmentationLevel : Type := mkSegmentation
  { segmentation_name : string;
    naming_order : list string;
    valid_segments : list (list Z) }.

(** Modelled from the spec: DemandVector
    (normits_demand/core/data_structures.py is not among the sources): the
    two references and a value store shaped [zones] x [segments]; values are
    exact rationals. *)
Record DVector : Type := mkDVector
  { zoning_system : ZoningSystem;
    segmentation : SegmentationLevel;
    values : list (list Q) }.

Definition n_zones (V : DVector) : nat := List.length (zone_ids (zoning_system V)).

Definition n_segments (V : DVector) : nat :=
  List.length (valid_segments (segmentation V)).

(** The value at zone position [z] and segment position [s]; a combination
    that is not stored is 0. *)
Definition cell (V : DVector) (z s : nat) : Q := nth s (nth z (values V) []) 0.

(** Modelled from the spec: [sum()], the total across all zones and
    segments (section 4.7). *)
Definition dv_sum (V : DVector) : Q :=
  Qsum (fun z => Qsum (fun s => cell V z s) (seq 0 (n_segments V)))
       (seq 0 (n_zones V)).

Definition segment_eqb (a b : list Z) : bool :=
  (List.length a =? List.length b) && forallb (fun xy => Z.eqb (fst xy) (snd xy)) (combine a b).

Fixpoint position {X : Type} (eqb : X -> X -> bool) (x : X) (l : list X) : nat :=
  match l with
  | [] => 0
  | y :: l' => if eqb x y then 0 else S (position eqb x l')
  end.

Definition member {X : Type} (eqb : X -> X -> bool) (x : X) (l : list X) : bool :=
  existsb (eqb x) l.

Fixpoint distinct {X : Type} (eqb : X -> X -> bool) (l : list X) : bool :=
  match l with
  | [] => true
  | x :: l' => negb (member eqb x l') && distinct eqb l'
  end.

(** Modelled from the spec: the invariant of a SegmentationLevel that the
    defining-columns tuple uniquely identifies a segment (section 3). *)
Definition unique_segments (S : SegmentationLevel) : bool :=
  distinct segment_eqb (valid_segments S).

(** Modelled from the spec: the invariant of a ZoningSystem that zone
    identifiers are unique (section 3). *)
Definition unique_zones (Z : ZoningSystem) : bool :=
  distinct String.eqb (zone_ids Z).

(** Modelled from the spec: [project] (section 4.2) maps a segment tuple of
    this level onto the defining columns of [other]. *)
Definition project (this : SegmentationLevel) (segment : list Z)
           (other : SegmentationLevel) : list Z :=
  map (fun c => nth (position String.eqb c (naming_order this)) segment 0%Z)
      (naming_order other).

(** Modelled from the spec: [can_aggregate_to] (section 4.2): the columns
    of [other] are a subset of this level's, and every valid tuple of [other]
    is the projection of a valid tuple of this level. *)
Definition can_aggregate_to (this other : SegmentationLevel) : bool :=
  forallb (fun c => member String.eqb c (naming_order this)) (naming_order other)
  && forallb (fun t => existsb (fun s => segment_eqb (project this s other) t)
                               (valid_segments this))
             (valid_segments other).

(** The converse, which section 4.2 does not ask for: every valid tuple of
    this level projects onto a valid tuple of [other]. *)
Definition projects_into (this other : SegmentationLevel) : bool :=
  forallb (fun s => member segment_eqb (project this s other) (valid_segments other))
          (valid_segments this).

(** The positions of the segments of [this] that project onto [t]. *)
Definition sources_of (this other : SegmentationLevel) (t : list Z) : list nat :=
  filter (fun s => segment_eqb (project this (nth s (valid_segments this) []) other) t)
         (seq 0 (List.length (valid_segments this))).

(** Modelled from the spec: [aggregate] (section 4.5): for each zone, the
    values of the source segments that project onto the same target segment
    are summed. *)
Definition aggregate (V : DVector) (target : SegmentationLevel) : dres DVector :=
  if can_aggregate_to (segmentation V) target then
    Done (mkDVector
            (zoning_system V) target
            (map (fun z =>
                    map (fun t => Qsum (fun s => cell V z s)
                                       (sources_of (segmentation V) target t))
                        (valid_segments target))
                 (seq 0 (n_zones V))))
  else Fail IncompatibleSegmentationError.

(** Modelled from the spec: one row of a translation table (section 2): a
    source zone, a target zone and the weight of their overlap. *)
Record Overlap : Type := mkOverlap
  { source_zone : string; target_zone : string; weight : Q }.

Definition TranslationTable : Type := list Overlap.

Inductive weighting : Type := weighted | no_weight.

(** What one unit of a source value contributes through an overlap:
    the weight, or, without weights, 1 on every overlap that is flagged. *)
Definition share (w : weighting) (o : Overlap) : Q :=
  match w with
  | weighted => weight o
  | no_weight => if Qeq_bool (weight o) 0 then 0 else 1
  end.

(** The overlaps of the table from the source zone [a] to the target zone [b]. *)
Definition overlaps (table : TranslationTable) (a b : string) : TranslationTable :=
  filter (fun o => String.eqb (source_zone o) a && String.eqb (target_zone o) b) table.

(** What the target zone [b] receives for the segment at position [s]: every
    source zone adds its value times its share through each overlap with [b]
    (value_target += value_source x weight). *)
Definition translated_cell (V : DVector) (table : TranslationTable) (w : weighting)
           (b : string) (s : nat) : Q :=
  Qsum (fun z =>
          Qsum (fun o => cell V z s * share w o)
               (overlaps table (nth z (zone_ids (zoning_system V)) EmptyString) b))
       (seq 0 (n_zones V)).

Section Translation.

(** Modelled from the spec: [translation(other)] (section 4.1), the lookup
    of the table between two zoning systems in the registry. *)
Variable translation : ZoningSystem -> ZoningSystem -> option TranslationTable.

(** Modelled from the spec: [translate_zoning] (section 4.6): every source
    zone adds its value times the weight to each target zone it overlaps. *)
Definition translate_zoning (V : DVector) (target : ZoningSystem) (w : weighting)
  : dres DVector :=
  match translation (zoning_system V) target with
  | None => Fail NotFoundError
  | Some table =>
      Done (mkDVector
              target (segmentation V)
              (map (fun b => map (fun s => translated_cell V table w b s)
                                 (seq 0 (n_segments V)))
                   (zone_ids target)))
  end.

End Translation.

(** Every row of the table joins a zone of [source] to a zone of [target]. *)
Definition table_between (table : TranslationTable) (source target : ZoningSystem) : bool :=
  forallb (fun o => member String.eqb (source_zone o) (zone_ids source)
                    && member String.eqb (target_zone o) (zone_ids target)) table.

(** The weights of each source zone sum to 1. *)
Definition weights_sum_to_one (table : TranslationTable) (source : ZoningSystem) : bool :=
  forallb (fun a => Qeq_bool (Qsum weight (filter (fun o => String.eqb (source_zone o) a) table)) 1)
          (zone_ids source).

Inductive operator : Type := add | sub | mul | truediv.

(** The finer of the segmentations of two operands, when one of them
    aggregates to the other. *)
Definition finer (A B : DVector) : option SegmentationLevel :=
  if can_aggregate_to (segmentation A) (segmentation B) then Some (segmentation A)
  else if can_aggregate_to (segmentation B) (segmentation A) then Some (segmentation B)
  else None.

(** Modelled from the spec: two vectors can be combined by a binary operator
    (section 4.4) when their zoning systems are equal, that is have the same
    name, and one segmentation aggregates to the other. *)
Definition compatible (A B : DVector) : bool :=
  String.eqb (zoning_name (zoning_system A)) (zoning_name (zoning_system B))
  && match finer A B with Some _ => true | None => false end.

Section Arithmetic.

(** Modelled from the spec: what a nonzero numerator over a zero denominator
    gives; section 9 leaves the policy open (an error or a documented value). *)
Variable nonzero_by_zero : Q -> dres Q.

(** Modelled from the spec: division of two cells (section 4.4): zero over
    zero is zero. *)
Definition cell_div (a b : Q) : dres Q :=
  if Qeq_bool b 0 then
    if Qeq_bool a 0 then Done 0 else nonzero_by_zero a
  else Done (a / b).

Definition apply_operator (op : operator) (a b : Q) : dres Q :=
  match op with
  | add => Done (a + b)
  | sub => Done (a - b)
  | mul => Done (a * b)
  | truediv => cell_div a b
  end.

(** The value of [V] at zone [z] for the segment at position [s] of the
    finer level [fine]: the cell of the segment it projects onto. *)
Definition broadcast_cell (V : DVector) (fine : SegmentationLevel) (z s : nat) : Q :=
  cell V z (position segment_eqb
                     (project fine (nth s (valid_segments fine) []) (segmentation V))
                     (valid_segments (segmentation V))).

(** The two operands of the cell [(z, s)] of the result. *)
Definition left_operand (A B : DVector) (z s : nat) : Q :=
  if can_aggregate_to (segmentation A) (segmentation B) then cell A z s
  else broadcast_cell A (segmentation B) z s.

Definition right_operand (A B : DVector) (z s : nat) : Q :=
  if can_aggregate_to (segmentation A) (segmentation B)
  then broadcast_cell B (segmentation A) z s
  else cell B z s.

(** Modelled from the spec: the binary operators between two vectors
    (section 4.4): same zoning, the result at the finer of the two
    segmentations, the coarser operand broadcast. *)
Definition combine (op : operator) (A B : DVector) : dres DVector :=
  if negb (String.eqb (zoning_name (zoning_system A)) (zoning_name (zoning_system B)))
  then Fail IncompatibleZoningError
  else
    match finer A B with
    | None => Fail IncompatibleSegmentationError
    | Some fine =>
        dbind
          (mapM (fun z =>
                   mapM (fun s => apply_operator op (left_operand A B z s) (right_operand A B z s))
                        (seq 0 (List.length (valid_segments fine))))
                (seq 0 (n_zones A)))
          (fun rows => Done (mkDVector (zoning_system A) fine rows))
    end.

End Arithmetic.

(** *** The scenarios of section 8 *)

(** Segments [{p:1,m:1}] and [{p:1,m:2}] with values 10 and 20 in one zone,
    and the segmentation [{p}] they aggregate to. *)
Definition seg_p_m : SegmentationLevel :=
  mkSegmentation "p_m" ["p"; "m"]%string [[1; 1]; [1; 2]]%Z.

Definition seg_p : SegmentationLevel := mkSegmentation "p" ["p"]%string [[1]]%Z.

Definition lad_one_zone : ZoningSystem := mkZoning "lad" ["E1"]%string.

(** Segments [{p:1,m:1}] and [{p:2,m:1}] with values 10 and 20: every valid
    tuple of [seg_p] is the projection of one of them, but [{p:2}] is not a
    valid tuple of [seg_p]. *)
Definition seg_p12_m : SegmentationLevel :=
  mkSegmentation "p12_m" ["p"; "m"]%string [[1; 1]; [2; 1]]%Z.

Definition dvec_p12_m : DVector := mkDVector lad_one_zone seg_p12_m [[10; 20]]%Q.

Definition dvec_p_m : DVector := mkDVector lad_one_zone seg_p_m [[10; 20]]%Q.

(** One zone "E1" with value 100 for [{p:1}], and a zoning that splits it
    into "E1a" (0.3) and "E1b" (0.7). *)
Definition dvec_e1 : DVector := mkDVector lad_one_zone seg_p [[100]]%Q.

Definition split_zoning : ZoningSystem := mkZoning "lad_split" ["E1a"; "E1b"]%string.

Definition split_table : TranslationTable :=
  [mkOverlap "E1" "E1a" (3 # 10); mkOverlap "E1" "E1b" (7 # 10)].

Definition split_registry (source target : ZoningSystem) : option TranslationTable :=
  if String.eqb (zoning_name source) "lad" && String.eqb (zoning_name target) "lad_split"
  then Some split_table else None.

(** Two vectors over one zone and the two segments of [seg_p_m] that are
    both zero at the first segment, and the policy that refuses a nonzero
    numerator over zero. *)
Definition dvec_numerator : DVector := mkDVector lad_one_zone seg_p_m [[0; 5]]%Q.

Definition dvec_denominator : DVector := mkDVector lad_one_zone seg_p_m [[0; 2]]%Q.

Definition refuse_nonzero_by_zero (a : Q) : dres Q := Fail DivisionError.

End DVectors.

(** ** run_helper_scripts/Apply_MND.py *)

Module ApplyMND.

Import MultiprocessingWrapper.

(** The segmentations and zoning systems the script fetches by name. *)
Inductive segmentation_constant : Type := M_TP_WEEK | HB_P_TP_WEEK | HB_P_M_TP_WEEK.

Inductive zoning_constant : Type := MSOA | LAD.

(** A Python number as [convergence] can be one: the annotation asks for an
    int, which has no bound, and nothing stops a float, which is a binary64
    of IEEE 754. *)
Inductive number : Type :=
| PyInt (z : Z)
| PyFloat (f : SpecFloat.spec_float).

(** [float(z)], rounded to the nearest binary64. *)
Definition float_of_int (z : Z) : SpecFloat.spec_float :=
  SpecFloat.binary_normalize 53 1024 z 0 false.

(** [n + 1]: exact on an int, rounded to the nearest binary64 on a float. *)
Definition add_one (n : number) : number :=
  match n with
  | PyInt z => PyInt (z + 1)
  | PyFloat f => PyFloat (SpecFloat.SFadd 53 1024 f (float_of_int 1))
  end.

(** How an int compares with a float: by their exact values; a NaN compares
    with nothing. *)
Definition compare_int_float (z : Z) (f : SpecFloat.spec_float) : option comparison :=
  match f with
  | SpecFloat.S754_nan => None
  | SpecFloat.S754_infinity s => Some (if s then Gt else Lt)
  | SpecFloat.S754_zero _ => Some (Z.compare z 0)
  | SpecFloat.S754_finite s m e =>
      let m' := if s then Z.neg m else Z.pos m in
      Some (if (0 <=? e)%Z then Z.compare z (m' * 2 ^ e)
            else Z.compare (z * 2 ^ (- e)) m')
  end.

(** [a > b] *)
Definition gt (a b : number) : bool :=
  match a, b with
  | PyInt x, PyInt y => (x >? y)%Z
  | PyFloat x, PyFloat y => SpecFloat.SFltb y x
  | PyInt x, PyFloat y =>
      match compare_int_float x y with Some Gt => true | _ => false end
  | PyFloat x, PyInt y =>
      match compare_int_float y x with Some Lt => true | _ => false end
  end.

(** A run of [loop] observed for a number of passes: it has returned, has
    raised, or is still iterating. *)
Inductive run (X : Type) : Type :=
| Finished (x : X)
| Failed (e : exn)
| Iterating.

Arguments Finished {X} x.
Arguments Failed {X} e.
Arguments Iterating {X}.

Section Loop.

(** The vectors and their methods come from normits_demand.core, which is
    not among the sources: [aggregate], [translate_zoning] (the keyword
    [weighting] given or left out), the operators [/], [*] and [-], [abs]
    and [sum] are taken as they are, each returning or raising.  So is what
    [sum] returns, a [Change], and its comparison [i > convergence] with the
    caller's number. *)
Variable DVec : Type.
Variable Change : Type.
Variable aggregate : DVec -> segmentation_constant -> result DVec.
Variable translate_zoning : DVec -> zoning_constant -> option string -> result DVec.
Variables truediv mul sub : DVec -> DVec -> result DVec.
Variable dabs : DVec -> result DVec.
Variable dsum : DVec -> result Change.
Variable exceeds : Change -> number -> bool.

Variables dft_base mnd_base dft_vec mnd_vec : DVec.

(** The body of the while loop: the vector after the pass, and the new
    value of [i]. *)
Definition one_pass (dvec : DVec) : result (DVec * Change) :=
  dvec_agg <- aggregate dvec M_TP_WEEK ;;
  mnd_res <- truediv dvec_agg dft_base ;;
  adj_dft <- truediv dft_vec mnd_res ;;
  final_dft <- mul dvec adj_dft ;;
  final_agg <- aggregate final_dft HB_P_TP_WEEK ;;
  final_lad <- translate_zoning final_agg LAD None ;;
  base_lad <- translate_zoning mnd_base LAD None ;;
  dft_res <- truediv final_lad base_lad ;;
  mnd_ratio <- truediv mnd_vec dft_res ;;
  adj_mnd <- translate_zoning mnd_ratio MSOA (Some "no_weight"%string) ;;
  dvec_ss <- aggregate dvec M_TP_WEEK ;;
  dvec' <- mul final_dft adj_mnd ;;
  new_agg <- aggregate dvec' M_TP_WEEK ;;
  diff <- sub new_agg dvec_ss ;;
  absolute <- dabs diff ;;
  i <- dsum absolute ;;
  Ok (dvec', i).

(** [while i > convergence], observed for at most [fuel] passes; [test] is
    what [i > convergence] gives for the current [i]. *)
Fixpoint while_loop (fuel : nat) (convergence : number) (test : bool) (dvec : DVec)
  : run DVec :=
  if test then
    match fuel with
    | O => Iterating
    | S fuel' =>
        match one_pass dvec with
        | Raise e => Failed e
        | Ok (dvec', i') =>
            while_loop fuel' convergence (exceeds i' convergence) dvec'
        end
    end
  else Finished dvec.

(** The outcome of the pass number [k] (from 0) when the passes before it
    went through. *)
Fixpoint nth_pass (k : nat) (dvec : DVec) : result (DVec * Change) :=
  match k with
  | O => one_pass dvec
  | S k' =>
      match one_pass dvec with
      | Raise e => Raise e
      | Ok (dvec', _) => nth_pass k' dvec'
      end
  end.

End Loop.

Section LoopEntry.

Variable DVec : Type.
Variable Change : Type.
Variable aggregate : DVec -> segmentation_constant -> result DVec.
Variable translate_zoning : DVec -> zoning_constant -> option string -> result DVec.
Variables truediv mul sub : DVec -> DVec -> result DVec.
Variable dabs : DVec -> result DVec.
Variable dsum : DVec -> result Change.
Variable exceeds : Change -> number -> bool.

(** [loop(factored, base, convergence, dft_vec, mnd_vec)]: the loop is entered
    with [i = convergence + 1]. *)
Definition loop (factored base : DVec) (convergence : number) (dft_vec mnd_vec : DVec)
           (fuel : nat) : run DVec :=
  match aggregate base M_TP_WEEK with
  | Raise e => Failed e
  | Ok dft_base =>
      match aggregate base HB_P_TP_WEEK with
      | Raise e => Failed e
      | Ok mnd_base =>
          while_loop aggregate translate_zoning truediv mul sub dabs dsum exceeds
                     dft_base mnd_base dft_vec mnd_vec
                     fuel convergence (gt (add_one convergence) convergence) factored
      end
  end.

End LoopEntry.

(** An instance to run [loop] on: a vector is one rational number, and so
    is a change; aggregation and translation leave it as it is, a division by
    zero raises, and a change is compared with an int by value. *)
Definition number_div (a b : Q) : result Q :=
  if Qeq_bool b 0 then Raise (UserError "division by zero") else Ok (a / b).

Definition number_exceeds (i : Q) (convergence : number) : bool :=
  match convergence with
  | PyInt z => Qlt_bool (inject_Z z) i
  | PyFloat f =>
      match f with
      | SpecFloat.S754_finite s m e =>
          Qlt_bool (inject_Z (if s then Z.neg m else Z.pos m) * (2 # 1) ^ e) i
      | SpecFloat.S754_zero _ => Qlt_bool 0 i
      | SpecFloat.S754_infinity s => s
      | SpecFloat.S754_nan => false
      end
  end.

Definition number_loop (factored base : Q) (convergence : number) (dft_vec mnd_vec : Q)
           (fuel : nat) : run Q :=
  loop (fun v _ => Ok v) (fun v _ _ => Ok v)
       number_div (fun a b => Ok (a * b)) (fun a b => Ok (a - b))
       (fun a => Ok (Qabs a)) (fun a => Ok a) number_exceeds
       factored base convergence dft_vec mnd_vec fuel.

End ApplyMND.

(** * Facts about lists used throughout *)

Module ListFacts.

Lemma nth_repeat_lt (X : Type) (x d : X) (n i : nat) :
  (i < n)%nat -> nth i (repeat x n) d = x.
Proof.
  revert i. induction n as [|n IH]; intros [|i] H; simpl; try lia; [reflexivity|].
  apply IH. lia.
Qed.

Lemma nth_map_seq (X : Type) (f : nat -> X) (d : X) (n i : nat) :
  (i < n)%nat -> nth i (map f (seq 0 n)) d = f i.
Proof.
  intros H.
  rewrite (nth_indep _ d (f 0%nat)) by (now rewrite length_map, length_seq).
  rewrite (map_nth f (seq 0 n) 0%nat i), seq_nth by exact H. reflexivity.
Qed.

End ListFacts.

(** * Properties of the pool wrapper *)

Module PoolFacts.

Import MultiprocessingWrapper.

Lemma map_const_range (B : Type) (b : B) (n : Z) :
  map (fun _ => b) (range n) = repeat b (Z.to_nat n).
Proof.
  unfold range. generalize 0%nat.
  induction (Z.to_nat n) as [|m IH]; intros s; simpl; [reflexivity|].
  now rewrite IH.
Qed.

(** C10. [_check_args_kwargs] raises (a ValueError) exactly when [args],
    [kwargs] and [length] are all None.  Otherwise it returns a pair of lists
    of equal length: a missing list is the default repeated to the length of
    the other one, both are the defaults repeated [length] times when both
    are missing, and both are returned as they are when both are given
    (their lengths being equal is the caller's assumption). *)
Theorem check_args_kwargs_cases
        (A K : Type) (args : option (list A)) (kwargs : option (list K))
        (args_default : A) (kwargs_default : K) (length : option Z) :
  (forall a k, args = Some a -> kwargs = Some k -> List.length a = List.length k) ->
  ((exists e, _check_args_kwargs args kwargs args_default kwargs_default length = Raise e)
   <-> (args = None /\ kwargs = None /\ length = None))
  /\ (forall e, _check_args_kwargs args kwargs args_default kwargs_default length = Raise e ->
                exists msg, e = ValueError msg)
  /\ (forall r, _check_args_kwargs args kwargs args_default kwargs_default length = Ok r ->
                List.length (fst r) = List.length (snd r)
                /\ match args, kwargs with
                   | Some a, Some k => r = (a, k)
                   | Some a, None => r = (a, repeat kwargs_default (List.length a))
                   | None, Some k => r = (repeat args_default (List.length k), k)
                   | None, None =>
                       exists n, length = Some n
                                 /\ r = (repeat args_default (Z.to_nat n),
                                         repeat kwargs_default (Z.to_nat n))
                   end).
Proof.
  intros Hlen. unfold _check_args_kwargs.
  destruct args as [a|], kwargs as [k|]; [| | |destruct length as [n|]];
    rewrite ?map_const_range, ?Nat2Z.id.
  - split; [|split].
    + split; [intros [e He]; discriminate | intros [H _]; discriminate].
    + intros e He; discriminate.
    + intros r Hr. injection Hr as <-. simpl. split; [now apply Hlen | reflexivity].
  - split; [|split].
    + split; [intros [e He]; discriminate | intros [H _]; discriminate].
    + intros e He; discriminate.
    + intros r Hr. injection Hr as <-. simpl.
      split; [now rewrite repeat_length | reflexivity].
  - split; [|split].
    + split; [intros [e He]; discriminate | intros [_ [H _]]; discriminate].
    + intros e He; discriminate.
    + intros r Hr. injection Hr as <-. simpl.
      split; [now rewrite repeat_length | reflexivity].
  - split; [|split].
    + split; [intros [e He]; discriminate | intros [_ [_ H]]; discriminate].
    + intros e He; discriminate.
    + intros r Hr. injection Hr as <-. simpl.
      split; [now rewrite !repeat_length | exists n; split; reflexivity].
  - split; [|split].
    + split; [intros _; repeat split | intros _; eexists; reflexivity].
    + intros e He. injection He as <-. eexists; reflexivity.
    + intros r Hr; discriminate.
Qed.

Lemma check_args_kwargs_cases_witness :
  exists r,
    _check_args_kwargs (Some [1%nat; 2%nat]) (Some [true; false]) 0%nat false None = Ok r
    /\ List.length (fst r) = List.length (snd r)
    /\ r = ([1%nat; 2%nat], [true; false]).
Proof.
  destruct (@check_args_kwargs_cases nat bool (Some [1%nat; 2%nat]) (Some [true; false])
                                     0%nat false None) as [_ [_ H]].
  - intros a k Ha Hk. injection Ha as <-. injection Hk as <-. reflexivity.
  - exists ([1%nat; 2%nat], [true; false]).
    destruct (H ([1%nat; 2%nat], [true; false]) eq_refl) as [Hl Hr].
    split; [reflexivity | split; [exact Hl | exact Hr]].
Defined.

(** *** One iteration of the waiting loop *)

Lemma Qlt_bool_iff (a b : Q) : Qlt_bool a b = true <-> a < b.
Proof.
  unfold Qlt_bool. rewrite negb_true_iff.
  split.
  - intros H. apply Qnot_le_lt. intros Hle.
    apply Qle_bool_iff in Hle. congruence.
  - intros H. destruct (Qle_bool b a) eqn:E; [|reflexivity].
    apply Qle_bool_iff in E. exfalso. apply (Qlt_not_le _ _ H E).
Qed.

Section Scan.

Variable V : Type.
Variable p : poll.

Lemma scan_ok (results : list (AsyncResult V)) :
  forall i got idx,
    scan p i results = Ok (got, idx) ->
    map Ok got = map (@value V) (arrived p results)
    /\ idx = ready_positions p i results.
Proof.
  unfold arrived.
  induction results as [|res rest IH]; intros i got idx H; simpl in *.
  - injection H as <- <-. split; reflexivity.
  - destruct (ready p (job res)); simpl in *.
    + destruct (value res) as [v|e] eqn:Ev; [|discriminate].
      destruct (scan p (S i) rest) as [[vs is_]|e] eqn:Es; simpl in H; [|discriminate].
      injection H as <- <-.
      destruct (IH _ _ _ Es) as [Hv Hi]. simpl.
      rewrite Hv, Hi. split; reflexivity.
    + apply IH. exact H.
Qed.

Lemma scan_raise (results : list (AsyncResult V)) :
  forall i e,
    scan p i results = Raise e ->
    e = error_in_process
    /\ exists res, In res results /\ ready p (job res) = true /\ successful res = false.
Proof.
  induction results as [|res rest IH]; intros i e H; simpl in *; [discriminate|].
  destruct (ready p (job res)) eqn:Er; simpl in *.
  - destruct (value res) as [v|e'] eqn:Ev.
    + destruct (scan p (S i) rest) as [[vs is_]|e''] eqn:Es; simpl in H; [discriminate|].
      injection H as <-.
      destruct (IH _ _ Es) as [He [r [Hin Hr]]].
      split; [exact He|]. exists r. split; [now right | exact Hr].
    + injection H as <-. split; [reflexivity|].
      exists res. split; [now left|]. split; [exact Er|].
      unfold successful. now rewrite Ev.
  - destruct (IH _ _ H) as [He [r [Hin Hr]]].
    split; [exact He|]. exists r. split; [now right | exact Hr].
Qed.

Lemma scan_sees_failure (results : list (AsyncResult V)) :
  forall i res,
    In res results -> ready p (job res) = true -> successful res = false ->
    scan p i results = Raise error_in_process.
Proof.
  intros i res Hin Hr Hs.
  destruct (scan p i results) as [[got idx]|e] eqn:E.
  - exfalso. apply scan_ok in E. destruct E as [Hv _].
    assert (Hin' : In (value res) (map (@value V) (arrived p results))).
    { apply in_map. unfold arrived. apply filter_In. split; assumption. }
    rewrite <- Hv in Hin'. apply in_map_iff in Hin'.
    destruct Hin' as [v [Hv' _]].
    unfold successful in Hs. rewrite <- Hv' in Hs. discriminate.
  - apply scan_raise in E. destruct E as [-> _]. reflexivity.
Qed.

Lemma ready_positions_lower (results : list (AsyncResult V)) :
  forall i j, In j (ready_positions p i results) -> (i <= j)%nat.
Proof.
  induction results as [|res rest IH]; intros i j H; simpl in *; [contradiction|].
  destruct (ready p (job res)).
  - destruct H as [<-|H]; [lia|]. apply IH in H. lia.
  - apply IH in H. lia.
Qed.

Lemma insert_desc_last (i : nat) (l : list nat) :
  (forall j, In j l -> (i < j)%nat) -> insert_desc i l = l ++ [i].
Proof.
  induction l as [|j l IH]; intros H; simpl; [reflexivity|].
  assert (Hj : (i < j)%nat) by (apply H; now left).
  destruct (j <=? i) eqn:E; [apply Nat.leb_le in E; lia|].
  rewrite IH; [reflexivity|]. intros k Hk. apply H. now right.
Qed.

Lemma sorted_reverse_ready_positions (results : list (AsyncResult V)) :
  forall i, sorted_reverse (ready_positions p i results) = rev (ready_positions p i results).
Proof.
  unfold sorted_reverse.
  induction results as [|res rest IH]; intros i; simpl; [reflexivity|].
  destruct (ready p (job res)); [|apply IH].
  simpl. rewrite IH. apply insert_desc_last.
  intros j Hj. apply in_rev in Hj. apply ready_positions_lower in Hj. lia.
Qed.

Lemma del_nth_middle (X : Type) (pre post : list X) (x : X) :
  del_nth (List.length pre) (pre ++ x :: post) = pre ++ post.
Proof.
  unfold del_nth.
  rewrite firstn_app, Nat.sub_diag, firstn_all. simpl. rewrite app_nil_r.
  f_equal.
  induction pre as [|y pre IH]; simpl; [reflexivity | exact IH].
Qed.

Lemma remove_ready_positions (results : list (AsyncResult V)) :
  forall pre,
    fold_right (fun i l => del_nth i l) (pre ++ results)
               (ready_positions p (List.length pre) results)
    = pre ++ pending p results.
Proof.
  induction results as [|res rest IH]; intros pre; simpl; [reflexivity|].
  specialize (IH (pre ++ [res])).
  rewrite length_app in IH. simpl in IH. rewrite Nat.add_1_r in IH.
  rewrite <- !app_assoc in IH. simpl in IH.
  destruct (ready p (job res)); simpl.
  - rewrite IH. apply del_nth_middle.
  - exact IH.
Qed.

Lemma remove_indices_pending (results : list (AsyncResult V)) :
  remove_indices (ready_positions p 0 results) results = pending p results.
Proof.
  unfold remove_indices. rewrite sorted_reverse_ready_positions.
  rewrite <- fold_left_rev_right, rev_involutive.
  exact (remove_ready_positions results []).
Qed.

Lemma arrived_pending_perm (results : list (AsyncResult V)) :
  Permutation results (arrived p results ++ pending p results).
Proof.
  unfold arrived, pending.
  induction results as [|res rest IH]; simpl; [constructor|].
  destruct (ready p (job res)); simpl.
  - now constructor.
  - apply Permutation_cons_app. exact IH.
Qed.

Lemma arrived_pending_length (results : list (AsyncResult V)) :
  List.length results
  = (List.length (arrived p results) + List.length (pending p results))%nat.
Proof.
  rewrite <- length_app. apply Permutation_length, arrived_pending_perm.
Qed.

End Scan.

(** *** The waiting loop *)

Section WaitLoop.

Variable V : Type.
Variables start result_timeout : Q.
Variable n_start : nat.

(** The sanity check of the loop is an invariant: no result is ever lost. *)
Lemma iteration_keeps_count (p : poll) (results : list (AsyncResult V))
      (return_results got : list V) :
  (List.length results + List.length return_results = n_start)%nat ->
  map Ok got = map (@value V) (arrived p results) ->
  (List.length (pending p results) + List.length (return_results ++ got) = n_start)%nat.
Proof.
  intros Hn Hgot.
  assert (Hl : List.length got = List.length (arrived p results)).
  { rewrite <- (length_map Ok got), Hgot. apply length_map. }
  rewrite length_app, Hl.
  rewrite (arrived_pending_length p results) in Hn. lia.
Qed.

(** A list is returned only when every result has arrived and was
    successful: the list holds exactly the values of the submitted jobs. *)
Lemma wait_loop_returned (trace : list poll) :
  forall (results : list (AsyncResult V)) (return_results l : list V),
    (List.length results + List.length return_results = n_start)%nat ->
    wait_loop trace start result_timeout n_start results return_results = Returned l ->
    Permutation (map Ok l) (map Ok return_results ++ map (@value V) results).
Proof.
  induction trace as [|p trace IH]; intros results rr l Hn H; simpl in H; [discriminate|].
  destruct (event_is_set p); [discriminate|].
  destruct (Qlt_bool result_timeout (now p - start)); [discriminate|].
  destruct (scan p 0 results) as [[got idx]|e] eqn:Es; [|discriminate].
  destruct (@scan_ok _ _ _ _ _ _ Es) as [Hgot ->].
  rewrite remove_indices_pending in H.
  pose proof (iteration_keeps_count p results rr got Hn Hgot) as Hn'.
  assert (Hperm : Permutation (map Ok (rr ++ got) ++ map (@value V) (pending p results))
                              (map Ok rr ++ map (@value V) results)).
  { rewrite map_app, <- app_assoc, Hgot, <- map_app.
    apply Permutation_app_head, Permutation_map, Permutation_sym, arrived_pending_perm. }
  destruct (negb (List.length (pending p results) + List.length (rr ++ got) =? n_start));
    [discriminate|].
  destruct (List.length (rr ++ got) =? n_start) eqn:Edone.
  - injection H as <-. apply Nat.eqb_eq in Edone.
    assert (Hp : pending p results = []).
    { apply length_zero_iff_nil. lia. }
    rewrite Hp in Hperm. simpl in Hperm. rewrite app_nil_r in Hperm. exact Hperm.
  - eapply Permutation_trans; [apply (IH _ _ _ Hn' H) | exact Hperm].
Qed.

(** While the loop is still waiting, no iteration saw the event set or the
    timeout exceeded. *)
Lemma wait_loop_waiting (trace : list poll) :
  forall (results : list (AsyncResult V)) (return_results : list V),
    wait_loop trace start result_timeout n_start results return_results = Waiting ->
    Forall (fun p => event_is_set p = false /\ now p - start <= result_timeout) trace.
Proof.
  induction trace as [|p trace IH]; intros results rr H; simpl in H; [constructor|].
  destruct (event_is_set p) eqn:Ee; [discriminate|].
  destruct (Qlt_bool result_timeout (now p - start)) eqn:Et; [discriminate|].
  constructor.
  - split; [exact Ee|].
    apply Qnot_lt_le. intros Hlt. apply Qlt_bool_iff in Hlt. congruence.
  - destruct (scan p 0 results) as [[got idx]|e]; [|discriminate].
    destruct (negb _); [discriminate|].
    destruct (_ =? n_start); [discriminate|].
    eapply IH. exact H.
Qed.

(** Seeing the event set ends the wait at once. *)
Lemma wait_loop_event (p : poll) (trace : list poll)
      (results : list (AsyncResult V)) (return_results : list V) :
  event_is_set p = true ->
  wait_loop (p :: trace) start result_timeout n_start results return_results
  = Raised event_was_set.
Proof. intros H. simpl. now rewrite H. Qed.

Lemma wait_loop_timeout (p : poll) (trace : list poll)
      (results : list (AsyncResult V)) (return_results : list V) :
  event_is_set p = false ->
  result_timeout < now p - start ->
  wait_loop (p :: trace) start result_timeout n_start results return_results
  = Raised TimeoutError.
Proof.
  intros He Ht. simpl. rewrite He.
  apply Qlt_bool_iff in Ht. now rewrite Ht.
Qed.

Lemma wait_loop_failure (p : poll) (trace : list poll)
      (results : list (AsyncResult V)) (return_results : list V) (res : AsyncResult V) :
  event_is_set p = false ->
  now p - start <= result_timeout ->
  In res results -> ready p (job res) = true -> successful res = false ->
  wait_loop (p :: trace) start result_timeout n_start results return_results
  = Raised error_in_process.
Proof.
  intros He Ht Hin Hr Hs. simpl. rewrite He.
  destruct (Qlt_bool result_timeout (now p - start)) eqn:E.
  - apply Qlt_bool_iff in E. exfalso. apply (Qlt_not_le _ _ E Ht).
  - now rewrite (@scan_sees_failure _ p results 0 res Hin Hr Hs).
Qed.

(** When every result is ready and successful at an iteration that is
    reached in time, the values are returned in the order of [results]. *)
Lemma wait_loop_all_ready (p : poll) (trace : list poll)
      (results : list (AsyncResult V)) (vals : list V) :
  event_is_set p = false ->
  now p - start <= result_timeout ->
  (forall res, In res results -> ready p (job res) = true) ->
  map (@value V) results = map Ok vals ->
  List.length results = n_start ->
  wait_loop (p :: trace) start result_timeout n_start results [] = Returned vals.
Proof.
  intros He Ht Hr Hv Hn. simpl. rewrite He.
  destruct (Qlt_bool result_timeout (now p - start)) eqn:E.
  { apply Qlt_bool_iff in E. exfalso. apply (Qlt_not_le _ _ E Ht). }
  assert (Harr : arrived p results = results).
  { unfold arrived. apply forallb_filter_id, forallb_forall. exact Hr. }
  assert (Hpen : pending p results = []).
  { apply length_zero_iff_nil.
    pose proof (arrived_pending_length p results) as Hl. rewrite Harr in Hl. lia. }
  destruct (scan p 0 results) as [[got idx]|e] eqn:Es.
  - destruct (@scan_ok _ _ _ _ _ _ Es) as [Hgot ->].
    rewrite remove_indices_pending, Hpen. simpl.
    rewrite Harr, Hv in Hgot.
    assert (Hg : got = vals).
    { revert Hgot. clear. revert vals.
      induction got as [|g got IH]; intros [|v vals] H; simpl in H;
        try discriminate; [reflexivity|].
      injection H as -> H. f_equal. now apply IH. }
    subst got.
    assert (Hl : List.length vals = n_start).
    { rewrite <- Hn, <- (length_map Ok vals), <- Hv. apply length_map. }
    rewrite Hl, Nat.eqb_refl. reflexivity.
  - apply scan_raise in Es. destruct Es as [_ [res [Hin [_ Hs]]]].
    exfalso. unfold successful in Hs.
    assert (Hin' : In (value res) (map Ok vals)) by (rewrite <- Hv; now apply in_map).
    apply in_map_iff in Hin'. destruct Hin' as [v [Hv' _]].
    rewrite <- Hv' in Hs. discriminate.
Qed.

Lemma scan_total (p : poll) (results : list (AsyncResult V)) (i : nat) :
  (forall res, In res results -> successful res = true) ->
  exists got, scan p i results = Ok (got, ready_positions p i results)
              /\ map Ok got = map (@value V) (arrived p results).
Proof.
  intros Hs.
  destruct (scan p i results) as [[got idx]|e] eqn:Es.
  - destruct (scan_ok _ _ _ Es) as [Hgot ->]. now exists got.
  - apply scan_raise in Es. destruct Es as [_ [res [Hin [_ Hf]]]].
    rewrite (Hs res Hin) in Hf. discriminate.
Qed.

(** An iteration that passes the two checks, on jobs that all succeed. *)
Lemma wait_loop_quiet_step (p : poll) (trace : list poll)
      (results : list (AsyncResult V)) (return_results : list V) :
  (List.length results + List.length return_results = n_start)%nat ->
  (forall res, In res results -> successful res = true) ->
  quiet start result_timeout p ->
  exists got,
    (List.length (pending p results) + List.length (return_results ++ got) = n_start)%nat
    /\ wait_loop (p :: trace) start result_timeout n_start results return_results
       = if List.length (return_results ++ got) =? n_start
         then Returned (return_results ++ got)
         else wait_loop trace start result_timeout n_start
                        (pending p results) (return_results ++ got).
Proof.
  intros Hn Hs [He Ht]. simpl. rewrite He.
  destruct (Qlt_bool result_timeout (now p - start)) eqn:E.
  { apply Qlt_bool_iff in E. exfalso. apply (Qlt_not_le _ _ E Ht). }
  destruct (@scan_total p results 0 Hs) as [got [Hscan Hgot]].
  rewrite Hscan, remove_indices_pending.
  pose proof (iteration_keeps_count p results return_results got Hn Hgot) as Hn'.
  exists got. split; [exact Hn'|].
  now rewrite Hn', Nat.eqb_refl.
Qed.

Lemma pending_none (p : poll) (results : list (AsyncResult V)) :
  (forall j, ready p j = true) -> pending p results = [].
Proof.
  intros Hr. unfold pending.
  induction results as [|r rs IH]; simpl; [reflexivity|]. now rewrite Hr.
Qed.

(** If every job succeeds, the first [m + 1] iterations pass the two checks
    and every result is ready at iteration [m], the loop returns. *)
Lemma wait_loop_returns (m : nat) :
  forall (trace : list poll) (results : list (AsyncResult V)) (return_results : list V),
    (List.length results + List.length return_results = n_start)%nat ->
    (forall res, In res results -> successful res = true) ->
    Forall (quiet start result_timeout) (firstn (S m) trace) ->
    all_ready_at trace m ->
    exists l, wait_loop trace start result_timeout n_start results return_results
              = Returned l.
Proof.
  induction m as [|m IH]; intros trace results rr Hn Hs Hq [pm [Hpm Hready]].
  - destruct trace as [|p trace]; [discriminate|].
    simpl in Hpm. injection Hpm as <-.
    simpl in Hq. apply Forall_cons_iff in Hq. destruct Hq as [Hp _].
    destruct (@wait_loop_quiet_step p trace results rr Hn Hs Hp) as [got [Hn' ->]].
    rewrite (@pending_none p results Hready) in Hn'. simpl in Hn'.
    rewrite Hn', Nat.eqb_refl. eexists. reflexivity.
  - destruct trace as [|p trace]; [discriminate|].
    simpl in Hpm.
    change (firstn (S (S m)) (p :: trace)) with (p :: firstn (S m) trace) in Hq.
    apply Forall_cons_iff in Hq. destruct Hq as [Hp Hq].
    destruct (@wait_loop_quiet_step p trace results rr Hn Hs Hp) as [got [Hn' ->]].
    destruct (List.length (rr ++ got) =? n_start); [eexists; reflexivity|].
    apply IH.
    + exact Hn'.
    + intros res Hin. apply Hs. unfold pending in Hin.
      apply filter_In in Hin. tauto.
    + exact Hq.
    + exists pm. split; [exact Hpm | exact Hready].
Qed.

Lemma pending_keeps (p : poll) (results : list (AsyncResult V)) (res : AsyncResult V) :
  In res results -> ready p (job res) = false -> In res (pending p results).
Proof.
  intros Hin Hr. unfold pending. apply filter_In. split; [exact Hin|].
  now rewrite Hr.
Qed.

Lemma not_done_while_pending (results : list (AsyncResult V))
      (return_results : list V) (res : AsyncResult V) :
  (List.length results + List.length return_results = n_start)%nat ->
  In res results ->
  (List.length return_results =? n_start) = false.
Proof.
  intros Hn Hin. apply Nat.eqb_neq.
  destruct results; [contradiction | simpl in Hn; lia].
Qed.

(** If no result is lost to a failure, one result is not ready during the
    first [m] iterations, which pass the two checks, and iteration [m] finds
    the event not set and the timeout elapsed, the wait raises TimeoutError. *)
Lemma wait_loop_times_out (m : nat) :
  forall (trace : list poll) (results : list (AsyncResult V)) (return_results : list V)
         (res : AsyncResult V) (pm : poll),
    (List.length results + List.length return_results = n_start)%nat ->
    (forall r, In r results -> successful r = true) ->
    In res results ->
    Forall (fun p => quiet start result_timeout p /\ ready p (job res) = false)
           (firstn m trace) ->
    nth_error trace m = Some pm ->
    event_is_set pm = false ->
    result_timeout < now pm - start ->
    wait_loop trace start result_timeout n_start results return_results
    = Raised TimeoutError.
Proof.
  induction m as [|m IH]; intros trace results rr res pm Hn Hs Hin Hq Hpm He Ht;
    (destruct trace as [|p trace]; [discriminate|]); simpl in Hpm.
  - injection Hpm as <-. now apply wait_loop_timeout.
  - simpl in Hq. apply Forall_cons_iff in Hq. destruct Hq as [[Hp Hr] Hq].
    destruct (@wait_loop_quiet_step p trace results rr Hn Hs Hp) as [got [Hn' ->]].
    pose proof (pending_keeps p results res Hin Hr) as Hin'.
    rewrite (not_done_while_pending _ _ res Hn' Hin').
    apply (IH trace _ _ res pm); try assumption.
    intros r Hr'. apply Hs. unfold pending in Hr'. apply filter_In in Hr'. tauto.
Qed.

(** If a result is not successful, the first [m] iterations do not find the
    timeout elapsed, and iteration [m] finds the event set, or finds that
    result ready before the timeout has elapsed, the wait raises
    MultiprocessingError. *)
Lemma wait_loop_fails (m : nat) :
  forall (trace : list poll) (results : list (AsyncResult V)) (return_results : list V)
         (res : AsyncResult V) (pm : poll),
    (List.length results + List.length return_results = n_start)%nat ->
    In res results -> successful res = false ->
    Forall (fun p => now p - start <= result_timeout) (firstn m trace) ->
    nth_error trace m = Some pm ->
    event_is_set pm = true
    \/ (now pm - start <= result_timeout /\ ready pm (job res) = true) ->
    wait_loop trace start result_timeout n_start results return_results
    = Raised event_was_set
    \/ wait_loop trace start result_timeout n_start results return_results
       = Raised error_in_process.
Proof.
  induction m as [|m IH]; intros trace results rr res pm Hn Hin Hf Hq Hpm Hsee;
    (destruct trace as [|p trace]; [discriminate|]); simpl in Hpm;
    (destruct (event_is_set p) eqn:He; [left; now apply wait_loop_event|]).
  - injection Hpm as <-. destruct Hsee as [Hsee|[Ht Hr]]; [congruence|].
    right. now apply wait_loop_failure with (res := res).
  - simpl in Hq. apply Forall_cons_iff in Hq. destruct Hq as [Ht Hq].
    destruct (ready p (job res)) eqn:Hr.
    { right. now apply wait_loop_failure with (res := res). }
    simpl. rewrite He.
    destruct (Qlt_bool result_timeout (now p - start)) eqn:E.
    { apply Qlt_bool_iff in E. exfalso. apply (Qlt_not_le _ _ E Ht). }
    destruct (scan p 0 results) as [[got idx]|e] eqn:Es.
    + destruct (scan_ok _ _ _ Es) as [Hgot ->].
      rewrite remove_indices_pending.
      pose proof (iteration_keeps_count p results rr got Hn Hgot) as Hn'.
      pose proof (pending_keeps p results res Hin Hr) as Hin'.
      rewrite Hn', Nat.eqb_refl. simpl.
      rewrite (not_done_while_pending _ _ res Hn' Hin').
      apply (IH trace _ _ res pm); assumption.
    + apply scan_raise in Es. destruct Es as [-> _]. now right.
Qed.

End WaitLoop.

(** *** Sorting the tagged results *)

Section SortByIndex.

Variable X : Type.

Lemma insert_by_index_comm (x y : nat * X) (l : list (nat * X)) :
  fst x <> fst y ->
  insert_by_index x (insert_by_index y l) = insert_by_index y (insert_by_index x l).
Proof.
  intros Hxy.
  induction l as [|z l IH]; simpl.
  - destruct (fst x <=? fst y) eqn:E1, (fst y <=? fst x) eqn:E2; try reflexivity;
      apply Nat.leb_le in E1 || apply Nat.leb_gt in E1;
      apply Nat.leb_le in E2 || apply Nat.leb_gt in E2; lia.
  - destruct (fst x <=? fst z) eqn:Exz, (fst y <=? fst z) eqn:Eyz; simpl;
      rewrite ?Exz, ?Eyz;
      destruct (fst x <=? fst y) eqn:E1, (fst y <=? fst x) eqn:E2; simpl;
      rewrite ?Exz, ?Eyz, ?IH; try reflexivity;
      repeat match goal with
             | H : (_ <=? _) = true |- _ => apply Nat.leb_le in H
             | H : (_ <=? _) = false |- _ => apply Nat.leb_gt in H
             end; lia.
Qed.

(** With distinct indices the sorted list does not depend on the order in
    which the results arrived. *)
Lemma sorted_by_index_perm (l l' : list (nat * X)) :
  Permutation l l' -> NoDup (map fst l) -> sorted_by_index l = sorted_by_index l'.
Proof.
  unfold sorted_by_index.
  induction 1 as [|x l l' _ IH|x y l|l l' l'' H1 IH1 H2 IH2]; intros Hnd; simpl.
  - reflexivity.
  - inversion Hnd; subst. now rewrite IH.
  - apply insert_by_index_comm.
    inversion Hnd as [|? ? Hy _]; subst. simpl in Hy.
    intros Heq. apply Hy. left. now symmetry.
  - rewrite IH1 by exact Hnd. apply IH2.
    eapply Permutation_NoDup; [apply Permutation_map; exact H1 | exact Hnd].
Qed.

Lemma sorted_by_index_enumerated (l : list X) :
  forall s, sorted_by_index (combine (seq s (List.length l)) l)
            = combine (seq s (List.length l)) l.
Proof.
  unfold sorted_by_index.
  induction l as [|x l IH]; intros s; simpl; [reflexivity|].
  rewrite IH. destruct l as [|y l]; simpl; [reflexivity|].
  destruct (s <=? S s) eqn:E; [reflexivity|].
  apply Nat.leb_gt in E. lia.
Qed.

Lemma map_fst_combine_seq (l : list X) :
  forall s, map fst (combine (seq s (List.length l)) l) = seq s (List.length l).
Proof.
  induction l as [|x l IH]; intros s; simpl; [reflexivity|]. now rewrite IH.
Qed.

Lemma map_snd_combine_seq (l : list X) :
  forall s, map snd (combine (seq s (List.length l)) l) = l.
Proof.
  induction l as [|x l IH]; intros s; simpl; [reflexivity|]. now rewrite IH.
Qed.

Lemma map_Ok_injective (l l' : list X) : map Ok l = map Ok l' -> l = l'.
Proof.
  revert l'. induction l as [|x l IH]; intros [|y l'] H; simpl in H;
    try discriminate; [reflexivity|].
  injection H as -> H. f_equal. now apply IH.
Qed.

Lemma Permutation_map_Ok (l l' : list X) :
  Permutation (map Ok l) (map Ok l') -> Permutation l l'.
Proof.
  intros H. apply Permutation_map_inv in H.
  destruct H as [l3 [Heq Hperm]].
  apply map_Ok_injective in Heq. subst l3. now apply Permutation_sym.
Qed.

End SortByIndex.

(** *** The wrappers *)

Lemma ProcessPool_fresh (processes maxtasksperchild : option Z) (pool : PoolState) :
  ProcessPool processes maxtasksperchild = Ok pool -> pool = fresh_pool.
Proof.
  unfold ProcessPool.
  destruct (match processes with Some n => (n <? 1)%Z | None => false end);
    [discriminate|].
  destruct (match maxtasksperchild with Some m => (m <=? 0)%Z | None => false end);
    [discriminate|].
  now intros H; injection H as <-.
Qed.

Lemma no_keyword_clash_combine (A KV : Type) (args : list A)
      (kwargs : list (kwargs_dict KV)) :
  Forall (fun k => names_wrapper_parameter k = false) kwargs ->
  Forall (fun ak => names_wrapper_parameter (snd ak) = false) (combine args kwargs).
Proof.
  intros H. apply Forall_forall. intros [a k] Hin.
  apply in_combine_r in Hin. rewrite Forall_forall in H. now apply H.
Qed.

Section WrapperFacts.

Variables A KV R : Type.
Variable empty_args : A.
Variable fn : A -> kwargs_dict KV -> result R.

Lemma wait_for_pool_results_returned (V : Type) (results : list (AsyncResult V))
      (w : world) (result_timeout : Q) (l : list V) :
  wait_for_pool_results results w result_timeout = Returned l ->
  exists vs, map (@value V) results = map Ok vs /\ Permutation l vs.
Proof.
  unfold wait_for_pool_results. intros H.
  apply wait_loop_returned in H; [|simpl; lia]. simpl in H.
  apply Permutation_sym, Permutation_map_inv in H.
  destruct H as [vs [Heq Hperm]]. exists vs. split; assumption.
Qed.

Lemma tagged_calls_ok (calls : list (A * kwargs_dict KV)) :
  forall s (vs : list (nat * R)),
    map (fun iak : nat * (A * kwargs_dict KV) =>
           _call_order_wrapper (fst iak) fn (fst (snd iak)) (snd (snd iak)))
        (combine (seq s (List.length calls)) calls) = map Ok vs ->
    exists rs, vs = combine (seq s (List.length rs)) rs
               /\ Forall2 (fun r ak => fn (fst ak) (snd ak) = Ok r) rs calls
               /\ Forall (fun ak => names_wrapper_parameter (snd ak) = false) calls.
Proof.
  induction calls as [|[a k] calls IH]; intros s [|v vs] H; simpl in H; try discriminate.
  - exists []. split; [reflexivity | split; constructor].
  - injection H as Hv H.
    destruct (IH _ _ H) as [rs [-> [Hrs Hno]]].
    unfold _call_order_wrapper in Hv.
    destruct (names_wrapper_parameter k) eqn:Ek; [discriminate|].
    destruct (fn a k) as [r|e] eqn:Ef; simpl in Hv; [|discriminate].
    injection Hv as <-.
    exists (r :: rs). split; [reflexivity|].
    split; constructor; assumption.
Qed.

Lemma plain_calls_ok (calls : list (A * kwargs_dict KV)) :
  forall (vs : list R),
    map (fun ak => fn (fst ak) (snd ak)) calls = map Ok vs ->
    Forall2 (fun r ak => fn (fst ak) (snd ak) = Ok r) vs calls.
Proof.
  induction calls as [|[a k] calls IH]; intros [|v vs] H; simpl in H; try discriminate.
  - constructor.
  - injection H as Hv H. constructor; [exact Hv | now apply IH].
Qed.

Lemma submit_in_order_values (args : list A) (kwargs : list (kwargs_dict KV)) :
  map (@value _) (submit_in_order fn args kwargs)
  = map (fun iak : nat * (A * kwargs_dict KV) =>
           _call_order_wrapper (fst iak) fn (fst (snd iak)) (snd (snd iak)))
        (combine (seq 0 (List.length (combine args kwargs))) (combine args kwargs)).
Proof. unfold submit_in_order, enumerate. now rewrite map_map. Qed.

Lemma submit_out_order_values (args : list A) (kwargs : list (kwargs_dict KV)) :
  map (@value _) (submit_out_order fn args kwargs)
  = map (fun ak => fn (fst ak) (snd ak)) (combine args kwargs).
Proof.
  unfold submit_out_order, enumerate. rewrite map_map. simpl.
  rewrite <- (map_snd_combine_seq (combine args kwargs) 0) at 3.
  now rewrite map_map.
Qed.

Lemma submit_in_order_length (args : list A) (kwargs : list (kwargs_dict KV)) :
  List.length (submit_in_order fn args kwargs) = List.length (combine args kwargs).
Proof.
  unfold submit_in_order, enumerate.
  now rewrite length_map, length_combine, length_seq, Nat.min_id.
Qed.

Lemma submit_out_order_length (args : list A) (kwargs : list (kwargs_dict KV)) :
  List.length (submit_out_order fn args kwargs) = List.length (combine args kwargs).
Proof.
  unfold submit_out_order, enumerate.
  now rewrite length_map, length_combine, length_seq, Nat.min_id.
Qed.

(** The tagged results, once sorted, are the results of the calls in the
    order of the calls, each with its index. *)
Lemma in_order_sorted (a : list A) (k : list (kwargs_dict KV)) (w : world)
      (result_timeout : Q) (tagged : list (nat * R)) :
  wait_for_pool_results (submit_in_order fn a k) w result_timeout = Returned tagged ->
  exists rs, sorted_by_index tagged = combine (seq 0 (List.length rs)) rs
             /\ Forall2 (fun r ak => fn (fst ak) (snd ak) = Ok r) rs (combine a k).
Proof.
  intros W.
  apply wait_for_pool_results_returned in W.
  destruct W as [vs [Hvs Hperm]].
  rewrite submit_in_order_values in Hvs.
  apply tagged_calls_ok in Hvs. destruct Hvs as [rs [-> [Hrs _]]].
  exists rs. split; [|exact Hrs].
  rewrite <- (sorted_by_index_perm (Permutation_sym Hperm)).
  - apply sorted_by_index_enumerated.
  - rewrite map_fst_combine_seq. apply seq_NoDup.
Qed.

(** What the in-order wrapper returns is the list of the calls' results,
    in the order of the calls. *)
Lemma in_order_returned (args : option (list A)) (kwargs : option (list (kwargs_dict KV)))
      (process_count pool_maxtasksperchild : option Z)
      (result_timeout : Q) (w : world) (l : list R) :
  _process_pool_wrapper_kwargs_in_order empty_args fn args kwargs
                                        process_count pool_maxtasksperchild
                                        result_timeout w = Returned l ->
  exists a k,
    _check_args_kwargs args kwargs empty_args (@empty_kwargs KV) None = Ok (a, k)
    /\ Forall2 (fun r ak => fn (fst ak) (snd ak) = Ok r) l (combine a k).
Proof.
  unfold _process_pool_wrapper_kwargs_in_order.
  destruct (_check_args_kwargs args kwargs empty_args (@empty_kwargs KV) None)
    as [[a k]|e]; [|discriminate].
  destruct (ProcessPool process_count pool_maxtasksperchild) as [pool|e];
    [|discriminate].
  intros H. exists a, k. split; [reflexivity|].
  destruct (wait_for_pool_results _ w _) as [tagged|e|] eqn:W;
    [|unfold clean_up_and_exit in H; simpl in H; discriminate|discriminate].
  destruct (in_order_sorted _ _ _ _ W) as [rs [Hsort Hrs]].
  rewrite Hsort in H.
  destruct rs as [|r rs]; simpl in H; [discriminate|].
  injection H as <-. rewrite map_snd_combine_seq. exact Hrs.
Qed.

(** What the out-of-order wrapper returns holds the same results, in the
    order in which they arrived. *)
Lemma out_order_returned (args : option (list A)) (kwargs : option (list (kwargs_dict KV)))
      (process_count pool_maxtasksperchild : option Z)
      (result_timeout : Q) (w : world) (l : list R) :
  _process_pool_wrapper_kwargs_out_order empty_args fn args kwargs
                                         process_count pool_maxtasksperchild
                                         result_timeout w = Returned l ->
  exists a k rs,
    _check_args_kwargs args kwargs empty_args (@empty_kwargs KV) None = Ok (a, k)
    /\ Forall2 (fun r ak => fn (fst ak) (snd ak) = Ok r) rs (combine a k)
    /\ Permutation l rs.
Proof.
  unfold _process_pool_wrapper_kwargs_out_order.
  destruct (_check_args_kwargs args kwargs empty_args (@empty_kwargs KV) None)
    as [[a k]|e]; [|discriminate].
  destruct (ProcessPool process_count pool_maxtasksperchild) as [pool|e];
    [|discriminate].
  intros H.
  destruct (wait_for_pool_results _ w _) as [got|e|] eqn:W;
    [|unfold clean_up_and_exit in H; simpl in H; discriminate|discriminate].
  injection H as <-.
  apply wait_for_pool_results_returned in W.
  destruct W as [vs [Hvs Hperm]].
  rewrite submit_out_order_values in Hvs.
  exists a, k, vs. split; [reflexivity|]. split; [|exact Hperm].
  now apply plain_calls_ok.
Qed.

End WrapperFacts.

Section WrapperReturns.

Variables A KV R : Type.
Variable empty_args : A.
Variable fn : A -> kwargs_dict KV -> result R.

Lemma Forall2_In_r (X Y : Type) (P : X -> Y -> Prop) (l1 : list X) (l2 : list Y) :
  Forall2 P l1 l2 -> forall y, In y l2 -> exists x, P x y.
Proof.
  induction 1 as [|x y l1 l2 Hxy _ IH]; intros y' Hin; simpl in Hin; [contradiction|].
  destruct Hin as [<-|Hin]; [now exists x | now apply IH].
Qed.

Lemma submitted_all_successful (args : list A) (kwargs : list (kwargs_dict KV))
      (rs : list R) :
  Forall2 (fun r ak => fn (fst ak) (snd ak) = Ok r) rs (combine args kwargs) ->
  (Forall (fun k => names_wrapper_parameter k = false) kwargs ->
   forall res, In res (submit_in_order fn args kwargs) -> successful res = true)
  /\ (forall res, In res (submit_out_order fn args kwargs) -> successful res = true).
Proof.
  intros Hrs.
  split; [intros Hno|]; intros res Hin;
    unfold submit_in_order, submit_out_order, enumerate in Hin;
    apply in_map_iff in Hin; destruct Hin as [[i [a k]] [<- Hin]];
    apply in_combine_r in Hin;
    destruct (Forall2_In_r Hrs _ Hin) as [r Hr]; simpl in Hr;
    unfold successful, _call_order_wrapper; simpl.
  - apply in_combine_r in Hin. rewrite Forall_forall in Hno.
    now rewrite (Hno _ Hin), Hr.
  - now rewrite Hr.
Qed.

(** When the pool can be created, every call returns, no keyword of an
    in-order batch is called [index] or [func], the first [m + 1] iterations
    find the event not set and the batch timeout not elapsed, and every
    result is ready at iteration [m], the wrapper returns a list (for a
    non-empty batch when the results are to be in order). *)
Lemma process_pool_wrapper_returns (args : list A) (kwargs : list (kwargs_dict KV))
      (rs : list R) (process_count pool_maxtasksperchild : option Z)
      (in_order : bool) (result_timeout : Q) (w : world) (m : nat) :
  ProcessPool process_count pool_maxtasksperchild = Ok fresh_pool ->
  Forall2 (fun r ak => fn (fst ak) (snd ak) = Ok r) rs (combine args kwargs) ->
  (in_order = true ->
   rs <> [] /\ Forall (fun k => names_wrapper_parameter k = false) kwargs) ->
  Forall (quiet (start_time w)
                (batch_timeout result_timeout (List.length (combine args kwargs))))
         (firstn (S m) (polls w)) ->
  all_ready_at (polls w) m ->
  exists l, process_pool_wrapper empty_args fn (Some args) (Some kwargs)
                                 process_count pool_maxtasksperchild
                                 in_order result_timeout w = Returned l.
Proof.
  intros Hpool Hrs Hne Hq Hready.
  destruct (submitted_all_successful args kwargs Hrs) as [Hsi Hso].
  unfold process_pool_wrapper. simpl.
  destruct in_order.
  - destruct (Hne eq_refl) as [Hnonempty Hno].
    unfold _process_pool_wrapper_kwargs_in_order. simpl. rewrite Hpool.
    rewrite submit_in_order_length.
    destruct (@wait_loop_returns _ (start_time w)
                (batch_timeout result_timeout (List.length (combine args kwargs)))
                (List.length (submit_in_order fn args kwargs)) m (polls w)
                (submit_in_order fn args kwargs) [])
      as [tagged W]; [simpl; lia | exact (Hsi Hno) | exact Hq | exact Hready |].
    fold (wait_for_pool_results
            (submit_in_order fn args kwargs) w
            (batch_timeout result_timeout (List.length (combine args kwargs)))) in W.
    rewrite W.
    destruct (in_order_sorted _ _ _ _ _ W) as [rs' [Hsort Hrs']].
    rewrite Hsort.
    assert (Hlen : List.length rs' = List.length rs).
    { apply Forall2_length in Hrs, Hrs'. congruence. }
    destruct rs' as [|r' rs'].
    + destruct rs; [now specialize (Hnonempty eq_refl) | discriminate].
    + simpl. eexists. reflexivity.
  - unfold _process_pool_wrapper_kwargs_out_order. simpl. rewrite Hpool.
    rewrite submit_out_order_length.
    destruct (@wait_loop_returns _ (start_time w)
                (batch_timeout result_timeout (List.length (combine args kwargs)))
                (List.length (submit_out_order fn args kwargs)) m (polls w)
                (submit_out_order fn args kwargs) [])
      as [got W]; [simpl; lia | exact Hso | exact Hq | exact Hready |].
    fold (wait_for_pool_results
            (submit_out_order fn args kwargs) w
            (batch_timeout result_timeout (List.length (combine args kwargs)))) in W.
    rewrite W. eexists. reflexivity.
Qed.

End WrapperReturns.

(** C3. A call of [process_pool_wrapper] on equal-length lists of argument
    tuples and keyword dicts that returns, returns with [in_order=True] the
    list whose i-th element is [fn] called on [args[i]] and [kwargs[i]], and with
    [in_order=False] the same results in some order; the flag alone selects
    which of the two sister functions runs.  The call does return when the
    pool can be created, every call of [fn] returns and all results get ready
    before the event is set or the batch timeout elapses (in order: for a
    non-empty batch none of whose keywords is called [index] or [func]). *)
Theorem process_pool_wrapper_order
        (A KV R : Type) (empty_args : A)
        (fn : A -> kwargs_dict KV -> result R)
        (args : list A) (kwargs : list (kwargs_dict KV))
        (process_count pool_maxtasksperchild : option Z)
        (result_timeout : Q) (w : world) (l : list R) :
  List.length args = List.length kwargs ->
  (process_pool_wrapper empty_args fn (Some args) (Some kwargs)
                        process_count pool_maxtasksperchild
                        true result_timeout w = Returned l ->
   List.length l = List.length args
   /\ Forall2 (fun r ak => fn (fst ak) (snd ak) = Ok r) l (combine args kwargs))
  /\ (process_pool_wrapper empty_args fn (Some args) (Some kwargs)
                           process_count pool_maxtasksperchild
                           false result_timeout w = Returned l ->
      exists rs,
        List.length rs = List.length args
        /\ Forall2 (fun r ak => fn (fst ak) (snd ak) = Ok r) rs (combine args kwargs)
        /\ Permutation l rs)
  /\ (forall in_order,
         process_pool_wrapper empty_args fn (Some args) (Some kwargs)
                              process_count pool_maxtasksperchild
                              in_order result_timeout w
         = if in_order
           then _process_pool_wrapper_kwargs_in_order
                  empty_args fn (Some args) (Some kwargs)
                  process_count pool_maxtasksperchild result_timeout w
           else _process_pool_wrapper_kwargs_out_order
                  empty_args fn (Some args) (Some kwargs)
                  process_count pool_maxtasksperchild result_timeout w)
  /\ (forall rs in_order m,
         ProcessPool process_count pool_maxtasksperchild = Ok fresh_pool ->
         Forall2 (fun r ak => fn (fst ak) (snd ak) = Ok r) rs (combine args kwargs) ->
         (in_order = true ->
          rs <> [] /\ Forall (fun k => names_wrapper_parameter k = false) kwargs) ->
         Forall (quiet (start_time w)
                       (batch_timeout result_timeout (List.length args)))
                (firstn (S m) (polls w)) ->
         all_ready_at (polls w) m ->
         exists l', process_pool_wrapper empty_args fn
                                         (Some args) (Some kwargs)
                                         process_count pool_maxtasksperchild
                                         in_order result_timeout w = Returned l').
Proof.
  intros Hlen.
  assert (Hcomb : List.length (combine args kwargs) = List.length args).
  { rewrite length_combine. lia. }
  split; [|split; [|split]].
  - unfold process_pool_wrapper. simpl. intros H.
    apply in_order_returned in H. destruct H as [a [k [Hck Hrs]]].
    simpl in Hck. injection Hck as <- <-.
    split; [|exact Hrs].
    apply Forall2_length in Hrs. lia.
  - unfold process_pool_wrapper. simpl. intros H.
    apply out_order_returned in H. destruct H as [a [k [rs [Hck [Hrs Hperm]]]]].
    simpl in Hck. injection Hck as <- <-.
    exists rs. split; [|split; assumption].
    apply Forall2_length in Hrs. lia.
  - intros in_order. reflexivity.
  - intros rs in_order m Hpool Hrs Hne Hq Hready.
    rewrite <- Hcomb in Hq.
    now apply process_pool_wrapper_returns with (rs := rs) (m := m).
Qed.

Lemma process_pool_wrapper_order_witness :
  List.length [1%Z; 2%Z; 3%Z] = List.length [no_keywords; negate; no_keywords]
  /\ process_pool_wrapper 0%Z example_fn
                          (Some [1%Z; 2%Z; 3%Z]) (Some [no_keywords; negate; no_keywords])
                          (Some 2%Z) (Some 4%Z) true 86400 example_world
     = Returned [1%Z; (-2)%Z; 3%Z]
  /\ process_pool_wrapper 0%Z example_fn
                          (Some [1%Z; 2%Z; 3%Z]) (Some [no_keywords; negate; no_keywords])
                          (Some 2%Z) (Some 4%Z) false 86400 example_world
     = Returned [3%Z; 1%Z; (-2)%Z]
  /\ Forall2 (fun r ak => example_fn (fst ak) (snd ak) = Ok r)
             [1%Z; (-2)%Z; 3%Z]
             (combine [1%Z; 2%Z; 3%Z] [no_keywords; negate; no_keywords]).
Proof.
  split; [reflexivity|].
  split; [vm_compute; reflexivity|].
  split; [vm_compute; reflexivity|].
  apply (@process_pool_wrapper_order
           Z bool Z 0%Z example_fn [1%Z; 2%Z; 3%Z] [no_keywords; negate; no_keywords]
           (Some 2%Z) (Some 4%Z) 86400 example_world [1%Z; (-2)%Z; 3%Z] eq_refl).
  vm_compute; reflexivity.
Defined.

(** *** A run that returns *)

Section Returns.

Variables A KV R : Type.
Variable empty_args : A.
Variable fn : A -> kwargs_dict KV -> result R.

Lemma tagged_calls_values (calls : list (A * kwargs_dict KV)) :
  forall (rs : list R) s,
    Forall2 (fun r ak => fn (fst ak) (snd ak) = Ok r) rs calls ->
    Forall (fun ak => names_wrapper_parameter (snd ak) = false) calls ->
    map (fun iak : nat * (A * kwargs_dict KV) =>
           _call_order_wrapper (fst iak) fn (fst (snd iak)) (snd (snd iak)))
        (combine (seq s (List.length calls)) calls)
    = map Ok (combine (seq s (List.length rs)) rs).
Proof.
  induction calls as [|[a k] calls IH]; intros rs s H Hno; inversion H; subst; simpl.
  - reflexivity.
  - apply Forall_cons_iff in Hno. destruct Hno as [Hk Hno].
    unfold _call_order_wrapper at 1. simpl in *. rewrite Hk.
    match goal with Hf : fn a k = Ok _ |- _ => rewrite Hf end.
    simpl. f_equal. now apply IH.
Qed.

Lemma plain_calls_values (calls : list (A * kwargs_dict KV)) (rs : list R) :
  Forall2 (fun r ak => fn (fst ak) (snd ak) = Ok r) rs calls ->
  map (fun ak => fn (fst ak) (snd ak)) calls = map Ok rs.
Proof.
  induction 1 as [|r ak rs calls Hr _ IH]; simpl; [reflexivity|].
  now rewrite Hr, IH.
Qed.

(** When the pool can be created, every call returns, no keyword is called
    [index] or [func] and every result is ready at the first iteration,
    reached with the event not set and within [result_timeout] times the
    number of jobs, the in-order wrapper returns the results of a non-empty
    batch in the order of the calls. *)
Lemma in_order_returns (args : list A) (kwargs : list (kwargs_dict KV)) (rs : list R)
      (process_count pool_maxtasksperchild : option Z)
      (result_timeout : Q) (start : Q) (p : poll) (trace : list poll) :
  ProcessPool process_count pool_maxtasksperchild = Ok fresh_pool ->
  Forall2 (fun r ak => fn (fst ak) (snd ak) = Ok r) rs (combine args kwargs) ->
  Forall (fun k => names_wrapper_parameter k = false) kwargs ->
  rs <> [] ->
  event_is_set p = false ->
  now p - start
  <= result_timeout * inject_Z (Z.of_nat (Nat.max (List.length rs) 1)) ->
  (forall j, ready p j = true) ->
  process_pool_wrapper empty_args fn (Some args) (Some kwargs)
                       process_count pool_maxtasksperchild true
                       result_timeout (mkWorld start (p :: trace))
  = Returned rs.
Proof.
  intros Hpool Hrs Hno Hne He Ht Hr.
  unfold process_pool_wrapper, _process_pool_wrapper_kwargs_in_order. simpl.
  rewrite Hpool.
  assert (Hlen : List.length (submit_in_order fn args kwargs) = List.length rs).
  { rewrite submit_in_order_length. symmetry. now apply Forall2_length in Hrs. }
  unfold wait_for_pool_results. cbn [polls start_time].
  rewrite (@wait_loop_all_ready _ start _ _ p trace _
             (combine (seq 0 (List.length rs)) rs)).
  - rewrite sorted_by_index_enumerated.
    destruct (combine (seq 0 (List.length rs)) rs) as [|x sorted] eqn:Ec.
    + destruct rs; [congruence | discriminate].
    + change (snd x :: map snd sorted) with (map snd (x :: sorted)).
      now rewrite <- Ec, map_snd_combine_seq.
  - exact He.
  - rewrite Hlen. exact Ht.
  - intros res _. apply Hr.
  - rewrite submit_in_order_values. apply tagged_calls_values; [exact Hrs|].
    now apply no_keyword_clash_combine.
  - reflexivity.
Qed.

(** The same for the out-of-order wrapper, whatever the keywords are called
    and also for an empty batch. *)
Lemma out_order_returns (args : list A) (kwargs : list (kwargs_dict KV)) (rs : list R)
      (process_count pool_maxtasksperchild : option Z)
      (result_timeout : Q) (start : Q) (p : poll) (trace : list poll) :
  ProcessPool process_count pool_maxtasksperchild = Ok fresh_pool ->
  Forall2 (fun r ak => fn (fst ak) (snd ak) = Ok r) rs (combine args kwargs) ->
  event_is_set p = false ->
  now p - start
  <= result_timeout * inject_Z (Z.of_nat (Nat.max (List.length rs) 1)) ->
  (forall j, ready p j = true) ->
  process_pool_wrapper empty_args fn (Some args) (Some kwargs)
                       process_count pool_maxtasksperchild false
                       result_timeout (mkWorld start (p :: trace))
  = Returned rs.
Proof.
  intros Hpool Hrs He Ht Hr.
  unfold process_pool_wrapper, _process_pool_wrapper_kwargs_out_order. simpl.
  rewrite Hpool.
  assert (Hlen : List.length (submit_out_order fn args kwargs) = List.length rs).
  { rewrite submit_out_order_length. symmetry. now apply Forall2_length in Hrs. }
  unfold wait_for_pool_results. cbn [polls start_time].
  rewrite (@wait_loop_all_ready _ start _ _ p trace _ rs); try reflexivity.
  - exact He.
  - rewrite Hlen. exact Ht.
  - intros res _. apply Hr.
  - rewrite submit_out_order_values. now apply plain_calls_values.
Qed.

(** Once an iteration finds the event not set and more than [result_timeout]
    times the number of jobs elapsed, the wrapper is over: the TimeoutError
    of the wait is caught and the clean-up raises. *)
Lemma wrapper_batch_timeout (args : list A) (kwargs : list (kwargs_dict KV))
      (process_count pool_maxtasksperchild : option Z) (in_order : bool)
      (result_timeout : Q) (start : Q) (p : poll) (trace : list poll) :
  ProcessPool process_count pool_maxtasksperchild = Ok fresh_pool ->
  event_is_set p = false ->
  result_timeout
  * inject_Z (Z.of_nat (Nat.max (List.length (combine args kwargs)) 1))
  < now p - start ->
  process_pool_wrapper empty_args fn (Some args) (Some kwargs)
                       process_count pool_maxtasksperchild in_order
                       result_timeout (mkWorld start (p :: trace))
  = Raised AttributeError.
Proof.
  intros Hpool He Ht.
  unfold process_pool_wrapper. simpl.
  destruct in_order;
    unfold _process_pool_wrapper_kwargs_in_order,
      _process_pool_wrapper_kwargs_out_order; simpl; rewrite Hpool;
    rewrite ?submit_in_order_length, ?submit_out_order_length;
    unfold wait_for_pool_results; cbn [polls start_time];
    rewrite wait_loop_timeout; try reflexivity; try exact He; exact Ht.
Qed.

End Returns.

(** X3. An empty batch makes the in-order wrapper raise: the sorted list of
    pairs cannot be unpacked into two names; without the order the wrapper
    returns the empty list. *)
Lemma in_order_empty_batch (A KV R : Type) (empty_args : A)
      (fn : A -> kwargs_dict KV -> result R)
      (process_count pool_maxtasksperchild : option Z)
      (result_timeout start : Q) (p : poll) (trace : list poll) :
  ProcessPool process_count pool_maxtasksperchild = Ok fresh_pool ->
  event_is_set p = false ->
  now p - start <= batch_timeout result_timeout 0 ->
  process_pool_wrapper empty_args fn (Some []) (Some [])
                       process_count pool_maxtasksperchild true
                       result_timeout (mkWorld start (p :: trace))
  = Raised (ValueError "not enough values to unpack (expected 2, got 0)")
  /\ process_pool_wrapper empty_args fn (Some []) (Some [])
                          process_count pool_maxtasksperchild false
                          result_timeout (mkWorld start (p :: trace))
     = Returned [].
Proof.
  intros Hpool He Ht.
  unfold process_pool_wrapper, _process_pool_wrapper_kwargs_in_order,
    _process_pool_wrapper_kwargs_out_order, wait_for_pool_results.
  simpl. rewrite Hpool. simpl. rewrite He.
  destruct (Qlt_bool _ _) eqn:E.
  - apply Qlt_bool_iff in E. exfalso. apply (Qlt_not_le _ _ E Ht).
  - split; reflexivity.
Qed.

(** *** A worker that raises *)

Lemma failed_result_never_returned (V : Type) (results : list (AsyncResult V))
      (res : AsyncResult V) (w : world) (result_timeout : Q) (l : list V) :
  In res results -> successful res = false ->
  wait_for_pool_results results w result_timeout <> Returned l.
Proof.
  intros Hin Hs H.
  apply wait_for_pool_results_returned in H. destruct H as [vs [Hvs _]].
  assert (Hin' : In (value res) (map Ok vs)) by (rewrite <- Hvs; now apply in_map).
  apply in_map_iff in Hin'. destruct Hin' as [v [Hv _]].
  unfold successful in Hs. rewrite <- Hv in Hs. discriminate.
Qed.

Lemma In_enumerate (X : Type) (l : list X) (x : X) :
  forall s, In x l -> exists i, In (i, x) (combine (seq s (List.length l)) l).
Proof.
  induction l as [|y l IH]; intros s H; simpl in *; [contradiction|].
  destruct H as [->|H].
  - exists s. now left.
  - destruct (IH (S s) H) as [i Hi]. exists i. now right.
Qed.

Lemma submitted_failure (A KV R : Type) (fn : A -> kwargs_dict KV -> result R)
      (args : list A) (kwargs : list (kwargs_dict KV))
      (a : A) (k : kwargs_dict KV) (e : exn) :
  In (a, k) (combine args kwargs) -> fn a k = Raise e ->
  (exists res, In res (submit_in_order fn args kwargs) /\ successful res = false)
  /\ (exists res, In res (submit_out_order fn args kwargs) /\ successful res = false).
Proof.
  intros Hin Hf.
  destruct (In_enumerate _ _ 0 Hin) as [i Hi].
  split.
  - exists (mkAsync i (_call_order_wrapper i fn a k)). split.
    + unfold submit_in_order, enumerate. apply in_map_iff.
      exists (i, (a, k)). split; [reflexivity | exact Hi].
    + unfold successful, _call_order_wrapper. simpl.
      destruct (names_wrapper_parameter k); [reflexivity|]. now rewrite Hf.
  - exists (mkAsync i (fn a k)). split.
    + unfold submit_out_order, enumerate. apply in_map_iff.
      exists (i, (a, k)). split; [reflexivity | exact Hi].
    + unfold successful. simpl. now rewrite Hf.
Qed.

(** A sister function returns no list when one of the submitted results is
    not successful. *)
Lemma in_order_failed_never_returns (A KV R : Type) (empty_args : A)
      (fn : A -> kwargs_dict KV -> result R)
      (args : list A) (kwargs : list (kwargs_dict KV))
      (process_count pool_maxtasksperchild : option Z)
      (result_timeout : Q) (w : world) (l : list R) (res : AsyncResult (nat * R)) :
  In res (submit_in_order fn args kwargs) -> successful res = false ->
  process_pool_wrapper empty_args fn (Some args) (Some kwargs)
                       process_count pool_maxtasksperchild true result_timeout w
  <> Returned l.
Proof.
  intros Hri Hsi H.
  unfold process_pool_wrapper, _process_pool_wrapper_kwargs_in_order in H.
  simpl in H.
  destruct (ProcessPool process_count pool_maxtasksperchild) as [pool|e0];
    [|discriminate].
  destruct (wait_for_pool_results _ w _) as [tagged|e'|] eqn:W;
    [|unfold clean_up_and_exit in H; simpl in H; discriminate|discriminate].
  exact (failed_result_never_returned _ res w _ Hri Hsi W).
Qed.

Lemma out_order_failed_never_returns (A KV R : Type) (empty_args : A)
      (fn : A -> kwargs_dict KV -> result R)
      (args : list A) (kwargs : list (kwargs_dict KV))
      (process_count pool_maxtasksperchild : option Z)
      (result_timeout : Q) (w : world) (l : list R) (res : AsyncResult R) :
  In res (submit_out_order fn args kwargs) -> successful res = false ->
  process_pool_wrapper empty_args fn (Some args) (Some kwargs)
                       process_count pool_maxtasksperchild false result_timeout w
  <> Returned l.
Proof.
  intros Hro Hso H.
  unfold process_pool_wrapper, _process_pool_wrapper_kwargs_out_order in H.
  simpl in H.
  destruct (ProcessPool process_count pool_maxtasksperchild) as [pool|e0];
    [|discriminate].
  destruct (wait_for_pool_results _ w _) as [got|e'|] eqn:W;
    [|unfold clean_up_and_exit in H; simpl in H; discriminate|discriminate].
  exact (failed_result_never_returned _ res w _ Hro Hso W).
Qed.

(** C4. When a worker raises, the error callback closes and terminates the
    pool and sets the terminate event; the wrapper returns no list, whatever
    the flag, the size of the pool and however the run unfolds; and
    [wait_for_pool_results], for any batch with a result that is not
    successful, returns no list either: it raises MultiprocessingError at the
    iteration that sees the event set, and at the iteration that finds that
    result ready; so it does in every run in which one of the two happens
    before the timeout is found elapsed. *)
Theorem worker_failure_never_returns
        (A KV R : Type) (empty_args : A)
        (fn : A -> kwargs_dict KV -> result R)
        (args : list A) (kwargs : list (kwargs_dict KV))
        (a : A) (k : kwargs_dict KV) (e : exn) :
  In (a, k) (combine args kwargs) ->
  fn a k = Raise e ->
  (forall st, kill_pool (Some e) true st = (Ok tt, mkPool true true true))
  /\ (forall in_order process_count pool_maxtasksperchild result_timeout w l,
         process_pool_wrapper empty_args fn (Some args) (Some kwargs)
                              process_count pool_maxtasksperchild
                              in_order result_timeout w <> Returned l)
  /\ (exists res, In res (submit_in_order fn args kwargs) /\ successful res = false)
  /\ (exists res, In res (submit_out_order fn args kwargs) /\ successful res = false)
  /\ (forall (V : Type) (results : list (AsyncResult V)) (res : AsyncResult V),
         In res results -> successful res = false ->
         (forall w result_timeout l,
             wait_for_pool_results results w result_timeout <> Returned l)
         /\ (forall start result_timeout p trace,
                event_is_set p = true ->
                wait_for_pool_results results (mkWorld start (p :: trace)) result_timeout
                = Raised event_was_set)
         /\ (forall start result_timeout p trace,
                event_is_set p = false ->
                now p - start <= result_timeout ->
                ready p (job res) = true ->
                wait_for_pool_results results (mkWorld start (p :: trace)) result_timeout
                = Raised error_in_process)
         /\ (forall w result_timeout m pm,
                Forall (fun p => now p - start_time w <= result_timeout)
                       (firstn m (polls w)) ->
                nth_error (polls w) m = Some pm ->
                event_is_set pm = true
                \/ (now pm - start_time w <= result_timeout
                    /\ ready pm (job res) = true) ->
                wait_for_pool_results results w result_timeout = Raised event_was_set
                \/ wait_for_pool_results results w result_timeout
                   = Raised error_in_process)).
Proof.
  intros Hin Hf.
  destruct (submitted_failure fn args kwargs a k Hin Hf) as [[ri [Hri Hsi]] [ro [Hro Hso]]].
  split; [intros st; reflexivity|].
  split; [|split; [|split]].
  - intros in_order process_count pool_maxtasksperchild result_timeout w l.
    destruct in_order.
    + now apply in_order_failed_never_returns with (res := ri).
    + now apply out_order_failed_never_returns with (res := ro).
  - exists ri. split; assumption.
  - exists ro. split; assumption.
  - intros V results res Hres Hs. split; [|split; [|split]].
    + intros w result_timeout l. now apply failed_result_never_returned with (res := res).
    + intros start result_timeout p trace He.
      unfold wait_for_pool_results. cbn [polls start_time].
      now apply wait_loop_event.
    + intros start result_timeout p trace He Ht Hr.
      unfold wait_for_pool_results. cbn [polls start_time].
      now apply wait_loop_failure with (res := res).
    + intros w result_timeout m pm Hq Hpm Hsee.
      unfold wait_for_pool_results.
      apply (@wait_loop_fails _ (start_time w) result_timeout _ m (polls w)
                              results [] res pm); try assumption.
      simpl. lia.
Qed.

Lemma worker_failure_never_returns_witness :
  In (4%Z, no_keywords)
     (combine [1%Z; 4%Z; 3%Z] [no_keywords; no_keywords; negate])
  /\ example_fn 4 no_keywords = Raise (ValueError "Throwing a test error!")
  /\ wait_for_pool_results
       (submit_out_order example_fn [1%Z; 4%Z; 3%Z] [no_keywords; no_keywords; negate])
       example_world 86400
     = Raised error_in_process
  /\ process_pool_wrapper 0%Z example_fn
                          (Some [1%Z; 4%Z; 3%Z]) (Some [no_keywords; no_keywords; negate])
                          (Some 2%Z) (Some 4%Z) false 86400 example_failed_world
     = Raised AttributeError
  /\ (forall in_order process_count pool_maxtasksperchild result_timeout w l,
         process_pool_wrapper 0%Z example_fn
                              (Some [1%Z; 4%Z; 3%Z])
                              (Some [no_keywords; no_keywords; negate])
                              process_count pool_maxtasksperchild
                              in_order result_timeout w <> Returned l).
Proof.
  split; [right; left; reflexivity|].
  split; [reflexivity|].
  split; [vm_compute; reflexivity|].
  split; [vm_compute; reflexivity|].
  apply (@worker_failure_never_returns
           Z bool Z 0%Z example_fn [1%Z; 4%Z; 3%Z] [no_keywords; no_keywords; negate]
           4%Z no_keywords (ValueError "Throwing a test error!")
           (or_intror (or_introl eq_refl)) eq_refl).
Defined.

(** *** The timeout *)

Lemma last_poll (trace : list poll) :
  trace <> [] ->
  exists k p, nth_error trace k = Some p /\ S k = List.length trace.
Proof.
  intros Hne.
  destruct (nth_error trace (Nat.pred (List.length trace))) as [p|] eqn:E.
  - exists (Nat.pred (List.length trace)), p. split; [exact E|].
    destruct trace; [congruence | simpl; lia].
  - apply nth_error_None in E. destruct trace; [congruence | simpl in E; lia].
Qed.

Lemma wait_loop_bounded (V : Type) (trace : list poll) (start result_timeout : Q)
      (n_start : nat) (results : list (AsyncResult V)) (return_results : list V) :
  clock_advances start trace ->
  trace <> [] ->
  result_timeout < inject_Z (Z.of_nat (List.length trace)) * (5 # 100) ->
  wait_loop trace start result_timeout n_start results return_results <> Waiting.
Proof.
  intros Hclock Hne Hlt Hw.
  apply wait_loop_waiting in Hw.
  destruct (last_poll Hne) as [k [p [Hk Hlen]]].
  rewrite Forall_forall in Hw.
  destruct (Hw p (nth_error_In _ _ Hk)) as [_ Hp].
  specialize (Hclock k p Hk). rewrite Hlen in Hclock.
  lra.
Qed.

(** C5. Waiting for the results of a batch is bounded by the timeout: an
    iteration that finds more than [result_timeout] elapsed (and the event
    not set) raises TimeoutError, so a run in which the timeout elapses while
    a result is still not ready ends in TimeoutError; with a clock that
    advances by the sleep of each iteration the wait is over, by a return or
    an exception, once the run has lasted longer than the timeout.  The
    wrapper waits with the caller's timeout times the number of submitted
    jobs (at least 1), and with nothing less: its wait is over once that
    product has elapsed, the TimeoutError being caught and the clean-up
    raising in its place, while results that are all there within the
    product are returned, also when the caller's own timeout has elapsed. *)
Theorem wait_is_bounded_by_timeout
        (V : Type) (results : list (AsyncResult V)) (w : world) (result_timeout : Q) :
  clock_advances (start_time w) (polls w) ->
  polls w <> [] ->
  result_timeout < inject_Z (Z.of_nat (List.length (polls w))) * (5 # 100) ->
  wait_for_pool_results results w result_timeout <> Waiting
  /\ (forall start n_start return_results p trace,
         event_is_set p = false ->
         result_timeout < now p - start ->
         wait_loop (p :: trace) start result_timeout n_start results return_results
         = Raised TimeoutError)
  /\ (forall res m pm,
         (forall r, In r results -> successful r = true) ->
         In res results ->
         Forall (fun p => quiet (start_time w) result_timeout p
                          /\ ready p (job res) = false)
                (firstn m (polls w)) ->
         nth_error (polls w) m = Some pm ->
         event_is_set pm = false ->
         result_timeout < now pm - start_time w ->
         wait_for_pool_results results w result_timeout = Raised TimeoutError)
  /\ (forall (A KV R : Type) (empty_args : A)
             (fn : A -> kwargs_dict KV -> result R)
             (args : list A) (kwargs : list (kwargs_dict KV))
             (process_count pool_maxtasksperchild : option Z)
             (in_order : bool) (timeout : Q),
         timeout * inject_Z (Z.of_nat (Nat.max (List.length (combine args kwargs)) 1))
         < inject_Z (Z.of_nat (List.length (polls w))) * (5 # 100) ->
         process_pool_wrapper empty_args fn (Some args) (Some kwargs)
                              process_count pool_maxtasksperchild
                              in_order timeout w <> Waiting)
  /\ (forall (A KV R : Type) (empty_args : A)
             (fn : A -> kwargs_dict KV -> result R)
             (args : list A) (kwargs : list (kwargs_dict KV))
             (process_count pool_maxtasksperchild : option Z)
             (in_order : bool) (timeout start : Q) (p : poll) (trace : list poll),
         ProcessPool process_count pool_maxtasksperchild = Ok fresh_pool ->
         event_is_set p = false ->
         timeout * inject_Z (Z.of_nat (Nat.max (List.length (combine args kwargs)) 1))
         < now p - start ->
         wait_for_pool_results
           (submit_out_order fn args kwargs) (mkWorld start (p :: trace))
           (timeout * inject_Z (Z.of_nat (Nat.max (List.length (combine args kwargs)) 1)))
         = Raised TimeoutError
         /\ process_pool_wrapper empty_args fn (Some args) (Some kwargs)
                                 process_count pool_maxtasksperchild
                                 in_order timeout (mkWorld start (p :: trace))
            = Raised AttributeError)
  /\ (forall (A KV R : Type) (empty_args : A)
             (fn : A -> kwargs_dict KV -> result R)
             (args : list A) (kwargs : list (kwargs_dict KV)) (rs : list R)
             (process_count pool_maxtasksperchild : option Z)
             (timeout start : Q) (p : poll) (trace : list poll),
         ProcessPool process_count pool_maxtasksperchild = Ok fresh_pool ->
         Forall2 (fun r ak => fn (fst ak) (snd ak) = Ok r) rs (combine args kwargs) ->
         event_is_set p = false ->
         now p - start
         <= timeout * inject_Z (Z.of_nat (Nat.max (List.length (combine args kwargs)) 1)) ->
         (forall j, ready p j = true) ->
         process_pool_wrapper empty_args fn (Some args) (Some kwargs)
                              process_count pool_maxtasksperchild
                              false timeout (mkWorld start (p :: trace))
         = Returned rs).
Proof.
  intros Hclock Hne Hlt.
  split; [|split; [|split; [|split; [|split]]]].
  - unfold wait_for_pool_results. now apply wait_loop_bounded.
  - intros start n_start rr p trace He Ht. now apply wait_loop_timeout.
  - intros res m pm Hs Hin Hq Hpm He Ht.
    unfold wait_for_pool_results.
    apply (@wait_loop_times_out _ (start_time w) result_timeout _ m (polls w)
                                results [] res pm); try assumption.
    simpl. lia.
  - intros A KV R ea fn args kwargs pc mt in_order timeout Hb.
    unfold process_pool_wrapper. simpl.
    destruct in_order.
    + unfold _process_pool_wrapper_kwargs_in_order. simpl.
      destruct (ProcessPool pc mt) as [pool|e0]; [|discriminate].
      rewrite submit_in_order_length.
      destruct (wait_for_pool_results _ w _) as [tagged|e|] eqn:W.
      * destruct (sorted_by_index tagged); discriminate.
      * unfold clean_up_and_exit. simpl. discriminate.
      * exfalso. revert W. unfold wait_for_pool_results, batch_timeout.
        now apply wait_loop_bounded.
    + unfold _process_pool_wrapper_kwargs_out_order. simpl.
      destruct (ProcessPool pc mt) as [pool|e0]; [|discriminate].
      rewrite submit_out_order_length.
      destruct (wait_for_pool_results _ w _) as [got|e|] eqn:W.
      * discriminate.
      * unfold clean_up_and_exit. simpl. discriminate.
      * exfalso. revert W. unfold wait_for_pool_results, batch_timeout.
        now apply wait_loop_bounded.
  - intros A KV R ea fn args kwargs pc mt in_order timeout start p trace Hpool He Ht.
    split.
    + unfold wait_for_pool_results. cbn [polls start_time].
      now apply wait_loop_timeout.
    + now apply wrapper_batch_timeout.
  - intros A KV R ea fn args kwargs rs pc mt timeout start p trace Hpool Hrs He Ht Hr.
    apply out_order_returns; try assumption.
    apply Forall2_length in Hrs. now rewrite Hrs.
Qed.

Lemma wait_is_bounded_by_timeout_witness :
  wait_for_pool_results [mkAsync 0 (Ok 7%Z)] (stalled_world 3) (1 # 10)
  = Raised TimeoutError
  /\ process_pool_wrapper 0%Z example_fn (Some [1%Z; 2%Z]) (Some [no_keywords; no_keywords])
                          (Some 2%Z) (Some 4%Z) true (4 # 100) (stalled_world 3)
     = Raised AttributeError
  /\ (4 # 100) < now (mkPoll false (5 # 100) (fun _ => true)) - 0
  /\ process_pool_wrapper 0%Z example_fn (Some [1%Z; 2%Z]) (Some [no_keywords; no_keywords])
                          (Some 2%Z) (Some 4%Z) false (4 # 100) prompt_world
     = Returned [1%Z; 2%Z]
  /\ wait_for_pool_results [mkAsync 0 (Ok 7%Z)] (stalled_world 3) (1 # 10) <> Waiting.
Proof.
  assert (H : clock_advances (start_time (stalled_world 3)) (polls (stalled_world 3))).
  { intros k p H.
    destruct k as [|[|[|k]]]; simpl in H;
      [injection H as <-; simpl; apply Qle_refl ..
      | destruct k; discriminate]. }
  assert (Hne : polls (stalled_world 3) <> []) by discriminate.
  assert (Hlt : (1 # 10) < inject_Z (Z.of_nat (List.length (polls (stalled_world 3))))
                           * (5 # 100)) by reflexivity.
  destruct (@wait_is_bounded_by_timeout Z [mkAsync 0 (Ok 7%Z)] (stalled_world 3) (1 # 10)
                                        H Hne Hlt)
    as [Hw [_ [_ [_ [_ Hscaled]]]]].
  split; [vm_compute; reflexivity|].
  split; [vm_compute; reflexivity|].
  split; [reflexivity|].
  split; [|exact Hw].
  apply (Hscaled Z bool Z 0%Z example_fn [1%Z; 2%Z] [no_keywords; no_keywords]
                 [1%Z; 2%Z] (Some 2%Z) (Some 4%Z) (4 # 100) 0
                 (mkPoll false (5 # 100) (fun _ => true)) []).
  - reflexivity.
  - repeat constructor.
  - reflexivity.
  - vm_compute. discriminate.
  - reflexivity.
Defined.

End PoolFacts.

(** * Properties of the wide-matrix masks *)

Module MaskFacts.

Import MatrixUtils ListFacts.

(** *** Arrays *)

Lemma item_broadcast_rows (v : list bool) (m n i j : nat) :
  (i < m)%nat -> item (mkArray (m, n) (repeat v m)) i j = nth j v false.
Proof. intros H. unfold item. simpl. now rewrite nth_repeat_lt. Qed.

Lemma item_transpose (a : ndarray) (i j : nat) :
  (i < snd (shape a))%nat -> (j < fst (shape a))%nat ->
  item (transpose a) i j = item a j i.
Proof.
  intros Hi Hj. unfold transpose, item at 1. simpl.
  rewrite (nth_map_seq _ [] Hi). now rewrite nth_map_seq.
Qed.

Lemma item_elementwise (f : bool -> bool -> bool) (a b : ndarray) (n i j : nat) :
  shape a = (n, n) -> shape b = (n, n) -> (i < n)%nat -> (j < n)%nat ->
  exists mask, elementwise f a b = Ok mask
               /\ shape mask = (n, n)
               /\ item mask i j = f (item a i j) (item b i j).
Proof.
  intros Ha Hb Hi Hj. unfold elementwise. rewrite Ha, Hb. simpl.
  unfold broadcast_dim. rewrite Nat.eqb_refl.
  eexists. split; [reflexivity|]. split; [reflexivity|].
  unfold item at 1. simpl.
  rewrite (nth_map_seq _ [] Hi), nth_map_seq by exact Hj.
  unfold item_bc. rewrite Ha, Hb. simpl.
  destruct (n =? 1) eqn:E; [|reflexivity].
  apply Nat.eqb_eq in E. subst n.
  replace i with 0%nat by lia. replace j with 0%nat by lia. reflexivity.
Qed.

Lemma nth_isin (labels zones : list pyval) (j : nat) (d : pyval) :
  (j < List.length labels)%nat ->
  nth j (isin labels zones) false = existsb (pyval_eqb (nth j labels d)) zones.
Proof.
  intros H. unfold isin.
  rewrite (nth_indep _ false (existsb (pyval_eqb d) zones))
    by (now rewrite length_map).
  now rewrite (map_nth (fun x => existsb (pyval_eqb x) zones) labels d j).
Qed.

(** *** [get_wide_mask] *)

Section WideMask.

Variable np_array : pyobj -> Dtype -> result (list pyval).



(** On a square frame the mask is the one the docstring describes. *)
Lemma get_wide_mask_square (df : DataFrame) (zones col_zones index_zones : option pyobj)
      (c i : pyobj) (colz idxz : list pyval) (d : pyval) :
  validate_zones zones col_zones index_zones = Ok (c, i) ->
  np_array c (col_dtype df) = Ok colz ->
  np_array i (dtype (index df)) = Ok idxz ->
  fst (df_shape df) = snd (df_shape df) ->
  exists mask,
    get_wide_mask np_array df zones col_zones index_zones and_ = Ok mask
    /\ shape mask = df_shape df
    /\ forall row col,
        (row < fst (df_shape df))%nat -> (col < snd (df_shape df))%nat ->
        item mask row col
        = existsb (pyval_eqb (nth col (labels (columns df)) d)) colz
          && existsb (pyval_eqb (nth row (labels (index df)) d)) idxz.
Proof.
  intros Hz Hc Hi Hsq. unfold get_wide_mask.
  rewrite Hz. simpl. rewrite Hc, Hi. simpl.
  unfold df_shape in *. simpl in Hsq.
  set (n := List.length (labels (columns df))) in *.
  unfold broadcast_to. simpl.
  assert (Hlc : List.length (isin (labels (columns df)) colz) = n)
    by (unfold isin; now rewrite length_map).
  assert (Hli : List.length (isin (labels (index df)) idxz) = n)
    by (unfold isin; rewrite length_map; exact Hsq).
  rewrite Hlc, Hli, Nat.eqb_refl. simpl. rewrite Hsq.
  set (cm := mkArray (n, n) (repeat (isin (labels (columns df)) colz) n)).
  set (im := mkArray (n, n) (repeat (isin (labels (index df)) idxz) n)).
  destruct n as [|n'] eqn:En.
  - eexists. split; [reflexivity|]. split; [reflexivity|]. intros row col Hr; lia.
  - assert (H0 : (0 < S n')%nat) by lia.
    destruct (@item_elementwise andb cm (transpose im) (S n') 0 0
                                eq_refl eq_refl H0 H0) as [mask [Hm [Hs _]]].
    exists mask. unfold and_. split; [exact Hm|]. split; [exact Hs|].
    intros row col Hr Hcol.
    destruct (@item_elementwise andb cm (transpose im) (S n') row col
                                eq_refl eq_refl Hr Hcol) as [mask' [Hm' [_ Hit]]].
    rewrite Hm in Hm'. injection Hm' as <-.
    rewrite Hit, item_transpose by (simpl; lia).
    unfold cm, im. rewrite !item_broadcast_rows by lia.
    rewrite (nth_isin _ colz d) by (fold n; lia).
    rewrite (nth_isin _ idxz d) by lia.
    reflexivity.
Qed.

(** X10. On a frame that is not square and does not have exactly one row,
    [get_wide_mask] raises the ValueError of numpy's broadcast although the
    zones are valid and can be cast, whatever the join function: the index
    mask cannot be broadcast to the shape of the frame. *)
Lemma get_wide_mask_rectangular (df : DataFrame)
      (zones col_zones index_zones : option pyobj)
      (join_fn : ndarray -> ndarray -> result ndarray)
      (c i : pyobj) (colz idxz : list pyval) :
  validate_zones zones col_zones index_zones = Ok (c, i) ->
  np_array c (col_dtype df) = Ok colz ->
  np_array i (dtype (index df)) = Ok idxz ->
  fst (df_shape df) <> snd (df_shape df) ->
  fst (df_shape df) <> 1%nat ->
  get_wide_mask np_array df zones col_zones index_zones join_fn
  = Raise (ValueError "operands could not be broadcast together with remapped shapes").
Proof.
  intros Hz Hc Hi Hsq H1. unfold get_wide_mask.
  rewrite Hz. simpl. rewrite Hc, Hi. simpl.
  unfold df_shape in *. simpl in Hsq, H1.
  unfold broadcast_to. simpl. unfold isin. rewrite !length_map, Nat.eqb_refl. simpl.
  apply Nat.eqb_neq in Hsq, H1. now rewrite Hsq, H1.
Qed.

(** C8. [get_external_mask] returns what [get_internal_mask] returns, on
    every frame or array and every zones argument: the join function handed
    over positionally lands in [col_zones], where it is overwritten by
    [zones] (or, with [zones] None, rejected together with the missing
    [index_zones]); with a zone list both helpers are the mask of that list
    on both axes joined with the default bitwise and. *)
Theorem external_mask_is_internal_mask (df : matrix) (zones : option pyobj) :
  get_external_mask np_array df zones = get_internal_mask np_array df zones
  /\ (forall z, zones = Some z ->
                get_external_mask np_array df zones
                = match df with
                  | Frame d => get_wide_mask np_array d None (Some z) (Some z) and_
                  | Array sh => get_wide_mask_np np_array sh None (Some z) (Some z) and_
                  end)
  /\ (zones = None ->
      get_external_mask np_array df zones
      = Raise (ValueError "If zones is not set, both col_zones and row_zones need to be set.")).
Proof.
  unfold get_external_mask, get_internal_mask, get_wide_mask_np, get_wide_mask.
  destruct df as [d|sh]; destruct zones as [z|];
    (split; [reflexivity|split; [intros z' Hz | intros Hz]]);
    try discriminate; try (injection Hz as <-); reflexivity.
Qed.


End WideMask.

(** *** Frames that are not square *)

(** C9.  The code at two frames that are not square, with [zones] set and
    castable: on a frame of one row and two columns [get_wide_mask] returns a
    mask whose shape, (2, 2), is not the shape of the frame, against its
    docstring (the mask will be the same shape as df); on a frame of two rows
    and three columns it raises a ValueError although [zones] is set: the
    index mask, as long as the index, is broadcast to the shape of the frame
    before it is transposed. *)
Lemma get_wide_mask_not_square :
  (exists mask,
      get_wide_mask np_array_int (int_frame 1 2) (Some (PyList [PInt 0])) None None and_
      = Ok mask
      /\ shape mask = (2%nat, 2%nat)
      /\ shape mask <> df_shape (int_frame 1 2))
  /\ get_wide_mask np_array_int (int_frame 2 3) (Some (PyList [PInt 0])) None None and_
     = Raise (ValueError "operands could not be broadcast together with remapped shapes").
Proof.
  split; [|reflexivity].
  eexists. split; [reflexivity|]. split; [reflexivity | discriminate].
Qed.


(** On a square frame the mask comes out as documented. *)
Example get_wide_mask_2x2 :
  get_wide_mask np_array_int (int_frame 2 2) (Some (PyList [PInt 0])) None None and_
  = Ok (mkArray (2%nat, 2%nat) [[true; false]; [false; false]]).
Proof. reflexivity. Qed.

(** The bitwise or, had it reached [join_fn], gives another mask than the
    one [get_external_mask] returns. *)
Example or_join_would_differ :
  get_wide_mask np_array_int (int_frame 2 2) (Some (PyList [PInt 0])) None None or_
  = Ok (mkArray (2%nat, 2%nat) [[true; true]; [true; false]])
  /\ get_external_mask np_array_int (Frame (int_frame 2 2)) (Some (PyList [PInt 0]))
     = Ok (mkArray (2%nat, 2%nat) [[true; false]; [false; false]])
  /\ get_external_mask np_array_int (Array (2%nat, 2%nat)) None
     = Raise (ValueError "If zones is not set, both col_zones and row_zones need to be set.").
Proof. repeat split. Qed.

End MaskFacts.

(** * Properties of the demand-vector engine *)

Module DVectorFacts.

Import DVectors ListFacts.

(** *** Sums over lists *)

Lemma Qsum_ext (X : Type) (f g : X -> Q) (l : list X) :
  (forall x, In x l -> f x == g x) -> Qsum f l == Qsum g l.
Proof.
  induction l as [|x l IH]; intros H; simpl; [reflexivity|].
  rewrite (H x (or_introl eq_refl)), IH; [reflexivity|].
  intros y Hy. apply H. now right.
Qed.

Lemma Qsum_zero (X : Type) (l : list X) : Qsum (fun _ => 0) l == 0.
Proof. induction l as [|x l IH]; simpl; [reflexivity|]. rewrite IH. ring. Qed.

Lemma Qsum_plus (X : Type) (f g : X -> Q) (l : list X) :
  Qsum (fun x => f x + g x) l == Qsum f l + Qsum g l.
Proof. induction l as [|x l IH]; simpl; [ring|]. rewrite IH. ring. Qed.

Lemma Qsum_scale (X : Type) (c : Q) (f : X -> Q) (l : list X) :
  Qsum (fun x => c * f x) l == c * Qsum f l.
Proof. induction l as [|x l IH]; simpl; [ring|]. rewrite IH. ring. Qed.

Lemma Qsum_swap (X Y : Type) (f : X -> Y -> Q) (lx : list X) (ly : list Y) :
  Qsum (fun x => Qsum (fun y => f x y) ly) lx
  == Qsum (fun y => Qsum (fun x => f x y) lx) ly.
Proof.
  induction lx as [|x lx IH].
  - simpl. symmetry. apply Qsum_zero.
  - change (Qsum (fun x0 => Qsum (fun y => f x0 y) ly) (x :: lx))
      with (Qsum (fun y => f x y) ly + Qsum (fun x0 => Qsum (fun y => f x0 y) ly) lx).
    rewrite IH, <- Qsum_plus. reflexivity.
Qed.

Lemma Qsum_filter (X : Type) (p : X -> bool) (f : X -> Q) (l : list X) :
  Qsum f (filter p l) == Qsum (fun x => if p x then f x else 0) l.
Proof.
  induction l as [|x l IH]; simpl; [reflexivity|].
  destruct (p x); simpl; rewrite IH; ring.
Qed.

(** A sum over the positions of a list is the sum over its elements. *)
Lemma Qsum_positions (X : Type) (f : X -> Q) (d : X) (l : list X) :
  Qsum (fun i => f (nth i l d)) (seq 0 (List.length l)) == Qsum f l.
Proof.
  induction l as [|x l IH]; simpl; [reflexivity|].
  rewrite <- IH, <- seq_shift.
  apply Qplus_comp; [reflexivity|].
  generalize (seq 0 (List.length l)). intros idx.
  induction idx as [|i idx IHi]; simpl; [reflexivity|]. now rewrite IHi.
Qed.

(** In a list without duplicates exactly one element equals a member. *)
Lemma Qsum_indicator (X : Type) (eqb : X -> X -> bool) (a : Q) (x : X) (l : list X) :
  (forall u v, eqb u v = true <-> u = v) ->
  distinct eqb l = true -> member eqb x l = true ->
  Qsum (fun t => if eqb x t then a else 0) l == a.
Proof.
  intros Heq.
  induction l as [|y l IH]; simpl; intros Hd Hm; [discriminate|].
  apply andb_true_iff in Hd. destruct Hd as [Hy Hd].
  destruct (eqb x y) eqn:E.
  - apply Heq in E. subst y.
    rewrite (@Qsum_ext _ _ (fun _ => 0)); [rewrite Qsum_zero; ring|].
    intros t Ht. destruct (eqb x t) eqn:Et; [|reflexivity].
    apply Heq in Et. subst t. exfalso.
    apply negb_true_iff in Hy. unfold member in Hy.
    assert (Hex : existsb (eqb x) l = true).
    { apply existsb_exists. exists x. split; [exact Ht | now apply Heq]. }
    congruence.
  - simpl in Hm. rewrite IH by assumption. ring.
Qed.

Lemma segment_eqb_eq (a b : list Z) : segment_eqb a b = true <-> a = b.
Proof.
  unfold segment_eqb. revert b.
  induction a as [|x a IH]; intros [|y b]; simpl; split; intros H;
    try reflexivity; try discriminate.
  - apply andb_true_iff in H. destruct H as [Hl H].
    apply andb_true_iff in H. destruct H as [Hxy H].
    apply Z.eqb_eq in Hxy. subst y. f_equal.
    apply IH. now rewrite Hl, H.
  - injection H as -> ->.
    assert (Hb : b = b) by reflexivity.
    apply IH in Hb. apply andb_true_iff in Hb. destruct Hb as [Hl Hb].
    simpl in Hl. now rewrite Hl, Z.eqb_refl, Hb.
Qed.

Lemma Qsum_map (X : Type) (g : X -> Q) (l : list X) :
  Qsum (fun x => x) (map g l) == Qsum g l.
Proof. induction l as [|x l IH]; simpl; [reflexivity|]. now rewrite IH. Qed.

(** The sum of a stored row over its positions. *)
Lemma Qsum_row (X : Type) (g : X -> Q) (l : list X) :
  Qsum (fun i => nth i (map g l) 0) (seq 0 (List.length l)) == Qsum g l.
Proof.
  rewrite <- (length_map g l).
  rewrite (Qsum_positions (fun x => x) 0 (map g l)). apply Qsum_map.
Qed.

Lemma member_nth (X : Type) (eqb : X -> X -> bool) (P : X -> bool)
      (l : list X) (d : X) (i : nat) :
  forallb P l = true -> (i < List.length l)%nat -> P (nth i l d) = true.
Proof.
  intros H Hi. rewrite forallb_forall in H. apply H. now apply nth_In.
Qed.

(** *** Aggregation *)

Lemma aggregate_zone_total (V : DVector) (C : SegmentationLevel) (z : nat) :
  unique_segments C = true ->
  projects_into (segmentation V) C = true ->
  Qsum (fun t => Qsum (fun s => cell V z s) (sources_of (segmentation V) C t))
       (valid_segments C)
  == Qsum (fun s => cell V z s) (seq 0 (n_segments V)).
Proof.
  intros Hu Hproj.
  unfold projects_into in Hproj.
  unfold sources_of. fold (n_segments V).
  rewrite (@Qsum_ext _ _
             (fun t => Qsum (fun s => if segment_eqb
                                           (project (segmentation V)
                                                    (nth s (valid_segments (segmentation V)) [])
                                                    C) t
                                      then cell V z s else 0)
                            (seq 0 (n_segments V)))).
  2: { intros t _. apply Qsum_filter. }
  rewrite Qsum_swap.
  apply Qsum_ext. intros s Hs. apply in_seq in Hs.
  apply Qsum_indicator.
  - exact segment_eqb_eq.
  - exact Hu.
  - apply (member_nth segment_eqb
             (fun s0 => member segment_eqb (project (segmentation V) s0 C) (valid_segments C))
             _ [] Hproj).
    unfold n_segments in Hs. lia.
Qed.

(** C1, as amended. Aggregating a vector to a segmentation it can be
    aggregated to, onto whose valid segments every valid segment of the
    vector's segmentation projects, gives a vector over the same zoning and
    the target segmentation with the same total across all zones and
    segments; the segments [{p:1,m:1}:10] and [{p:1,m:2}:20] aggregate to
    [{p:1}:30]. *)
Theorem aggregate_conserves_total (V : DVector) (C : SegmentationLevel) :
  unique_segments C = true ->
  can_aggregate_to (segmentation V) C = true ->
  projects_into (segmentation V) C = true ->
  (exists V',
      aggregate V C = Done V'
      /\ zoning_system V' = zoning_system V
      /\ segmentation V' = C
      /\ dv_sum V' == dv_sum V)
  /\ aggregate dvec_p_m seg_p = Done (mkDVector lad_one_zone seg_p [[30]]).
Proof.
  intros Hu Hc Hp. split; [|reflexivity]. unfold aggregate. rewrite Hc.
  eexists. split; [reflexivity|]. split; [reflexivity|]. split; [reflexivity|].
  unfold dv_sum, n_zones, n_segments at 1. simpl.
  apply Qsum_ext. intros z Hz. apply in_seq in Hz.
  rewrite (@Qsum_ext _ _
             (fun i => nth i (map (fun t => Qsum (fun s => cell V z s)
                                                 (sources_of (segmentation V) C t))
                                  (valid_segments C)) 0)).
  2: { intros i _. unfold cell at 1. simpl.
       rewrite (nth_map_seq _ []) by (unfold n_zones; lia). reflexivity. }
  rewrite Qsum_row. now apply aggregate_zone_total.
Qed.

Lemma aggregate_conserves_total_witness :
  unique_segments seg_p = true
  /\ can_aggregate_to (segmentation dvec_p_m) seg_p = true
  /\ projects_into (segmentation dvec_p_m) seg_p = true
  /\ aggregate dvec_p_m seg_p = Done (mkDVector lad_one_zone seg_p [[30]])
  /\ exists V', aggregate dvec_p_m seg_p = Done V' /\ dv_sum V' == dv_sum dvec_p_m.
Proof.
  split; [reflexivity|]. split; [reflexivity|]. split; [reflexivity|].
  split; [reflexivity|].
  destruct (proj1 (@aggregate_conserves_total dvec_p_m seg_p eq_refl eq_refl eq_refl))
    as [V' [Ha [_ [_ Hs]]]].
  exists V'. split; assumption.
Defined.

(** C1, as stated, fails: [can_aggregate_to] holds from the segments
    [{p:1,m:1}] and [{p:2,m:1}] to a segmentation [{p}] whose only valid
    segment is [{p:1}], and the aggregation keeps the 10 of the first segment
    and drops the 20 of the second, whose projection is no segment of the
    target. *)
Lemma aggregate_drops_unmatched_segments :
  unique_segments seg_p = true
  /\ can_aggregate_to (segmentation dvec_p12_m) seg_p = true
  /\ projects_into (segmentation dvec_p12_m) seg_p = false
  /\ aggregate dvec_p12_m seg_p = Done (mkDVector lad_one_zone seg_p [[10]])
  /\ dv_sum dvec_p12_m == 30
  /\ dv_sum (mkDVector lad_one_zone seg_p [[10]]) == 10
  /\ ~ dv_sum (mkDVector lad_one_zone seg_p [[10]]) == dv_sum dvec_p12_m.
Proof.
  split; [reflexivity|]. split; [reflexivity|]. split; [reflexivity|].
  split; [reflexivity|]. split; [reflexivity|]. split; [reflexivity|].
  intros H. vm_compute in H. discriminate.
Qed.

(** *** Zone translation *)

Lemma nth_map_lt (X Y : Type) (f : X -> Y) (l : list X) (dx : X) (dy : Y) (i : nat) :
  (i < List.length l)%nat -> nth i (map f l) dy = f (nth i l dx).
Proof.
  intros H. rewrite (nth_indep _ dy (f dx)) by (now rewrite length_map).
  apply map_nth.
Qed.

(** What one source value [c] sends to all the target zones together: [c]
    times the sum of the weights of its source zone. *)
Lemma split_over_targets (table : TranslationTable) (targets : list string)
      (a : string) (c : Q) :
  distinct String.eqb targets = true ->
  forallb (fun o => member String.eqb (target_zone o) targets) table = true ->
  Qsum (fun b => Qsum (fun o => c * weight o) (overlaps table a b)) targets
  == c * Qsum weight (filter (fun o => String.eqb (source_zone o) a) table).
Proof.
  intros Hd Hin. unfold overlaps.
  rewrite (@Qsum_ext _ _
             (fun b => Qsum (fun o => if String.eqb (target_zone o) b
                                      then (if String.eqb (source_zone o) a
                                            then c * weight o else 0)
                                      else 0) table)).
  2: { intros b _. rewrite Qsum_filter. apply Qsum_ext. intros o _.
       destruct (String.eqb (source_zone o) a), (String.eqb (target_zone o) b);
         reflexivity. }
  rewrite Qsum_swap, <- Qsum_scale, Qsum_filter.
  apply Qsum_ext. intros o Ho.
  apply Qsum_indicator.
  - exact String.eqb_eq.
  - exact Hd.
  - rewrite forallb_forall in Hin. now apply Hin.
Qed.

Lemma forallb_and_r (X : Type) (P Q : X -> bool) (l : list X) :
  forallb (fun x => P x && Q x) l = true -> forallb Q l = true.
Proof.
  rewrite !forallb_forall. intros H x Hx.
  specialize (H x Hx). now apply andb_true_iff in H.
Qed.

Lemma translated_cell_stored (V : DVector) (Z : ZoningSystem)
      (table : TranslationTable) (w : weighting) (b s : nat) :
  (b < List.length (zone_ids Z))%nat -> (s < n_segments V)%nat ->
  cell (mkDVector Z (segmentation V)
                  (map (fun b0 => map (fun s0 => translated_cell V table w b0 s0)
                                      (seq 0 (n_segments V)))
                       (zone_ids Z))) b s
  = translated_cell V table w (nth b (zone_ids Z) EmptyString) s.
Proof.
  intros Hb Hs. unfold cell. cbn [values].
  rewrite (nth_map_lt _ _ EmptyString [] Hb).
  now rewrite nth_map_seq.
Qed.

Lemma translated_total (V : DVector) (Z : ZoningSystem) (table : TranslationTable) :
  unique_zones Z = true ->
  table_between table (zoning_system V) Z = true ->
  weights_sum_to_one table (zoning_system V) = true ->
  Qsum (fun b => Qsum (fun s => translated_cell V table weighted b s)
                      (seq 0 (n_segments V)))
       (zone_ids Z)
  == dv_sum V.
Proof.
  intros Hu Hb Hw.
  unfold dv_sum. rewrite Qsum_swap, (Qsum_swap (fun z s => cell V z s)).
  apply Qsum_ext. intros s _.
  unfold translated_cell. rewrite Qsum_swap.
  apply Qsum_ext. intros z Hz. apply in_seq in Hz.
  cbn [share].
  rewrite split_over_targets;
    [| exact Hu | exact (forallb_and_r _ _ _ Hb)].
  unfold weights_sum_to_one in Hw. rewrite forallb_forall in Hw.
  assert (Hone : Qeq_bool
                   (Qsum weight
                         (filter (fun o => String.eqb (source_zone o)
                                                      (nth z (zone_ids (zoning_system V)) EmptyString))
                                 table)) 1 = true).
  { apply Hw. apply nth_In. unfold n_zones in Hz. lia. }
  apply Qeq_bool_iff in Hone. rewrite Hone. ring.
Qed.

(** C2. A weighted translation to a zoning for which a table exists gives,
    at each target zone and segment, the sum over the source zones of value
    times weight; when the weights of each source zone sum to 1 the grand
    total is conserved.  One zone with value 100 and weights 0.3 and 0.7
    gives 30 and 70. *)
Theorem translate_zoning_weighted_conserves :
  (forall (translation : ZoningSystem -> ZoningSystem -> option TranslationTable)
          (V : DVector) (Z : ZoningSystem) (table : TranslationTable),
      translation (zoning_system V) Z = Some table ->
      unique_zones Z = true ->
      table_between table (zoning_system V) Z = true ->
      exists V',
        translate_zoning translation V Z weighted = Done V'
        /\ zoning_system V' = Z
        /\ segmentation V' = segmentation V
        /\ (forall b s,
               (b < n_zones V')%nat -> (s < n_segments V)%nat ->
               cell V' b s
               == Qsum (fun z =>
                          Qsum (fun o => cell V z s * weight o)
                               (overlaps table
                                         (nth z (zone_ids (zoning_system V)) EmptyString)
                                         (nth b (zone_ids Z) EmptyString)))
                       (seq 0 (n_zones V)))
        /\ (weights_sum_to_one table (zoning_system V) = true ->
            dv_sum V' == dv_sum V))
  /\ (exists V',
         translate_zoning split_registry dvec_e1 split_zoning weighted = Done V'
         /\ zone_ids (zoning_system V') = ["E1a"; "E1b"]%string
         /\ cell V' 0 0 == 30
         /\ cell V' 1 0 == 70).
Proof.
  split.
  - intros translation V Z table Ht Hu Hb.
    unfold translate_zoning. rewrite Ht.
    eexists. split; [reflexivity|]. split; [reflexivity|]. split; [reflexivity|].
    split.
    + intros b s Hlt Hs. unfold n_zones in Hlt. cbn [zoning_system] in Hlt.
      rewrite translated_cell_stored by assumption. reflexivity.
    + intros Hw.
      rewrite <- (translated_total V Z table Hu Hb Hw).
      unfold dv_sum at 1. unfold n_zones at 1, n_segments at 1.
      cbn [zoning_system segmentation]. fold (n_segments V).
      rewrite <- (Qsum_positions
                    (fun b => Qsum (fun s => translated_cell V table weighted b s)
                                   (seq 0 (n_segments V)))
                    EmptyString (zone_ids Z)).
      apply Qsum_ext. intros b Hlt. apply in_seq in Hlt.
      apply Qsum_ext. intros s Hs. apply in_seq in Hs.
      rewrite translated_cell_stored by lia. reflexivity.
  - eexists. split; [reflexivity|]. split; [reflexivity|].
    split; reflexivity.
Qed.

Lemma translate_zoning_weighted_conserves_witness :
  split_registry (zoning_system dvec_e1) split_zoning = Some split_table
  /\ unique_zones split_zoning = true
  /\ table_between split_table (zoning_system dvec_e1) split_zoning = true
  /\ weights_sum_to_one split_table (zoning_system dvec_e1) = true
  /\ exists V',
      translate_zoning split_registry dvec_e1 split_zoning weighted = Done V'
      /\ dv_sum V' == dv_sum dvec_e1.
Proof.
  split; [reflexivity|]. split; [reflexivity|]. split; [reflexivity|].
  split; [reflexivity|].
  destruct (proj1 translate_zoning_weighted_conserves
                  split_registry dvec_e1 split_zoning split_table
                  eq_refl eq_refl eq_refl)
    as [V' [Ht [_ [_ [_ Hs]]]]].
  exists V'. split; [exact Ht | exact (Hs eq_refl)].
Defined.

(** *** Division *)

Lemma mapM_seq_done (Y : Type) (f : nat -> dres Y) (d : Y) (n : nat) :
  forall s ys,
    mapM f (seq s n) = Done ys ->
    List.length ys = n /\ forall i, (i < n)%nat -> f (s + i)%nat = Done (nth i ys d).
Proof.
  induction n as [|n IH]; intros s ys H; simpl in H.
  - injection H as <-. split; [reflexivity | intros i Hi; lia].
  - destruct (f s) as [y|e] eqn:Ef; simpl in H; [|discriminate].
    destruct (mapM f (seq (S s) n)) as [ys'|e] eqn:Em; simpl in H; [|discriminate].
    injection H as <-.
    destruct (IH _ _ Em) as [Hl Hn].
    split; [simpl; now rewrite Hl|].
    intros [|i] Hi; simpl.
    + now rewrite Nat.add_0_r.
    + rewrite Nat.add_succ_r. apply (Hn i). lia.
Qed.

Lemma mapM_seq_total (Y : Type) (f : nat -> dres Y) (n : nat) :
  forall s,
    (forall i, (i < n)%nat -> exists y, f (s + i)%nat = Done y) ->
    exists ys, mapM f (seq s n) = Done ys.
Proof.
  induction n as [|n IH]; intros s H; simpl.
  - exists []. reflexivity.
  - destruct (H 0%nat) as [y Hy]; [lia|]. rewrite Nat.add_0_r in Hy. rewrite Hy. simpl.
    destruct (IH (S s)) as [ys Hys].
    { intros i Hi. destruct (H (S i)) as [y' Hy']; [lia|].
      exists y'. now rewrite Nat.add_succ_r in Hy'. }
    rewrite Hys. simpl. eexists. reflexivity.
Qed.

Section Division.

Variable nonzero_by_zero : Q -> dres Q.

Lemma cell_div_zero (a b : Q) :
  a == 0 -> b == 0 -> cell_div nonzero_by_zero a b = Done 0.
Proof.
  intros Ha Hb. unfold cell_div.
  apply Qeq_bool_iff in Ha, Hb. now rewrite Ha, Hb.
Qed.

(** The segmentation of the result of a binary operator, when there is one. *)
Lemma combine_done (op : operator) (A B R : DVector) :
  combine nonzero_by_zero op A B = Done R ->
  n_zones R = n_zones A
  /\ forall z s,
      (z < n_zones R)%nat -> (s < n_segments R)%nat ->
      apply_operator nonzero_by_zero op (left_operand A B z s) (right_operand A B z s)
      = Done (cell R z s).
Proof.
  unfold combine.
  destruct (negb _); [discriminate|].
  destruct (finer A B) as [fine|]; [|discriminate].
  destruct (mapM _ (seq 0 (n_zones A))) as [rows|e] eqn:Em; simpl; [|discriminate].
  intros H. injection H as <-.
  split; [reflexivity|].
  unfold n_zones at 1, n_segments. cbn [zoning_system segmentation].
  fold (n_zones A).
  intros z s Hz Hs.
  destruct (mapM_seq_done _ [] _ _ Em) as [_ Hrow].
  specialize (Hrow z Hz). simpl in Hrow.
  destruct (mapM_seq_done _ 0 _ _ Hrow) as [_ Hcell].
  specialize (Hcell s Hs). simpl in Hcell.
  exact Hcell.
Qed.

Lemma combine_total (op : operator) (A B : DVector) (fine : SegmentationLevel) :
  compatible A B = true ->
  finer A B = Some fine ->
  (forall z s,
      (z < n_zones A)%nat -> (s < List.length (valid_segments fine))%nat ->
      exists v, apply_operator nonzero_by_zero op
                               (left_operand A B z s) (right_operand A B z s) = Done v) ->
  exists R, combine nonzero_by_zero op A B = Done R.
Proof.
  intros Hc Hf Hcells. unfold compatible in Hc.
  apply andb_true_iff in Hc. destruct Hc as [Hz _].
  unfold combine. rewrite Hz, Hf. simpl.
  destruct (@mapM_seq_total _
              (fun z => mapM (fun s => apply_operator nonzero_by_zero op
                                                      (left_operand A B z s)
                                                      (right_operand A B z s))
                             (seq 0 (List.length (valid_segments fine))))
              (n_zones A) 0) as [rows Hrows].
  - intros z Hlt. apply mapM_seq_total. intros s Hs. now apply Hcells.
  - rewrite Hrows. simpl. eexists. reflexivity.
Qed.

End Division.

(** C6. For two vectors that can be divided, the quotient is exactly zero
    at every cell where both operands are zero, whatever is done about a
    nonzero numerator over zero; such a cell raises nothing, and the division
    as a whole succeeds as soon as the chosen policy gives a value wherever a
    nonzero numerator meets a zero denominator. *)
Theorem zero_over_zero_is_zero
        (nonzero_by_zero : Q -> dres Q) (A B : DVector) :
  compatible A B = true ->
  (forall a b, a == 0 -> b == 0 -> cell_div nonzero_by_zero a b = Done 0)
  /\ (forall R,
         combine nonzero_by_zero truediv A B = Done R ->
         forall z s,
           (z < n_zones R)%nat -> (s < n_segments R)%nat ->
           left_operand A B z s == 0 -> right_operand A B z s == 0 ->
           cell R z s = 0)
  /\ (forall fine,
         finer A B = Some fine ->
         (forall z s,
             (z < n_zones A)%nat -> (s < List.length (valid_segments fine))%nat ->
             right_operand A B z s == 0 -> ~ left_operand A B z s == 0 ->
             exists v, nonzero_by_zero (left_operand A B z s) = Done v) ->
         exists R, combine nonzero_by_zero truediv A B = Done R).
Proof.
  intros Hc. split; [|split].
  - intros a b. apply cell_div_zero.
  - intros R HR z s Hz Hs Hl Hr.
    destruct (combine_done _ _ _ _ HR) as [_ Hcell].
    specialize (Hcell z s Hz Hs). simpl in Hcell.
    rewrite (cell_div_zero nonzero_by_zero Hl Hr) in Hcell.
    now injection Hcell as <-.
  - intros fine Hf Hpolicy.
    apply (combine_total nonzero_by_zero truediv A B Hc Hf).
    intros z s Hz Hs. simpl. unfold cell_div.
    destruct (Qeq_bool (right_operand A B z s) 0) eqn:Er; [|eexists; reflexivity].
    destruct (Qeq_bool (left_operand A B z s) 0) eqn:El; [eexists; reflexivity|].
    apply (Hpolicy z s Hz Hs).
    + now apply Qeq_bool_iff.
    + intros H. apply Qeq_bool_iff in H. congruence.
Qed.

Lemma zero_over_zero_is_zero_witness :
  compatible dvec_numerator dvec_denominator = true
  /\ cell dvec_numerator 0 0 == 0
  /\ cell dvec_denominator 0 0 == 0
  /\ combine refuse_nonzero_by_zero truediv dvec_numerator dvec_denominator
     = Done (mkDVector lad_one_zone seg_p_m [[0; 5 / 2]])
  /\ cell (mkDVector lad_one_zone seg_p_m [[0; 5 / 2]]) 0 0 = 0.
Proof.
  split; [reflexivity|]. split; [reflexivity|]. split; [reflexivity|].
  split; [reflexivity|].
  destruct (@zero_over_zero_is_zero refuse_nonzero_by_zero
                                    dvec_numerator dvec_denominator eq_refl)
    as [_ [H _]].
  apply (H (mkDVector lad_one_zone seg_p_m [[0; 5 / 2]]) eq_refl 0%nat 0%nat).
  - unfold n_zones. simpl. lia.
  - unfold n_segments. simpl. lia.
  - reflexivity.
  - reflexivity.
Defined.

End DVectorFacts.

(** * Further properties of the pool wrapper *)

Module PoolExtras.

Import MultiprocessingWrapper PoolFacts.

Section WaitLoopMore.

Variable V : Type.
Variables start result_timeout : Q.
Variable n_start : nat.

Lemma wait_loop_raised (trace : list poll) :
  forall (results : list (AsyncResult V)) (return_results : list V) (e : exn),
    (List.length results + List.length return_results = n_start)%nat ->
    wait_loop trace start result_timeout n_start results return_results = Raised e ->
    e = event_was_set \/ e = TimeoutError \/ e = error_in_process.
Proof.
  induction trace as [|p trace IH]; intros results rr e Hn H; simpl in H; [discriminate|].
  destruct (event_is_set p); [injection H as <-; now left|].
  destruct (Qlt_bool result_timeout (now p - start));
    [injection H as <-; right; now left|].
  destruct (scan p 0 results) as [[got idx]|e'] eqn:Es.
  - destruct (scan_ok _ _ _ Es) as [Hgot ->].
    rewrite remove_indices_pending in H.
    pose proof (@iteration_keeps_count V n_start p results rr got Hn Hgot) as Hn'.
    rewrite Hn', Nat.eqb_refl in H. simpl in H.
    destruct (List.length (rr ++ got) =? n_start); [discriminate|].
    now apply (IH _ _ _ Hn' H).
  - injection H as <-. apply scan_raise in Es. destruct Es as [-> _].
    right. now right.
Qed.

Lemma wait_loop_arrival (trace : list poll) :
  forall (results : list (AsyncResult V)) (return_results l : list V),
    (List.length results + List.length return_results = n_start)%nat ->
    wait_loop trace start result_timeout n_start results return_results = Returned l ->
    exists k,
      (k <= List.length trace)%nat
      /\ map Ok l
         = map Ok return_results
               ++ map (@value V) (arrival_list (firstn k trace) results).
Proof.
  induction trace as [|p trace IH]; intros results rr l Hn H; simpl in H; [discriminate|].
  destruct (event_is_set p); [discriminate|].
  destruct (Qlt_bool result_timeout (now p - start)); [discriminate|].
  destruct (scan p 0 results) as [[got idx]|e'] eqn:Es; [|discriminate].
  destruct (scan_ok _ _ _ Es) as [Hgot ->].
  rewrite remove_indices_pending in H.
  pose proof (@iteration_keeps_count V n_start p results rr got Hn Hgot) as Hn'.
  rewrite Hn', Nat.eqb_refl in H. simpl in H.
  destruct (List.length (rr ++ got) =? n_start).
  - injection H as <-. exists 1%nat. split; [simpl; lia|].
    simpl. now rewrite app_nil_r, map_app, Hgot.
  - destruct (IH _ _ _ Hn' H) as [k [Hk Hl]].
    exists (S k). split; [simpl; lia|].
    simpl. rewrite Hl, !map_app, Hgot, <- app_assoc. reflexivity.
Qed.

End WaitLoopMore.

(** X1. Whatever [wait_for_pool_results] raises is the MultiprocessingError
    for the event, the TimeoutError, or the MultiprocessingError for a failed
    process: the sanity check on the number of results never fails. *)
Theorem wait_for_pool_results_raises
        (V : Type) (results : list (AsyncResult V)) (w : world)
        (result_timeout : Q) (e : exn) :
  wait_for_pool_results results w result_timeout = Raised e ->
  (e = event_was_set \/ e = TimeoutError \/ e = error_in_process)
  /\ e <> lost_results.
Proof.
  unfold wait_for_pool_results. intros H.
  apply wait_loop_raised in H; [|simpl; lia].
  split; [exact H|].
  destruct H as [ -> | [ -> | -> ] ]; discriminate.
Qed.

Lemma wait_for_pool_results_raises_witness :
  wait_for_pool_results
    (submit_out_order example_fn [1%Z; 4%Z; 3%Z] [no_keywords; no_keywords; negate])
    example_world 86400
  = Raised error_in_process
  /\ error_in_process <> lost_results.
Proof.
  assert (H : wait_for_pool_results
                (submit_out_order example_fn [1%Z; 4%Z; 3%Z]
                                  [no_keywords; no_keywords; negate])
                example_world 86400
              = Raised error_in_process) by (vm_compute; reflexivity).
  split; [exact H|].
  exact (proj2 (wait_for_pool_results_raises _ _ _ H)).
Defined.

(** X2. When [wait_for_pool_results] returns, every submitted result was
    successful and the list holds the value of each exactly once, in the
    order of arrival: iteration by iteration, and within an iteration in the
    order of the submitted list. *)
Theorem wait_for_pool_results_arrival_order
        (V : Type) (results : list (AsyncResult V)) (w : world)
        (result_timeout : Q) (l : list V) :
  wait_for_pool_results results w result_timeout = Returned l ->
  List.length l = List.length results
  /\ Permutation (map Ok l) (map (@value V) results)
  /\ exists k,
      (k <= List.length (polls w))%nat
      /\ map Ok l = map (@value V) (arrival_list (firstn k (polls w)) results).
Proof.
  intros H.
  assert (Hperm : Permutation (map Ok l) (map (@value V) results)).
  { destruct (wait_for_pool_results_returned _ _ _ H) as [vs [Hvs Hp]].
    rewrite Hvs. now apply Permutation_map. }
  split; [|split; [exact Hperm|]].
  - apply Permutation_length in Hperm. now rewrite !length_map in Hperm.
  - unfold wait_for_pool_results in H.
    apply wait_loop_arrival in H; [|simpl; lia].
    exact H.
Qed.

Lemma wait_for_pool_results_arrival_order_witness :
  wait_for_pool_results
    (submit_out_order example_fn [1%Z; 2%Z; 3%Z] [no_keywords; negate; no_keywords])
    example_world 86400
  = Returned [3%Z; 1%Z; (-2)%Z]
  /\ exists k,
      (k <= List.length (polls example_world))%nat
      /\ map Ok [3%Z; 1%Z; (-2)%Z]
         = map (@value Z)
               (arrival_list (firstn k (polls example_world))
                             (submit_out_order example_fn [1%Z; 2%Z; 3%Z]
                                               [no_keywords; negate; no_keywords])).
Proof.
  assert (H : wait_for_pool_results
                (submit_out_order example_fn [1%Z; 2%Z; 3%Z]
                                  [no_keywords; negate; no_keywords])
                example_world 86400
              = Returned [3%Z; 1%Z; (-2)%Z]) by (vm_compute; reflexivity).
  split; [exact H|].
  exact (proj2 (proj2 (wait_for_pool_results_arrival_order _ _ _ H))).
Defined.

Lemma in_order_empty_batch_witness :
  process_pool_wrapper 0%Z example_fn (Some []) (Some [])
                       (Some 2%Z) (Some 4%Z) true 86400 example_world
  = Raised (ValueError "not enough values to unpack (expected 2, got 0)")
  /\ process_pool_wrapper 0%Z example_fn (Some []) (Some [])
                          (Some 2%Z) (Some 4%Z) false 86400 example_world
     = Returned [].
Proof.
  apply (@in_order_empty_batch Z bool Z 0%Z example_fn (Some 2%Z) (Some 4%Z) 86400 0
                               (mkPoll false (5 # 100) (fun j => j =? 2))
                               [mkPoll false (10 # 100) (fun _ => true)]).
  - reflexivity.
  - reflexivity.
  - vm_compute. discriminate.
Defined.

(** *** What the wrapper raises *)

(** X4. Whatever [process_pool_wrapper] raises is the AssertionError of its
    input check, the ValueError with which the pool refuses its arguments
    (fewer than one process, or a [maxtasksperchild] that is not positive),
    the ValueError of unpacking an empty in-order batch, or an
    AttributeError: every exception of the wait (the timeout, the event, a
    failed process) is caught, and the clean-up call [kill_pool] without an
    exception raises AttributeError before [sys.exit(1)] is reached, so the
    caller sees neither SystemExit nor the exception of the wait.  The pool
    is created before the try block: when it refuses its arguments the
    wrapper raises that ValueError whatever the run, and a [process_count] of
    0 is refused. *)
Theorem process_pool_wrapper_raises
        (A KV R : Type) (empty_args : A)
        (fn : A -> kwargs_dict KV -> result R)
        (args : option (list A)) (kwargs : option (list (kwargs_dict KV)))
        (process_count pool_maxtasksperchild : option Z)
        (in_order : bool) (result_timeout : Q) (w : world) (e : exn) :
  (process_pool_wrapper empty_args fn args kwargs
                        process_count pool_maxtasksperchild in_order
                        result_timeout w = Raised e ->
   (e = AssertionError /\ args = None /\ kwargs = None)
   \/ ProcessPool process_count pool_maxtasksperchild = Raise e
   \/ e = AttributeError
   \/ (e = ValueError "not enough values to unpack (expected 2, got 0)"
       /\ in_order = true))
  /\ (is_none args && is_none kwargs = false ->
      ProcessPool process_count pool_maxtasksperchild = Raise e ->
      process_pool_wrapper empty_args fn args kwargs
                           process_count pool_maxtasksperchild in_order
                           result_timeout w = Raised e)
  /\ (forall n, process_count = Some n -> (n < 1)%Z ->
                ProcessPool process_count pool_maxtasksperchild
                = Raise (ValueError "Number of processes must be at least 1")).
Proof.
  split; [|split].
  - unfold process_pool_wrapper.
    destruct (is_none args && is_none kwargs) eqn:En.
    { intros H. injection H as <-. left.
      destruct args, kwargs; try discriminate. repeat split. }
    destruct in_order;
      unfold _process_pool_wrapper_kwargs_in_order,
        _process_pool_wrapper_kwargs_out_order;
      (destruct (_check_args_kwargs args kwargs empty_args empty_kwargs None)
        as [[a k]|e0] eqn:Ec;
       [|destruct args, kwargs; simpl in Ec; discriminate]);
      (destruct (ProcessPool process_count pool_maxtasksperchild) as [pool|e1] eqn:Ep;
       [|intros H; injection H as <-; right; now left]);
      apply ProcessPool_fresh in Ep; subst pool;
      match goal with
      | |- context [wait_for_pool_results ?r w ?t] =>
          destruct (wait_for_pool_results r w t) as [got|e'|]
      end;
      unfold clean_up_and_exit; simpl; intros H;
      try discriminate;
      try (injection H as <-; right; right; now left);
      destruct (sorted_by_index got); try discriminate;
      injection H as <-; right; right; right; split; reflexivity.
  - intros Hn Hp. unfold process_pool_wrapper. rewrite Hn.
    destruct in_order;
      unfold _process_pool_wrapper_kwargs_in_order,
        _process_pool_wrapper_kwargs_out_order;
      (destruct (_check_args_kwargs args kwargs empty_args empty_kwargs None)
        as [[a k]|e0] eqn:Ec;
       [|destruct args, kwargs; simpl in Ec; discriminate]);
      now rewrite Hp.
  - intros n -> Hn. unfold ProcessPool.
    apply Z.ltb_lt in Hn. now rewrite Hn.
Qed.

Lemma process_pool_wrapper_raises_witness :
  process_pool_wrapper 0%Z example_fn
                       (Some [1%Z; 4%Z; 3%Z]) (Some [no_keywords; no_keywords; negate])
                       (Some 2%Z) (Some 4%Z) false 86400 example_failed_world
  = Raised AttributeError
  /\ process_pool_wrapper 0%Z example_fn
                          (Some [1%Z; 2%Z; 3%Z]) (Some [no_keywords; negate; no_keywords])
                          (Some 0%Z) (Some 4%Z) false 86400 example_world
     = Raised (ValueError "Number of processes must be at least 1").
Proof.
  split; [vm_compute; reflexivity|].
  apply (proj1 (proj2 (@process_pool_wrapper_raises
                         Z bool Z 0%Z example_fn
                         (Some [1%Z; 2%Z; 3%Z]) (Some [no_keywords; negate; no_keywords])
                         (Some 0%Z) (Some 4%Z) false 86400 example_world
                         (ValueError "Number of processes must be at least 1"))));
    reflexivity.
Defined.

(** X5. Leaving out [args] is the same as passing one empty argument list
    per keyword dict, and leaving out [kwargs] the same as passing one empty
    dict per argument tuple, whatever the flag, the pool and the run. *)
Theorem process_pool_wrapper_defaults
        (A KV R : Type) (empty_args : A)
        (fn : A -> kwargs_dict KV -> result R)
        (args : list A) (kwargs : list (kwargs_dict KV))
        (process_count pool_maxtasksperchild : option Z)
        (in_order : bool) (result_timeout : Q) (w : world) :
  process_pool_wrapper empty_args fn None (Some kwargs)
                       process_count pool_maxtasksperchild in_order
                       result_timeout w
  = process_pool_wrapper empty_args fn
                         (Some (repeat empty_args (List.length kwargs))) (Some kwargs)
                         process_count pool_maxtasksperchild
                         in_order result_timeout w
  /\ process_pool_wrapper empty_args fn (Some args) None
                          process_count pool_maxtasksperchild in_order
                          result_timeout w
     = process_pool_wrapper empty_args fn
                            (Some args) (Some (repeat empty_kwargs (List.length args)))
                            process_count pool_maxtasksperchild
                            in_order result_timeout w.
Proof.
  unfold process_pool_wrapper, _process_pool_wrapper_kwargs_in_order,
    _process_pool_wrapper_kwargs_out_order, _check_args_kwargs.
  simpl. rewrite !map_const_range, !Nat2Z.id. split; reflexivity.
Qed.

(** *** With and without the order *)

Section Untag.

Variable R : Type.

Lemma scan_untag (p : poll) (results : list (AsyncResult (nat * R))) :
  forall i,
    scan p i (map (@untag R) results)
    = match scan p i results with
      | Ok (got, idx) => Ok (map snd got, idx)
      | Raise e => Raise e
      end.
Proof.
  induction results as [|res rest IH]; intros i; simpl; [reflexivity|].
  destruct (ready p (job res)); simpl.
  - destruct (value res) as [[j r]|e]; simpl; [|reflexivity].
    rewrite IH. destruct (scan p (S i) rest) as [[got idx]|e]; reflexivity.
  - apply IH.
Qed.

Lemma del_nth_map (X Y : Type) (f : X -> Y) (i : nat) (l : list X) :
  del_nth i (map f l) = map f (del_nth i l).
Proof. unfold del_nth. now rewrite map_app, firstn_map, skipn_map. Qed.

Lemma remove_indices_map (X Y : Type) (f : X -> Y) (idx : list nat) (l : list X) :
  remove_indices idx (map f l) = map f (remove_indices idx l).
Proof.
  unfold remove_indices. generalize (sorted_reverse idx). intros is_.
  revert l. induction is_ as [|i is_ IH]; intros l; simpl; [reflexivity|].
  now rewrite del_nth_map, IH.
Qed.

(** The waiting loop does not look at the index a result carries. *)
Lemma wait_loop_untag (trace : list poll) (start result_timeout : Q) (n_start : nat) :
  forall (results : list (AsyncResult (nat * R))) (return_results : list (nat * R)),
    wait_loop trace start result_timeout n_start
              (map (@untag R) results) (map snd return_results)
    = outcome_map (map snd)
                  (wait_loop trace start result_timeout n_start results return_results).
Proof.
  induction trace as [|p trace IH]; intros results rr; simpl; [reflexivity|].
  destruct (event_is_set p); [reflexivity|].
  destruct (Qlt_bool result_timeout (now p - start)); [reflexivity|].
  rewrite scan_untag.
  destruct (scan p 0 results) as [[got idx]|e]; [|reflexivity].
  rewrite remove_indices_map, <- map_app, !length_map.
  destruct (negb _); [reflexivity|].
  destruct (_ =? n_start); [reflexivity|].
  apply IH.
Qed.

Lemma insert_by_index_perm (x : nat * R) (l : list (nat * R)) :
  Permutation (insert_by_index x l) (x :: l).
Proof.
  induction l as [|y l IH]; simpl; [constructor; constructor|].
  destruct (fst x <=? fst y); [apply Permutation_refl|].
  eapply Permutation_trans; [apply perm_skip, IH | apply perm_swap].
Qed.

Lemma sorted_by_index_permutation (l : list (nat * R)) :
  Permutation (sorted_by_index l) l.
Proof.
  unfold sorted_by_index.
  induction l as [|x l IH]; simpl; [constructor|].
  eapply Permutation_trans; [apply insert_by_index_perm | now apply perm_skip].
Qed.

End Untag.

(** Without a keyword called [index] or [func], the jobs of the in-order
    function are those of its sister, each with its index. *)
Lemma submit_out_order_untag (A KV R : Type) (fn : A -> kwargs_dict KV -> result R)
      (args : list A) (kwargs : list (kwargs_dict KV)) :
  Forall (fun k => names_wrapper_parameter k = false) kwargs ->
  submit_out_order fn args kwargs = map (@untag R) (submit_in_order fn args kwargs).
Proof.
  intros Hno.
  unfold submit_out_order, submit_in_order. rewrite map_map.
  apply map_ext_in. intros [i [a k]] Hin.
  unfold enumerate in Hin. apply in_combine_r, in_combine_r in Hin.
  rewrite Forall_forall in Hno.
  unfold untag, _call_order_wrapper. simpl. rewrite (Hno _ Hin).
  destruct (fn a k); reflexivity.
Qed.

Lemma checked_kwargs_no_clash (A KV : Type) (empty_args : A)
      (args : option (list A)) (kwargs : option (list (kwargs_dict KV)))
      (a : list A) (k : list (kwargs_dict KV)) :
  (forall ks, kwargs = Some ks ->
              Forall (fun kw => names_wrapper_parameter kw = false) ks) ->
  _check_args_kwargs args kwargs empty_args (@empty_kwargs KV) None = Ok (a, k) ->
  Forall (fun kw => names_wrapper_parameter kw = false) k.
Proof.
  intros Hno. unfold _check_args_kwargs.
  destruct args as [a0|], kwargs as [k0|]; intros H; try discriminate;
    injection H as <- <-; try (now apply Hno).
  apply Forall_forall. intros kw Hin.
  apply in_map_iff in Hin. destruct Hin as [j [<- _]]. reflexivity.
Qed.

(** X6. When no keyword of the batch is called [index] or [func], the flag
    changes the order of the list and nothing else on the same run: the two
    sister functions wait alike, so either both are still waiting, or both
    raise the same exception, or both return and the lists are permutations
    of each other; the one exception is the empty batch, where the in-order
    function raises at the unpacking and the other returns []. *)
Theorem in_order_changes_only_the_order
        (A KV R : Type) (empty_args : A)
        (fn : A -> kwargs_dict KV -> result R)
        (args : option (list A)) (kwargs : option (list (kwargs_dict KV)))
        (process_count pool_maxtasksperchild : option Z)
        (result_timeout : Q) (w : world) :
  (forall ks, kwargs = Some ks ->
              Forall (fun k => names_wrapper_parameter k = false) ks) ->
  match process_pool_wrapper empty_args fn args kwargs
                             process_count pool_maxtasksperchild true
                             result_timeout w with
  | Returned l_in =>
      exists l_out,
        process_pool_wrapper empty_args fn args kwargs
                             process_count pool_maxtasksperchild false
                             result_timeout w = Returned l_out
        /\ Permutation l_in l_out
  | Raised e =>
      process_pool_wrapper empty_args fn args kwargs
                           process_count pool_maxtasksperchild false
                           result_timeout w = Raised e
      \/ (e = ValueError "not enough values to unpack (expected 2, got 0)"
          /\ process_pool_wrapper empty_args fn args kwargs
                                  process_count pool_maxtasksperchild false
                                  result_timeout w = Returned [])
  | Waiting =>
      process_pool_wrapper empty_args fn args kwargs
                           process_count pool_maxtasksperchild false
                           result_timeout w = Waiting
  end.
Proof.
  intros Hno.
  unfold process_pool_wrapper.
  destruct (is_none args && is_none kwargs); [now left|].
  unfold _process_pool_wrapper_kwargs_in_order, _process_pool_wrapper_kwargs_out_order.
  destruct (_check_args_kwargs args kwargs empty_args empty_kwargs None)
    as [[a k]|e] eqn:Ec; [|now left].
  apply (@checked_kwargs_no_clash _ _ _ _ _ _ _ Hno) in Ec.
  destruct (ProcessPool process_count pool_maxtasksperchild) as [pool|e];
    [|now left].
  rewrite (submit_out_order_untag fn a Ec), length_map.
  unfold wait_for_pool_results. rewrite length_map.
  change (@nil R) with (map (@snd nat R) []).
  rewrite wait_loop_untag.
  destruct (wait_loop (polls w) (start_time w) _ _ (submit_in_order fn a k) [])
    as [tagged|e|]; simpl.
  - pose proof (sorted_by_index_permutation tagged) as Hperm.
    destruct (sorted_by_index tagged) as [|x sorted].
    + apply Permutation_nil in Hperm. subst tagged. right. split; reflexivity.
    + eexists. split; [reflexivity|].
      change (snd x :: map snd sorted) with (map snd (x :: sorted)).
      now apply Permutation_map.
  - left. reflexivity.
  - reflexivity.
Qed.

Lemma in_order_changes_only_the_order_witness :
  (forall ks, Some [no_keywords; negate; no_keywords] = Some ks ->
              Forall (fun k => names_wrapper_parameter k = false) ks)
  /\ process_pool_wrapper 0%Z example_fn
                          (Some [1%Z; 2%Z; 3%Z]) (Some [no_keywords; negate; no_keywords])
                          (Some 2%Z) (Some 4%Z) true 86400 example_world
     = Returned [1%Z; (-2)%Z; 3%Z]
  /\ exists l_out,
      process_pool_wrapper 0%Z example_fn
                           (Some [1%Z; 2%Z; 3%Z]) (Some [no_keywords; negate; no_keywords])
                           (Some 2%Z) (Some 4%Z) false 86400 example_world
      = Returned l_out
      /\ Permutation [1%Z; (-2)%Z; 3%Z] l_out.
Proof.
  assert (Hno : forall ks, Some [no_keywords; negate; no_keywords] = Some ks ->
                           Forall (fun k => names_wrapper_parameter k = false) ks).
  { intros ks H. injection H as <-. repeat constructor. }
  assert (E : process_pool_wrapper 0%Z example_fn
                (Some [1%Z; 2%Z; 3%Z]) (Some [no_keywords; negate; no_keywords])
                (Some 2%Z) (Some 4%Z) true 86400 example_world
              = Returned [1%Z; (-2)%Z; 3%Z]) by (vm_compute; reflexivity).
  split; [exact Hno|]. split; [exact E|].
  pose proof (@in_order_changes_only_the_order
                Z bool Z 0%Z example_fn
                (Some [1%Z; 2%Z; 3%Z]) (Some [no_keywords; negate; no_keywords])
                (Some 2%Z) (Some 4%Z) 86400 example_world Hno) as H.
  rewrite E in H. exact H.
Defined.

(** X7. When the pool can be created, every call returns and all results
    are ready at the first iteration, reached in time and with the event not
    set, the list comes back in the order of the calls also without
    [in_order]; for a non-empty batch without a keyword called [index] or
    [func] both flags give the same list. *)
Theorem ready_at_once_keeps_call_order
        (A KV R : Type) (empty_args : A)
        (fn : A -> kwargs_dict KV -> result R)
        (args : list A) (kwargs : list (kwargs_dict KV)) (rs : list R)
        (process_count pool_maxtasksperchild : option Z)
        (result_timeout start : Q) (p : poll) (trace : list poll) :
  ProcessPool process_count pool_maxtasksperchild = Ok fresh_pool ->
  Forall2 (fun r ak => fn (fst ak) (snd ak) = Ok r) rs (combine args kwargs) ->
  event_is_set p = false ->
  now p - start <= batch_timeout result_timeout (List.length rs) ->
  (forall j, ready p j = true) ->
  process_pool_wrapper empty_args fn (Some args) (Some kwargs)
                       process_count pool_maxtasksperchild false
                       result_timeout (mkWorld start (p :: trace))
  = Returned rs
  /\ (rs <> [] ->
      Forall (fun k => names_wrapper_parameter k = false) kwargs ->
      process_pool_wrapper empty_args fn (Some args) (Some kwargs)
                           process_count pool_maxtasksperchild true
                           result_timeout (mkWorld start (p :: trace))
      = Returned rs).
Proof.
  intros Hpool Hrs He Ht Hr. split.
  - now apply out_order_returns.
  - intros Hne Hno. now apply in_order_returns.
Qed.

Lemma ready_at_once_keeps_call_order_witness :
  process_pool_wrapper 0%Z example_fn
                       (Some [1%Z; 2%Z; 3%Z]) (Some [no_keywords; negate; no_keywords])
                       (Some 2%Z) (Some 4%Z) false 86400 prompt_world
  = Returned [1%Z; (-2)%Z; 3%Z]
  /\ ([1%Z; (-2)%Z; 3%Z] <> [] ->
      Forall (fun k => names_wrapper_parameter k = false)
             [no_keywords; negate; no_keywords] ->
      process_pool_wrapper 0%Z example_fn
                           (Some [1%Z; 2%Z; 3%Z]) (Some [no_keywords; negate; no_keywords])
                           (Some 2%Z) (Some 4%Z) true 86400 prompt_world
      = Returned [1%Z; (-2)%Z; 3%Z]).
Proof.
  apply (@ready_at_once_keeps_call_order
           Z bool Z 0%Z example_fn [1%Z; 2%Z; 3%Z] [no_keywords; negate; no_keywords]
           [1%Z; (-2)%Z; 3%Z] (Some 2%Z) (Some 4%Z) 86400 0
           (mkPoll false (5 # 100) (fun _ => true)) []).
  - reflexivity.
  - repeat constructor.
  - reflexivity.
  - vm_compute. discriminate.
  - reflexivity.
Defined.

(** X15. A keyword dict with a key [index] or [func] breaks the in-order
    function only: the worker's call of [_call_order_wrapper] gives that
    parameter two values and raises TypeError, so with [in_order=True] the
    wrapper returns no list, whatever the run, also when [fn] itself accepts
    the keyword and the call with [in_order=False] returns. *)
Theorem keyword_named_index_fails_in_order
        (A KV R : Type) (empty_args : A)
        (fn : A -> kwargs_dict KV -> result R)
        (args : list A) (kwargs : list (kwargs_dict KV))
        (a : A) (k : kwargs_dict KV) :
  In (a, k) (combine args kwargs) ->
  names_wrapper_parameter k = true ->
  (forall index, _call_order_wrapper index fn a k = Raise TypeError)
  /\ (forall process_count pool_maxtasksperchild result_timeout w l,
         process_pool_wrapper empty_args fn (Some args) (Some kwargs)
                              process_count pool_maxtasksperchild true
                              result_timeout w <> Returned l)
  /\ (forall rs process_count pool_maxtasksperchild result_timeout start p trace,
         ProcessPool process_count pool_maxtasksperchild = Ok fresh_pool ->
         Forall2 (fun r ak => fn (fst ak) (snd ak) = Ok r) rs (combine args kwargs) ->
         event_is_set p = false ->
         now p - start <= batch_timeout result_timeout (List.length rs) ->
         (forall j, ready p j = true) ->
         process_pool_wrapper empty_args fn (Some args) (Some kwargs)
                              process_count pool_maxtasksperchild false
                              result_timeout (mkWorld start (p :: trace))
         = Returned rs
         /\ process_pool_wrapper empty_args fn (Some args) (Some kwargs)
                                 process_count pool_maxtasksperchild true
                                 result_timeout (mkWorld start (p :: trace))
            = Raised AttributeError).
Proof.
  intros Hin Hk.
  assert (Hcall : forall index, _call_order_wrapper index fn a k = Raise TypeError).
  { intros index. unfold _call_order_wrapper. now rewrite Hk. }
  destruct (In_enumerate _ _ 0 Hin) as [i Hi].
  assert (Hres : In (mkAsync i (_call_order_wrapper i fn a k))
                    (submit_in_order fn args kwargs)).
  { unfold submit_in_order, enumerate. apply in_map_iff.
    exists (i, (a, k)). split; [reflexivity | exact Hi]. }
  assert (Hfail : successful (mkAsync i (_call_order_wrapper i fn a k)) = false).
  { unfold successful. simpl. now rewrite Hcall. }
  split; [exact Hcall|]. split.
  - intros pc mt result_timeout w l.
    now apply in_order_failed_never_returns
      with (res := mkAsync i (_call_order_wrapper i fn a k)).
  - intros rs pc mt result_timeout start p trace Hpool Hrs He Ht Hr.
    split; [now apply out_order_returns|].
    unfold process_pool_wrapper, _process_pool_wrapper_kwargs_in_order. simpl.
    rewrite Hpool. unfold wait_for_pool_results. cbn [polls start_time].
    rewrite (@wait_loop_failure _ start _ _ p trace _ []
               (mkAsync i (_call_order_wrapper i fn a k))); try assumption.
    + reflexivity.
    + rewrite submit_in_order_length.
      apply Forall2_length in Hrs. rewrite <- Hrs. exact Ht.
    + apply Hr.
Qed.

Lemma keyword_named_index_fails_in_order_witness :
  In (2%Z, index_keyword) (combine [1%Z; 2%Z] [no_keywords; index_keyword])
  /\ names_wrapper_parameter index_keyword = true
  /\ process_pool_wrapper 0%Z example_fn (Some [1%Z; 2%Z])
                          (Some [no_keywords; index_keyword])
                          (Some 2%Z) (Some 4%Z) false 86400 prompt_world
     = Returned [1%Z; 2%Z]
  /\ process_pool_wrapper 0%Z example_fn (Some [1%Z; 2%Z])
                          (Some [no_keywords; index_keyword])
                          (Some 2%Z) (Some 4%Z) true 86400 prompt_world
     = Raised AttributeError.
Proof.
  assert (Hin : In (2%Z, index_keyword)
                   (combine [1%Z; 2%Z] [no_keywords; index_keyword]))
    by (right; left; reflexivity).
  split; [exact Hin|]. split; [reflexivity|].
  apply (proj2 (proj2 (@keyword_named_index_fails_in_order
                         Z bool Z 0%Z example_fn [1%Z; 2%Z]
                         [no_keywords; index_keyword] 2%Z index_keyword
                         Hin eq_refl))
               [1%Z; 2%Z] (Some 2%Z) (Some 4%Z) 86400 0
               (mkPoll false (5 # 100) (fun _ => true)) []).
  - reflexivity.
  - repeat constructor.
  - reflexivity.
  - vm_compute. discriminate.
  - reflexivity.
Defined.

(** *** [FailCounter] *)

Lemma wrap_int_range (z : Z) : (- 2 ^ 31 <= wrap_int z < 2 ^ 31)%Z.
Proof.
  unfold wrap_int.
  pose proof (Z.mod_pos_bound (z + 2 ^ 31) (2 ^ 32) eq_refl) as H.
  change (2 ^ 32)%Z with 4294967296%Z in *.
  change (2 ^ 31)%Z with 2147483648%Z in *. lia.
Qed.

Lemma wrap_int_small (z : Z) : (- 2 ^ 31 <= z < 2 ^ 31)%Z -> wrap_int z = z.
Proof.
  intros H. unfold wrap_int.
  change (2 ^ 32)%Z with 4294967296%Z in *.
  change (2 ^ 31)%Z with 2147483648%Z in *.
  rewrite Z.mod_small; lia.
Qed.

Lemma wrap_int_add (a b : Z) : wrap_int (wrap_int a + b) = wrap_int (a + b).
Proof.
  unfold wrap_int. f_equal.
  replace ((a + 2 ^ 31) mod 2 ^ 32 - 2 ^ 31 + b + 2 ^ 31)%Z
    with ((a + 2 ^ 31) mod 2 ^ 32 + b)%Z by lia.
  rewrite Zplus_mod_idemp_l. f_equal. lia.
Qed.

(** X8. A [FailCounter] started at [i0] and incremented by the amounts of
    [amounts], one after the other, holds their sum added to [i0], wrapped
    around to a 32-bit C int: the exact sum whenever that fits, and always a
    value in the range of a C int. *)
Theorem fail_counter_holds_the_sum (i0 : Z) (amounts : list Z) :
  counter_value (fold_left (fun c i => increment i c) amounts (new_fail_counter i0))
  = wrap_int (i0 + fold_right Z.add 0%Z amounts)
  /\ (- 2 ^ 31
      <= counter_value (fold_left (fun c i => increment i c) amounts
                                  (new_fail_counter i0))
      < 2 ^ 31)%Z
  /\ ((- 2 ^ 31 <= i0 + fold_right Z.add 0%Z amounts < 2 ^ 31)%Z ->
      counter_value (fold_left (fun c i => increment i c) amounts
                               (new_fail_counter i0))
      = (i0 + fold_right Z.add 0%Z amounts)%Z).
Proof.
  assert (H : counter_value
                (fold_left (fun c i => increment i c) amounts (new_fail_counter i0))
              = wrap_int (i0 + fold_right Z.add 0%Z amounts)).
  { unfold new_fail_counter. revert i0.
    induction amounts as [|a amounts IH]; intros i0; simpl.
    - now rewrite Z.add_0_r.
    - unfold increment at 2. simpl. rewrite wrap_int_add.
      rewrite IH. f_equal. lia. }
  split; [exact H|]. split.
  - rewrite H. apply wrap_int_range.
  - intros Hfit. rewrite H. now apply wrap_int_small.
Qed.

End PoolExtras.

(** * Further properties of the wide-matrix masks *)

Module MaskExtras.

Import MatrixUtils ListFacts MaskFacts.

Lemma item_elementwise_any (f : bool -> bool -> bool) (a b : ndarray) (m n i j : nat) :
  broadcast_dim (fst (shape a)) (fst (shape b)) = Some m ->
  broadcast_dim (snd (shape a)) (snd (shape b)) = Some n ->
  (i < m)%nat -> (j < n)%nat ->
  exists mask, elementwise f a b = Ok mask
               /\ shape mask = (m, n)
               /\ item mask i j = f (item_bc a i j) (item_bc b i j).
Proof.
  intros Hm Hn Hi Hj. unfold elementwise. rewrite Hm, Hn.
  eexists. split; [reflexivity|]. split; [reflexivity|].
  unfold item at 1. simpl.
  rewrite (nth_map_seq _ [] Hi), nth_map_seq by exact Hj. reflexivity.
Qed.

Lemma elementwise_shape (f : bool -> bool -> bool) (a b : ndarray) (m n : nat) :
  broadcast_dim (fst (shape a)) (fst (shape b)) = Some m ->
  broadcast_dim (snd (shape a)) (snd (shape b)) = Some n ->
  exists mask, elementwise f a b = Ok mask /\ shape mask = (m, n).
Proof.
  intros Hm Hn. unfold elementwise. rewrite Hm, Hn.
  eexists. split; reflexivity.
Qed.

Section WideMaskMore.

Variable np_array : pyobj -> Dtype -> result (list pyval).

(** X9. On a square frame, with zones that can be cast, [get_wide_mask]
    with an elementwise join function (such as [operator.or_] passed as
    [join_fn]) returns a mask of the shape of the frame whose entry at row i
    and column j is the join of "the j-th column label is among the column
    zones" and "the i-th index label is among the index zones". *)
Theorem get_wide_mask_joins_elementwise
        (f : bool -> bool -> bool)
        (df : DataFrame) (zones col_zones index_zones : option pyobj)
        (c i : pyobj) (colz idxz : list pyval) (d : pyval) :
  validate_zones zones col_zones index_zones = Ok (c, i) ->
  np_array c (col_dtype df) = Ok colz ->
  np_array i (dtype (index df)) = Ok idxz ->
  fst (df_shape df) = snd (df_shape df) ->
  exists mask,
    get_wide_mask np_array df zones col_zones index_zones (elementwise f) = Ok mask
    /\ shape mask = df_shape df
    /\ forall row col,
        (row < fst (df_shape df))%nat -> (col < snd (df_shape df))%nat ->
        item mask row col
        = f (existsb (pyval_eqb (nth col (labels (columns df)) d)) colz)
            (existsb (pyval_eqb (nth row (labels (index df)) d)) idxz).
Proof.
  intros Hz Hc Hi Hsq. unfold get_wide_mask.
  rewrite Hz. simpl. rewrite Hc, Hi. simpl.
  unfold df_shape in *. simpl in Hsq.
  set (n := List.length (labels (columns df))) in *.
  unfold broadcast_to. simpl.
  assert (Hlc : List.length (isin (labels (columns df)) colz) = n)
    by (unfold isin; now rewrite length_map).
  assert (Hli : List.length (isin (labels (index df)) idxz) = n)
    by (unfold isin; rewrite length_map; exact Hsq).
  rewrite Hlc, Hli, Nat.eqb_refl. simpl. rewrite Hsq.
  set (cm := mkArray (n, n) (repeat (isin (labels (columns df)) colz) n)).
  set (im := mkArray (n, n) (repeat (isin (labels (index df)) idxz) n)).
  assert (Hbd : broadcast_dim n n = Some n)
    by (unfold broadcast_dim; now rewrite Nat.eqb_refl).
  destruct (@elementwise_shape f cm (transpose im) n n Hbd Hbd) as [mask [Hm Hs]].
  exists mask. split; [exact Hm|]. split; [exact Hs|].
  intros row col Hr Hcol.
  destruct (@item_elementwise f cm (transpose im) n row col
                              eq_refl eq_refl Hr Hcol) as [mask' [Hm' [_ Hit]]].
  rewrite Hm in Hm'. injection Hm' as <-.
  rewrite Hit, item_transpose by (simpl; lia).
  unfold cm, im. rewrite !item_broadcast_rows by lia.
  rewrite (nth_isin _ colz d) by (fold n; lia).
  rewrite (nth_isin _ idxz d) by lia.
  reflexivity.
Qed.

(** X11. On a frame of one row and [n] columns, [n] other than 1,
    [get_wide_mask] returns no error but a mask of shape ([n], [n]) instead
    of (1, [n]): the single index entry is broadcast along the columns and
    the transposed result is broadcast again by the join; every row of the
    mask is the column mask, joined with the membership of the one index
    label. *)
Theorem get_wide_mask_single_row
        (df : DataFrame) (zones col_zones index_zones : option pyobj)
        (c i : pyobj) (colz idxz : list pyval) (d : pyval) :
  validate_zones zones col_zones index_zones = Ok (c, i) ->
  np_array c (col_dtype df) = Ok colz ->
  np_array i (dtype (index df)) = Ok idxz ->
  fst (df_shape df) = 1%nat ->
  snd (df_shape df) <> 1%nat ->
  exists mask,
    get_wide_mask np_array df zones col_zones index_zones and_ = Ok mask
    /\ shape mask = (snd (df_shape df), snd (df_shape df))
    /\ shape mask <> df_shape df
    /\ forall row col,
        (row < snd (df_shape df))%nat -> (col < snd (df_shape df))%nat ->
        item mask row col
        = existsb (pyval_eqb (nth col (labels (columns df)) d)) colz
          && existsb (pyval_eqb (nth 0 (labels (index df)) d)) idxz.
Proof.
  intros Hz Hc Hi H1 Hn. unfold get_wide_mask.
  rewrite Hz. simpl. rewrite Hc, Hi. simpl.
  unfold df_shape in *. simpl in H1, Hn.
  set (n := List.length (labels (columns df))) in *.
  unfold broadcast_to. cbn [fst snd].
  assert (Hlc : List.length (isin (labels (columns df)) colz) = n)
    by (unfold isin; now rewrite length_map).
  assert (Hli : List.length (isin (labels (index df)) idxz) = 1%nat)
    by (unfold isin; rewrite length_map; exact H1).
  assert (En : (1 =? n) = false) by (apply Nat.eqb_neq; lia).
  rewrite Hlc, Hli, Nat.eqb_refl, En, H1.
  change (1 =? 1) with true. cbn [bind repeat].
  set (cm := mkArray (1%nat, n) [isin (labels (columns df)) colz]).
  set (im := mkArray (1%nat, n)
                     [repeat (hd false (isin (labels (index df)) idxz)) n]).
  assert (Hb1 : broadcast_dim 1 n = Some n).
  { unfold broadcast_dim. now rewrite En. }
  assert (En' : (n =? 1) = false) by (apply Nat.eqb_neq; lia).
  assert (Hb2 : broadcast_dim n 1 = Some n).
  { unfold broadcast_dim. now rewrite En'. }
  destruct (@elementwise_shape andb cm (transpose im) n n Hb1 Hb2) as [mask [Hm Hs]].
  exists mask. unfold and_. split; [exact Hm|]. split; [exact Hs|].
  split.
  { rewrite Hs. intros Heq. injection Heq as Heq. lia. }
  intros row col Hr Hcol.
  destruct (@item_elementwise_any andb cm (transpose im) n n row col
                                  Hb1 Hb2 Hr Hcol) as [mask' [Hm' [_ Hit]]].
  rewrite Hm in Hm'. injection Hm' as <-.
  rewrite Hit. unfold item_bc. cbn [shape transpose fst snd cm im].
  rewrite En'. change (1 =? 1) with true. cbv iota.
  rewrite item_transpose by (simpl; lia).
  unfold cm, im, item. cbn [rows nth].
  rewrite nth_repeat_lt by lia.
  rewrite (nth_isin _ colz d) by (fold n; lia).
  f_equal.
  destruct (labels (index df)) as [|x [|y l]]; simpl in H1; try discriminate.
  reflexivity.
Qed.

(** X12. For a square array of [n] rows and columns and a zone list that
    numpy converts to the integers [zs], [get_internal_mask] and
    [get_external_mask] both return the [n] by [n] mask that is True exactly
    where the row number and the column number are both among [zs]; the mask
    is symmetric, and all False when the list is empty. *)
Theorem internal_mask_of_array
        (n : nat) (zones : pyobj) (zs : list pyval) :
  np_array zones int64 = Ok zs ->
  exists mask,
    get_internal_mask np_array (Array (n, n)) (Some zones) = Ok mask
    /\ get_external_mask np_array (Array (n, n)) (Some zones) = Ok mask
    /\ shape mask = (n, n)
    /\ (forall row col,
           (row < n)%nat -> (col < n)%nat ->
           item mask row col
           = existsb (pyval_eqb (PInt (Z.of_nat col))) zs
             && existsb (pyval_eqb (PInt (Z.of_nat row))) zs)
    /\ (forall row col, (row < n)%nat -> (col < n)%nat ->
                        item mask row col = item mask col row)
    /\ (zs = [] -> forall row col, (row < n)%nat -> (col < n)%nat ->
                                   item mask row col = false).
Proof.
  intros Hcast.
  assert (Hlen : List.length (labels (range_index n)) = n).
  { unfold range_index. simpl. now rewrite length_map, length_seq. }
  destruct (@get_wide_mask_square
              np_array (mkFrame (range_index n) (range_index n))
              (Some zones) (Some (PyCallable and_)) None zones zones zs zs (PInt 0)
              eq_refl Hcast Hcast eq_refl) as [mask [Hm [Hs Hitem]]].
  unfold df_shape in Hs, Hitem. cbn [index columns fst snd] in Hs, Hitem.
  rewrite Hlen in Hs, Hitem.
  assert (Hentry : forall row col,
             (row < n)%nat -> (col < n)%nat ->
             item mask row col
             = existsb (pyval_eqb (PInt (Z.of_nat col))) zs
               && existsb (pyval_eqb (PInt (Z.of_nat row))) zs).
  { intros row col Hr Hc. rewrite (Hitem row col Hr Hc).
    unfold range_index. cbn [labels].
    now rewrite !nth_map_seq by assumption. }
  exists mask. split; [exact Hm|]. split; [exact Hm|]. split; [exact Hs|].
  split; [exact Hentry|]. split.
  - intros row col Hr Hc. rewrite !Hentry by assumption. apply andb_comm.
  - intros -> row col Hr Hc. now rewrite Hentry.
Qed.

End WideMaskMore.

Lemma get_wide_mask_joins_elementwise_witness :
  exists mask,
    get_wide_mask np_array_int (int_frame 2 2) (Some (PyList [PInt 0])) None None or_
    = Ok mask
    /\ shape mask = df_shape (int_frame 2 2)
    /\ item mask 0 0 = true /\ item mask 0 1 = true
    /\ item mask 1 0 = true /\ item mask 1 1 = false.
Proof.
  destruct (@get_wide_mask_joins_elementwise
              np_array_int orb (int_frame 2 2) (Some (PyList [PInt 0])) None None
              (PyList [PInt 0]) (PyList [PInt 0]) [PInt 0] [PInt 0] (PInt 0)
              eq_refl eq_refl eq_refl eq_refl) as [mask [Hm [Hs Hitem]]].
  exists mask. split; [exact Hm|]. split; [exact Hs|].
  repeat split; rewrite Hitem by (simpl; lia); reflexivity.
Defined.

Lemma get_wide_mask_rectangular_witness :
  fst (df_shape (int_frame 2 3)) <> snd (df_shape (int_frame 2 3))
  /\ get_wide_mask np_array_int (int_frame 2 3) (Some (PyList [PInt 0])) None None or_
     = Raise (ValueError "operands could not be broadcast together with remapped shapes").
Proof.
  split; [discriminate|].
  apply (@get_wide_mask_rectangular
           np_array_int (int_frame 2 3) (Some (PyList [PInt 0])) None None or_
           (PyList [PInt 0]) (PyList [PInt 0]) [PInt 0] [PInt 0]
           eq_refl eq_refl eq_refl); discriminate.
Defined.

Lemma get_wide_mask_single_row_witness :
  exists mask,
    get_wide_mask np_array_int (int_frame 1 3) (Some (PyList [PInt 0; PInt 2])) None None and_
    = Ok mask
    /\ shape mask = (3%nat, 3%nat)
    /\ item mask 2 0 = true /\ item mask 2 1 = false /\ item mask 2 2 = true.
Proof.
  destruct (@get_wide_mask_single_row
              np_array_int (int_frame 1 3) (Some (PyList [PInt 0; PInt 2])) None None
              (PyList [PInt 0; PInt 2]) (PyList [PInt 0; PInt 2])
              [PInt 0; PInt 2] [PInt 0; PInt 2] (PInt 0)
              eq_refl eq_refl eq_refl eq_refl) as [mask [Hm [Hs [_ Hitem]]]].
  - discriminate.
  - exists mask. split; [exact Hm|]. split; [exact Hs|].
    repeat split; rewrite Hitem by (simpl; lia); reflexivity.
Defined.

Lemma internal_mask_of_array_witness :
  exists mask,
    get_internal_mask np_array_int (Array (3%nat, 3%nat)) (Some (PyList [PInt 0; PInt 2]))
    = Ok mask
    /\ get_external_mask np_array_int (Array (3%nat, 3%nat)) (Some (PyList [PInt 0; PInt 2]))
       = Ok mask
    /\ item mask 0 2 = true /\ item mask 1 2 = false.
Proof.
  destruct (@internal_mask_of_array
              np_array_int 3 (PyList [PInt 0; PInt 2]) [PInt 0; PInt 2] eq_refl)
    as [mask [Hi [He [_ [Hitem _]]]]].
  exists mask. split; [exact Hi|]. split; [exact He|].
  split; rewrite Hitem by lia; reflexivity.
Defined.

End MaskExtras.

(** * Properties of the factoring loop of Apply_MND.py *)

Module ApplyMNDFacts.

Import MultiprocessingWrapper ApplyMND PoolFacts.

(** An int is always below its successor. *)
Lemma first_test_of_int (z : Z) : gt (add_one (PyInt z)) (PyInt z) = true.
Proof. simpl. apply Z.gtb_lt. lia. Qed.

Section LoopFacts.

Variable DVec : Type.
Variable Change : Type.
Variable aggregate : DVec -> segmentation_constant -> result DVec.
Variable translate_zoning : DVec -> zoning_constant -> option string -> result DVec.
Variables truediv mul sub : DVec -> DVec -> result DVec.
Variable dabs : DVec -> result DVec.
Variable dsum : DVec -> result Change.
Variable exceeds : Change -> number -> bool.
Variables dft_base mnd_base dft_vec mnd_vec : DVec.
Variable convergence : number.

Local Notation "'pass'" :=
  (nth_pass aggregate translate_zoning truediv mul sub dabs dsum
            dft_base mnd_base dft_vec mnd_vec).
Local Notation "'iterate'" :=
  (while_loop aggregate translate_zoning truediv mul sub dabs dsum exceeds
              dft_base mnd_base dft_vec mnd_vec).

Lemma while_loop_finished (fuel : nat) :
  forall (dvec R : DVec),
    iterate fuel convergence true dvec = Finished R ->
    exists k i,
      (k < fuel)%nat
      /\ pass k dvec = Ok (R, i)
      /\ exceeds i convergence = false
      /\ forall j, (j < k)%nat ->
                   exists d ij, pass j dvec = Ok (d, ij)
                                /\ exceeds ij convergence = true.
Proof.
  induction fuel as [|fuel IH]; intros dvec R H; simpl in H; [discriminate|].
  destruct (one_pass aggregate translate_zoning truediv mul sub dabs dsum
                     dft_base mnd_base dft_vec mnd_vec dvec)
    as [[d' i']|e] eqn:Ep; [|discriminate].
  destruct (exceeds i' convergence) eqn:Et.
  - destruct (IH _ _ H) as [k [i [Hk [Hp [Hi Hbefore]]]]].
    exists (S k), i. split; [lia|]. split; [simpl; now rewrite Ep|].
    split; [exact Hi|].
    intros [|j] Hj.
    + exists d', i'. split; [exact Ep | exact Et].
    + destruct (Hbefore j) as [d [ij [Hpj Hij]]]; [lia|].
      exists d, ij. split; [simpl; now rewrite Ep | exact Hij].
  - assert (HR : R = d').
    { destruct fuel; simpl in H; now injection H as <-. }
    subst d'. exists 0%nat, i'. split; [lia|]. split; [exact Ep|].
    split; [exact Et|]. intros j Hj. lia.
Qed.

Lemma while_loop_finishes (k : nat) :
  forall (fuel : nat) (dvec R : DVec) (i : Change),
    (k < fuel)%nat ->
    pass k dvec = Ok (R, i) ->
    exceeds i convergence = false ->
    (forall j, (j < k)%nat ->
               exists d ij, pass j dvec = Ok (d, ij)
                            /\ exceeds ij convergence = true) ->
    iterate fuel convergence true dvec = Finished R.
Proof.
  induction k as [|k IH]; intros fuel dvec R i Hk Hp Hi Hbefore;
    (destruct fuel as [|fuel]; [lia|]); simpl; simpl in Hp.
  - rewrite Hp, Hi. destruct fuel; reflexivity.
  - destruct (Hbefore 0%nat) as [d [i' [Hp0 Hi']]]; [lia|].
    simpl in Hp0. rewrite Hp0 in Hp |- *. rewrite Hi'.
    apply (IH fuel d R i); [lia | exact Hp | exact Hi |].
    intros j Hj. destruct (Hbefore (S j)) as [d2 [ij [Hpj Hij]]]; [lia|].
    simpl in Hpj. rewrite Hp0 in Hpj. exists d2, ij. split; assumption.
Qed.

Lemma while_loop_failed (fuel : nat) :
  forall (dvec : DVec) (e : exn),
    iterate fuel convergence true dvec = Failed e ->
    exists k,
      (k < fuel)%nat
      /\ pass k dvec = Raise e
      /\ forall j, (j < k)%nat ->
                   exists d ij, pass j dvec = Ok (d, ij)
                                /\ exceeds ij convergence = true.
Proof.
  induction fuel as [|fuel IH]; intros dvec e H; simpl in H; [discriminate|].
  destruct (one_pass aggregate translate_zoning truediv mul sub dabs dsum
                     dft_base mnd_base dft_vec mnd_vec dvec)
    as [[d' i']|e'] eqn:Ep.
  - destruct (exceeds i' convergence) eqn:Et.
    + destruct (IH _ _ H) as [k [Hk [Hp Hbefore]]].
      exists (S k). split; [lia|]. split; [simpl; now rewrite Ep|].
      intros [|j] Hj.
      * exists d', i'. split; [exact Ep | exact Et].
      * destruct (Hbefore j) as [d [ij [Hpj Hij]]]; [lia|].
        exists d, ij. split; [simpl; now rewrite Ep | exact Hij].
    + destruct fuel; simpl in H; discriminate.
  - injection H as ->. exists 0%nat. split; [lia|]. split; [exact Ep|].
    intros j Hj. lia.
Qed.

Lemma while_loop_fails (k : nat) :
  forall (fuel : nat) (dvec : DVec) (e : exn),
    (k < fuel)%nat ->
    pass k dvec = Raise e ->
    (forall j, (j < k)%nat ->
               exists d ij, pass j dvec = Ok (d, ij)
                            /\ exceeds ij convergence = true) ->
    iterate fuel convergence true dvec = Failed e.
Proof.
  induction k as [|k IH]; intros fuel dvec e Hk Hp Hbefore;
    (destruct fuel as [|fuel]; [lia|]); simpl; simpl in Hp.
  - now rewrite Hp.
  - destruct (Hbefore 0%nat) as [d [i' [Hp0 Hi']]]; [lia|].
    simpl in Hp0. rewrite Hp0 in Hp |- *. rewrite Hi'.
    apply (IH fuel d e); [lia | exact Hp |].
    intros j Hj. destruct (Hbefore (S j)) as [d2 [ij [Hpj Hij]]]; [lia|].
    simpl in Hpj. rewrite Hp0 in Hpj. exists d2, ij. split; assumption.
Qed.

Lemma while_loop_not_entered (fuel : nat) (dvec : DVec) :
  iterate fuel convergence false dvec = Finished dvec.
Proof. destruct fuel; reflexivity. Qed.

End LoopFacts.

(** X13. [loop] enters its while loop with [i = convergence + 1].  When
    that is above [convergence], as it is for every int, [loop] makes at
    least one pass and returns the vector of the first pass whose change [i]
    (the summed absolute difference of the M_TP_WEEK aggregates before and
    after the pass) is not above [convergence], every earlier pass having
    given a change above it.  When it is not, as for the floats 2**53,
    infinity and NaN, which adding 1 does not raise, [loop] makes no pass
    and returns [factored] as it is.  In both cases the two aggregations of
    [base] come first and must succeed. *)
Theorem loop_returns_first_converged_pass
        (DVec Change : Type)
        (aggregate : DVec -> segmentation_constant -> result DVec)
        (translate_zoning : DVec -> zoning_constant -> option string -> result DVec)
        (truediv mul sub : DVec -> DVec -> result DVec)
        (dabs : DVec -> result DVec) (dsum : DVec -> result Change)
        (exceeds : Change -> number -> bool)
        (factored base : DVec) (convergence : number) (dft_vec mnd_vec : DVec)
        (fuel : nat) (R : DVec) :
  (loop aggregate translate_zoning truediv mul sub dabs dsum exceeds
        factored base convergence dft_vec mnd_vec fuel = Finished R
   <-> exists dft_base mnd_base,
         aggregate base M_TP_WEEK = Ok dft_base
         /\ aggregate base HB_P_TP_WEEK = Ok mnd_base
         /\ ((gt (add_one convergence) convergence = false /\ R = factored)
             \/ (gt (add_one convergence) convergence = true
                 /\ exists k i,
                     (k < fuel)%nat
                     /\ nth_pass aggregate translate_zoning truediv mul sub dabs dsum
                                 dft_base mnd_base dft_vec mnd_vec k factored
                        = Ok (R, i)
                     /\ exceeds i convergence = false
                     /\ forall j, (j < k)%nat ->
                                  exists d ij,
                                    nth_pass aggregate translate_zoning truediv mul
                                             sub dabs dsum
                                             dft_base mnd_base dft_vec mnd_vec j factored
                                    = Ok (d, ij)
                                    /\ exceeds ij convergence = true)))
  /\ (forall z, gt (add_one (PyInt z)) (PyInt z) = true)
  /\ gt (add_one (PyFloat (float_of_int 5))) (PyFloat (float_of_int 5)) = true
  /\ gt (add_one (PyFloat (float_of_int (2 ^ 53)))) (PyFloat (float_of_int (2 ^ 53)))
     = false
  /\ gt (add_one (PyFloat (SpecFloat.S754_infinity false)))
        (PyFloat (SpecFloat.S754_infinity false)) = false
  /\ gt (add_one (PyFloat SpecFloat.S754_nan)) (PyFloat SpecFloat.S754_nan) = false.
Proof.
  split; [|split; [exact first_test_of_int | repeat split; vm_compute; reflexivity]].
  unfold loop. split.
  - intros H.
    destruct (aggregate base M_TP_WEEK) as [dft_base|e]; [|discriminate].
    destruct (aggregate base HB_P_TP_WEEK) as [mnd_base|e]; [|discriminate].
    exists dft_base, mnd_base. split; [reflexivity|]. split; [reflexivity|].
    destruct (gt (add_one convergence) convergence).
    + right. split; [reflexivity|].
      apply while_loop_finished in H.
      destruct H as [k [i [Hk [Hp [Hi Hb]]]]].
      exists k, i. repeat split; assumption.
    + left. split; [reflexivity|].
      rewrite while_loop_not_entered in H. now injection H as <-.
  - intros [dft_base [mnd_base [Ha [Hb [[Ht ->] | [Ht [k [i [Hk [Hp [Hi Hbefore]]]]]]]]]]];
      rewrite Ha, Hb, Ht.
    + apply while_loop_not_entered.
    + now apply while_loop_finishes with (k := k) (i := i).
Qed.

Lemma loop_returns_first_converged_pass_witness :
  number_loop 8 4 (PyInt 100) 2 3 5 = Finished (6144 # 512)
  /\ number_loop 8 4 (PyFloat (float_of_int (2 ^ 53))) 2 3 5 = Finished 8
  /\ exists dft_base mnd_base,
      Ok 4 = Ok dft_base /\ Ok 4 = Ok mnd_base
      /\ ((gt (add_one (PyInt 100)) (PyInt 100) = false /\ (6144 # 512) = 8)
          \/ (gt (add_one (PyInt 100)) (PyInt 100) = true
              /\ exists k i,
                  (k < 5)%nat
                  /\ nth_pass (fun v _ => Ok v) (fun v _ _ => Ok v)
                              number_div (fun a b => Ok (a * b)) (fun a b => Ok (a - b))
                              (fun a => Ok (Qabs a)) (fun a => Ok a)
                              dft_base mnd_base 2 3 k 8 = Ok (6144 # 512, i)
                  /\ number_exceeds i (PyInt 100) = false
                  /\ forall j, (j < k)%nat ->
                               exists d ij,
                                 nth_pass (fun v _ => Ok v) (fun v _ _ => Ok v)
                                          number_div (fun a b => Ok (a * b))
                                          (fun a b => Ok (a - b))
                                          (fun a => Ok (Qabs a)) (fun a => Ok a)
                                          dft_base mnd_base 2 3 j 8 = Ok (d, ij)
                                 /\ number_exceeds ij (PyInt 100) = true)).
Proof.
  assert (H : number_loop 8 4 (PyInt 100) 2 3 5 = Finished (6144 # 512))
    by (vm_compute; reflexivity).
  split; [exact H|]. split; [vm_compute; reflexivity|].
  exact (proj1 (proj1 (@loop_returns_first_converged_pass
                         Q Q (fun v _ => Ok v) (fun v _ _ => Ok v)
                         number_div (fun a b => Ok (a * b)) (fun a b => Ok (a - b))
                         (fun a => Ok (Qabs a)) (fun a => Ok a) number_exceeds
                         8 4 (PyInt 100) 2 3 5 (6144 # 512))) H).
Defined.

(** X14. [loop] handles no exception: it raises [e] within [fuel] passes
    exactly when one of the two aggregations of [base] raises [e] (the
    first of them, when both would), or both succeed, the loop is entered
    ([convergence + 1] is above [convergence]) and some pass number
    k < fuel raises [e] after earlier passes that all went through with a
    change above [convergence].  A pass that would raise after the loop has
    converged, or in a loop that is not entered, is never run. *)
Theorem loop_raises_what_a_pass_raises
        (DVec Change : Type)
        (aggregate : DVec -> segmentation_constant -> result DVec)
        (translate_zoning : DVec -> zoning_constant -> option string -> result DVec)
        (truediv mul sub : DVec -> DVec -> result DVec)
        (dabs : DVec -> result DVec) (dsum : DVec -> result Change)
        (exceeds : Change -> number -> bool)
        (factored base : DVec) (convergence : number) (dft_vec mnd_vec : DVec)
        (fuel : nat) (e : exn) :
  loop aggregate translate_zoning truediv mul sub dabs dsum exceeds
       factored base convergence dft_vec mnd_vec fuel = Failed e
  <-> aggregate base M_TP_WEEK = Raise e
      \/ (exists dft_base,
             aggregate base M_TP_WEEK = Ok dft_base
             /\ aggregate base HB_P_TP_WEEK = Raise e)
      \/ (exists dft_base mnd_base k,
             aggregate base M_TP_WEEK = Ok dft_base
             /\ aggregate base HB_P_TP_WEEK = Ok mnd_base
             /\ gt (add_one convergence) convergence = true
             /\ (k < fuel)%nat
             /\ nth_pass aggregate translate_zoning truediv mul sub dabs dsum
                         dft_base mnd_base dft_vec mnd_vec k factored = Raise e
             /\ forall j, (j < k)%nat ->
                          exists d ij,
                            nth_pass aggregate translate_zoning truediv mul sub
                                     dabs dsum
                                     dft_base mnd_base dft_vec mnd_vec j factored
                            = Ok (d, ij)
                            /\ exceeds ij convergence = true).
Proof.
  unfold loop. split.
  - intros H.
    destruct (aggregate base M_TP_WEEK) as [dft_base|e1];
      [|left; congruence].
    destruct (aggregate base HB_P_TP_WEEK) as [mnd_base|e2];
      [|right; left; exists dft_base; split; congruence].
    destruct (gt (add_one convergence) convergence) eqn:Et.
    + apply while_loop_failed in H.
      destruct H as [k [Hk [Hp Hb]]].
      right; right. exists dft_base, mnd_base, k. repeat split; assumption.
    + rewrite while_loop_not_entered in H. discriminate.
  - intros [Ha | [[dft_base [Ha Hb]]
                 | [dft_base [mnd_base [k [Ha [Hb [Ht [Hk [Hp Hbefore]]]]]]]]]].
    + now rewrite Ha.
    + now rewrite Ha, Hb.
    + rewrite Ha, Hb, Ht. now apply while_loop_fails with (k := k).
Qed.

Lemma loop_raises_what_a_pass_raises_witness :
  number_loop 8 0 (PyInt 100) 2 3 5 = Failed (UserError "division by zero")
  /\ number_loop 8 0 (PyFloat (float_of_int (2 ^ 53))) 2 3 5 = Finished 8
  /\ (Ok 0 = Raise (UserError "division by zero")
      \/ (exists dft_base : Q,
             Ok 0 = Ok dft_base
             /\ @Ok Q 0 = Raise (UserError "division by zero"))
      \/ (exists dft_base mnd_base k,
             Ok 0 = Ok dft_base /\ Ok 0 = Ok mnd_base
             /\ gt (add_one (PyInt 100)) (PyInt 100) = true
             /\ (k < 5)%nat
             /\ nth_pass (fun v _ => Ok v) (fun v _ _ => Ok v)
                         number_div (fun a b => Ok (a * b)) (fun a b => Ok (a - b))
                         (fun a => Ok (Qabs a)) (fun a => Ok a)
                         dft_base mnd_base 2 3 k 8
                = Raise (UserError "division by zero")
             /\ forall j, (j < k)%nat ->
                          exists d ij,
                            nth_pass (fun v _ => Ok v) (fun v _ _ => Ok v)
                                     number_div (fun a b => Ok (a * b))
                                     (fun a b => Ok (a - b))
                                     (fun a => Ok (Qabs a)) (fun a => Ok a)
                                     dft_base mnd_base 2 3 j 8 = Ok (d, ij)
                            /\ number_exceeds ij (PyInt 100) = true)).
Proof.
  assert (H : number_loop 8 0 (PyInt 100) 2 3 5
              = Failed (UserError "division by zero"))
    by (vm_compute; reflexivity).
  split; [exact H|]. split; [vm_compute; reflexivity|].
  exact (proj1 (@loop_raises_what_a_pass_raises
                  Q Q (fun v _ => Ok v) (fun v _ _ => Ok v)
                  number_div (fun a b => Ok (a * b)) (fun a b => Ok (a - b))
                  (fun a => Ok (Qabs a)) (fun a => Ok a) number_exceeds
                  8 0 (PyInt 100) 2 3 5 (UserError "division by zero")) H).
Defined.

End ApplyMNDFacts.
